(** * waf-rule-stresser: traffic generation, statistics and streaming sessions

    A shallow embedding of the Go backend (models.go, percentiles, tester,
    attacks.go, handlers) and the properties its specification states.

    Conventions of the embedding:
    - Go [int] is the 64-bit signed integer of the supported targets: a [Z]
      whose arithmetic wraps around ([GoInt]);
    - Go [float64] is IEEE-754 binary64, given by the reference semantics of
      [SpecFloat] at precision 53 and maximal exponent 1024 ([Float64]);
    - Go [string] is a byte string ([string]); [map[string]string] is a
      [gmap string string];
    - a run-time panic (division by zero, index out of range) is an explicit
      result, never a default value;
    - randomness ([math/rand]) and the HTTP transport are inputs of the
      functions that use them. *)

From Stdlib Require Import ZArith Lia Bool List Ascii String DecimalString.
From Stdlib Require Import Floats.SpecFloat.
From Stdlib Require DecimalPos DecimalZ.
From stdpp Require Import base tactics option list gmap strings sorting.

Local Open Scope Z_scope.

(** ** Go machine integers *)

Module GoInt.

Definition bits : Z := 64.
Definition min_int : Z := - 2 ^ (bits - 1).
Definition max_int : Z := 2 ^ (bits - 1) - 1.

(** Two's complement wrap-around of a mathematical result. *)
Definition wrap (z : Z) : Z := (z + 2 ^ (bits - 1)) mod 2 ^ bits - 2 ^ (bits - 1).

Definition in_range (z : Z) : Prop := min_int <= z <= max_int.

Definition add (a b : Z) : Z := wrap (a + b).
Definition mul (a b : Z) : Z := wrap (a * b).

(** [a / b] truncates toward zero and panics when [b] is zero. *)
Definition div (a b : Z) : option Z :=
  if b =? 0 then None else Some (wrap (Z.quot a b)).

End GoInt.

(** ** Go float64: IEEE-754 binary64 *)

Module Float64.

Definition prec : Z := 53.
Definition emax : Z := 1024.

Definition add : spec_float -> spec_float -> spec_float := SFadd prec emax.
Definition mul : spec_float -> spec_float -> spec_float := SFmul prec emax.
Definition div : spec_float -> spec_float -> spec_float := SFdiv prec emax.
Definition leb : spec_float -> spec_float -> bool := SFleb.

(** [float64(n)] for an integer [n], rounded to nearest even. *)
Definition of_int (n : Z) : spec_float := binary_normalize prec emax n 0 false.

(** The literals of the source. *)
Definition zero : spec_float := S754_zero false.
Definition half : spec_float := S754_finite false 4503599627370496 (-53).
Definition hundred : spec_float := S754_finite false 7036874417766400 (-46).

(** The integer part of a finite float, rounded toward zero. *)
Definition trunc (f : spec_float) : option Z :=
  match f with
  | S754_zero _ => Some 0
  | S754_finite s m e =>
      Some (cond_Zopp s (if 0 <=? e then Z.pos m * 2 ^ e else Z.pos m / 2 ^ (- e)))
  | S754_infinity _ | S754_nan => None
  end.

(** [int(f)]: the truncation when it fits the integer type. For a value
    that does not fit (or a NaN) the language leaves the result to the
    implementation: [None]. *)
Definition to_int (f : spec_float) : option Z :=
  match trunc f with
  | Some z => if (GoInt.min_int <=? z) && (z <=? GoInt.max_int) then Some z else None
  | None => None
  end.

End Float64.

(** ** Results of Go computations that may panic *)

Inductive go_result (A : Type) : Type :=
| Returns (a : A)
| Panics                (* run-time panic, e.g. index out of range *)
| Unspecified.          (* the language leaves the behaviour to the implementation *)
Arguments Returns {A} a.
Arguments Panics {A}.
Arguments Unspecified {A}.

Definition go_bind {A B} (r : go_result A) (k : A -> go_result B) : go_result B :=
  match r with
  | Returns a => k a
  | Panics => Panics
  | Unspecified => Unspecified
  end.

#[global] Instance go_result_bind : MBind go_result := fun A B k r => go_bind r k.
#[global] Instance go_result_ret : MRet go_result := fun A a => Returns a.

(** [s[i]] on a slice: panics outside [0 .. len s - 1]. *)
Definition slice_index {A} (s : list A) (i : Z) : go_result A :=
  if i <? 0 then Panics
  else match s !! Z.to_nat i with
       | Some a => Returns a
       | None => Panics
       end.

(** [len(s)] as a Go [int]. *)
Definition len {A} (s : list A) : Z := Z.of_nat (length s).

(** ** Percentiles (percentiles.go) *)

(** The rounded index of [calculatePercentile] before the bounds check:
    [int((percentile / 100.0) * float64(len-1) + 0.5)]. *)
Definition roundedIndex0 (n : Z) (percentile : spec_float) : option Z :=
  let index := Float64.mul (Float64.div percentile Float64.hundred)
                           (Float64.of_int (n - 1)) in
  Float64.to_int (Float64.add index Float64.half).

Definition calculatePercentile (sortedValues : list Z) (percentile : spec_float)
  : go_result Z :=
  if len sortedValues =? 0 then Returns 0
  else
    match roundedIndex0 (len sortedValues) percentile with
    | None => Unspecified
    | Some roundedIndex =>
        let roundedIndex :=
          if roundedIndex >=? len sortedValues then len sortedValues - 1
          else roundedIndex in
        slice_index sortedValues roundedIndex
    end.

(** [sort.Ints] on a copy of the slice. *)
Definition sortInts (values : list Z) : list Z := merge_sort Z.le values.

Definition calculateResponseTimePercentiles (responseTimes : list Z)
  : go_result (Z * Z * Z) :=
  if len responseTimes =? 0 then Returns (0, 0, 0)
  else
    let sorted := sortInts responseTimes in
    p50 ← calculatePercentile sorted (Float64.of_int 50);
    p95 ← calculatePercentile sorted (Float64.of_int 95);
    p99 ← calculatePercentile sorted (Float64.of_int 99);
    Returns (p50, p95, p99).


(** ** Strings and formatting helpers of the Go library *)

Local Open Scope string_scope.
Local Open Scope Z_scope.

(** The one-character string holding a double quote. *)
Definition dq : string := String (ascii_of_nat 34) EmptyString.

(** [strings.Contains(s, substr)]. *)
Fixpoint strings_Contains (s substr : string) : bool :=
  if String.prefix substr s then true
  else match s with
       | EmptyString => false
       | String _ s' => strings_Contains s' substr
       end.

Definition strings_HasSuffix (s suffix : string) : bool :=
  let ls := String.length s in
  let lf := String.length suffix in
  (lf <=? ls)%nat && String.eqb (String.substring (ls - lf) lf s) suffix.

(** [strings.TrimSuffix(s, suffix)]. *)
Definition strings_TrimSuffix (s suffix : string) : string :=
  if strings_HasSuffix s suffix
  then String.substring 0 (String.length s - String.length suffix) s
  else s.

(** [strings.Join(elems, sep)]. *)
Fixpoint strings_Join (elems : list string) (sep : string) : string :=
  match elems with
  | [] => EmptyString
  | [e] => e
  | e :: rest => e +:+ sep +:+ strings_Join rest sep
  end.

(** The verb [%d] of [fmt.Sprintf]. *)
Definition fmt_d (z : Z) : string := DecimalString.NilZero.string_of_int (Z.to_int z).

(** ** Randomness ([math/rand])

    The generator is a supply of drawn numbers; [rand.Intn(n)] consumes one
    and reduces it into [0, n). It is only called with [n > 0]. *)

Definition rng : Type := list Z.

Definition rand_Intn (n : Z) (g : rng) : Z * rng :=
  match g with
  | [] => (0, [])
  | x :: g' => (x mod n, g')
  end.

(** ** Data model (models.go) *)

Module TestConfig.
Record t : Type := mk {
  TargetURL : string;
  TotalRequests : Z;
  Duration : Z;
  TrafficType : string;
  ErrorMode : bool;
  UserAgentType : string;
  CustomUserAgent : string;
  TestMode : string;
  HTTPMethod : string;
  CustomHeaders : gmap string string;
  RequestBody : string
}.
End TestConfig.

Module RequestResult.
Record t : Type := mk {
  ID : Z;
  Status : Z;
  StatusText : string;
  URL : string;
  Method : string;
  RequestHeaders : gmap string string;
  ResponseHeaders : gmap string string;
  RequestBody : string;
  ResponseBody : string;
  ResponseTime : Z;
  Timestamp : Z;
  Error : string;
  WasBlocked : bool;
  AttackInfo : string
}.
End RequestResult.

(** [TestResult]; the two wall-clock fields [Duration] and [RequestsPerSec]
    (floats derived from [EndTime - StartTime]) are left out. *)
Module TestResult.
Record t : Type := mk {
  TestID : string;
  TotalRequests : Z;
  SuccessCount : Z;
  ErrorCount : Z;
  BlockedCount : Z;
  AvgResponse : Z;
  MinResponse : Z;
  MaxResponse : Z;
  P50Response : Z;
  P95Response : Z;
  P99Response : Z;
  Requests : list RequestResult.t;
  RateLimitHit : bool;
  RateLimitAt : Z;
  StartTime : Z;
  EndTime : Z
}.
End TestResult.

Module TestStats.
Record t : Type := mk {
  SuccessCount : Z;
  ErrorCount : Z;
  BlockedCount : Z;
  AvgResponse : Z
}.
End TestStats.

Module ProgressUpdate.
Record t : Type := mk {
  Type_ : string;
  TestID : string;
  Completed : Z;
  Total : Z;
  Percentage : Z;
  NewRequests : list RequestResult.t;
  CurrentStats : option TestStats.t;
  FinalResult : option TestResult.t;
  Error : string;
  Timestamp : Z
}.
End ProgressUpdate.

(** ** Attack payloads (attacks.go) *)

(** The global [AttackPayloads], filled once at start-up. *)
Module AttackPayloads.
Record t : Type := mk {
  SQLInjection : list string;
  XSS : list string;
  PathTraversal : list string;
  CommandInjection : list string;
  ScannerUserAgents : list string;
  LegitimateUserAgents : list string
}.
End AttackPayloads.

(** [s[rand.Intn(len(s))]] on a non-empty slice of strings. *)
Definition pick (s : list string) (g : rng) : string * rng :=
  let '(i, g') := rand_Intn (len s) g in
  (default EmptyString (s !! Z.to_nat i), g').

Definition GetRandomPayload (pools : AttackPayloads.t) (attackType : string) (g : rng)
  : string * rng :=
  let payloads :=
    if String.eqb attackType "sql" then Some (AttackPayloads.SQLInjection pools)
    else if String.eqb attackType "xss" then Some (AttackPayloads.XSS pools)
    else if String.eqb attackType "traversal" then Some (AttackPayloads.PathTraversal pools)
    else if String.eqb attackType "command" then Some (AttackPayloads.CommandInjection pools)
    else None in
  match payloads with
  | None => (EmptyString, g)
  | Some payloads => if len payloads =? 0 then (EmptyString, g) else pick payloads g
  end.

Definition GetRandomUserAgent (pools : AttackPayloads.t) (g : rng) : string * rng :=
  if len (AttackPayloads.ScannerUserAgents pools) =? 0
  then pick ["sqlmap/1.0"; "Nikto/2.1.6"; "nmap-scripting-engine"] g
  else pick (AttackPayloads.ScannerUserAgents pools) g.

Definition GetLegitimateUserAgent (pools : AttackPayloads.t) (g : rng) : string * rng :=
  if len (AttackPayloads.LegitimateUserAgents pools) =? 0
  then ("Mozilla/5.0 (Windows NT 10.0; Win64; x64) AppleWebKit/537.36 (KHTML, like Gecko) Chrome/131.0.0.0 Safari/537.36", g)
  else pick (AttackPayloads.LegitimateUserAgents pools) g.

Definition SelectUserAgent (pools : AttackPayloads.t) (config : TestConfig.t) (g : rng)
  : string * rng :=
  if negb (String.eqb (TestConfig.CustomUserAgent config) EmptyString)
  then (TestConfig.CustomUserAgent config, g)
  else if String.eqb (TestConfig.UserAgentType config) "scanner"
  then GetRandomUserAgent pools g
  else if String.eqb (TestConfig.UserAgentType config) "legitimate"
  then GetLegitimateUserAgent pools g
  else if String.eqb (TestConfig.TrafficType config) "attack"
  then GetRandomUserAgent pools g
  else GetLegitimateUserAgent pools g.

Definition GetRandomAttackType (g : rng) : string * rng :=
  pick ["sql"; "xss"; "traversal"; "command"] g.

(** The four results of [BuildAttackRequest]. *)
Module AttackRequest.
Record t : Type := mk {
  url : string;
  body : string;
  headers : gmap string string;
  attackInfo : string
}.
End AttackRequest.

Definition BuildAttackRequest (pools : AttackPayloads.t) (config : TestConfig.t) (g : rng)
  : AttackRequest.t * rng :=
  let url := TestConfig.TargetURL config in
  let body := TestConfig.RequestBody config in
  let headers := TestConfig.CustomHeaders config in
  let '(attackType, g) := GetRandomAttackType g in
  let '(payload, g) := GetRandomPayload pools attackType g in
  if String.eqb payload EmptyString then
    (AttackRequest.mk url body headers "No payloads available", g)
  else
    let '(url, body, attackInfo) :=
      if String.eqb (TestConfig.HTTPMethod config) "GET"
         || String.eqb (TestConfig.HTTPMethod config) EmptyString
      then
        let separator := if strings_Contains url "?" then "&" else "?" in
        (url +:+ separator +:+ "id=" +:+ payload +:+ "&search=" +:+ payload,
         body,
         attackType +:+ " (query parameter)")
      else
        let body :=
          if String.eqb body EmptyString
          then "{" +:+ dq +:+ "id" +:+ dq +:+ ": " +:+ dq +:+ payload +:+ dq
               +:+ ", " +:+ dq +:+ "search" +:+ dq +:+ ": " +:+ dq +:+ payload +:+ dq +:+ "}"
          else strings_TrimSuffix body "}"
               +:+ ", " +:+ dq +:+ "attack" +:+ dq +:+ ": " +:+ dq +:+ payload +:+ dq +:+ "}" in
        (url, body, attackType +:+ " (request body)") in
    let '(ua, g) := GetRandomUserAgent pools g in
    (AttackRequest.mk url body (<["User-Agent" := ua]> headers) attackInfo, g).

Definition Generate404URL (now : Z) (baseURL : string) (g : rng) : string * rng :=
  let '(r, g) := rand_Intn 999999 g in
  let randomPath := "/nonexistent-path-" +:+ fmt_d now +:+ "-" +:+ fmt_d r in
  (strings_TrimSuffix baseURL "/" +:+ randomPath, g).

(** ** The environment of a test run

    What the HTTP transport answers to the request with a given sequence
    number, the clock, and the status-text table of [net/http]. *)

Inductive TransportOutcome : Type :=
| NewRequestError (err : string)
    (* http.NewRequest fails *)
| DoError (elapsedMs : Z) (err : string)
    (* client.Do fails (time-out, refused connection, ...) *)
| DoResponse (elapsedMs : Z) (StatusCode : Z) (Header : gmap string (list string))
             (Body : string + string).
    (* a response; its body is read ([inl]) or reading it fails ([inr]) *)

Module World.
Record t : Type := mk {
  transport : Z -> TransportOutcome;
  clock : Z -> Z;
  http_StatusText : Z -> string
}.
End World.

(** ** Sending one request (tester.go) *)

Definition is_blocked_status (code : Z) : bool :=
  (code =? 429) || (code =? 406) || (code =? 403).

Definition truncate_body (bodyString : string) : string :=
  if (500 <? String.length bodyString)%nat
  then String.substring 0 500 bodyString +:+ "... (truncated)"
  else bodyString.

Definition sendRequest (w : World.t) (pools : AttackPayloads.t)
    (id : Z) (config : TestConfig.t) (g : rng) : RequestResult.t * rng :=
  let timestamp := World.clock w id in
  let method :=
    if String.eqb (TestConfig.HTTPMethod config) EmptyString then "GET"
    else TestConfig.HTTPMethod config in
  let url := TestConfig.TargetURL config in
  let body := TestConfig.RequestBody config in
  let headers := TestConfig.CustomHeaders config in
  (* normal traffic with error mode: force a 404 *)
  let '(url, g) :=
    if String.eqb (TestConfig.TrafficType config) "normal" && TestConfig.ErrorMode config
    then Generate404URL timestamp url g else (url, g) in
  (* attack mode: inject a payload *)
  let '(url, body, headers, attackInfo, requestBody, g) :=
    if String.eqb (TestConfig.TrafficType config) "attack" then
      let '(a, g) := BuildAttackRequest pools config g in
      (AttackRequest.url a, AttackRequest.body a, AttackRequest.headers a,
       AttackRequest.attackInfo a, AttackRequest.body a, g)
    else (url, body, headers, EmptyString, EmptyString, g) in
  let requestBody :=
    if negb (String.eqb body EmptyString) && String.eqb requestBody EmptyString
    then body else requestBody in
  (* headers and user agent, set once the request object exists *)
  let prepare (g : rng) : gmap string string * rng :=
    let requestHeaders :=
      if negb (String.eqb body EmptyString)
      then <["Content-Type" := "application/json"]> headers else headers in
    let '(userAgent, g) := SelectUserAgent pools config g in
    (<["User-Agent" := userAgent]> requestHeaders, g) in
  match World.transport w id with
  | NewRequestError err =>
      (RequestResult.mk id 0 EmptyString url method ∅ ∅ requestBody EmptyString 0
         timestamp ("Failed to create request: " +:+ err) false attackInfo, g)
  | DoError elapsed err =>
      let '(requestHeaders, g) := prepare g in
      (RequestResult.mk id 0 EmptyString url method requestHeaders ∅ requestBody
         EmptyString elapsed timestamp ("Request failed: " +:+ err) false attackInfo, g)
  | DoResponse elapsed code header bodyRead =>
      let '(requestHeaders, g) := prepare g in
      let responseHeaders := (fun values => strings_Join values ", ") <$> header in
      let '(responseBody, error) :=
        match bodyRead with
        | inl bodyString => (truncate_body bodyString, EmptyString)
        | inr err => (EmptyString, "Failed to read response body: " +:+ err)
        end in
      (RequestResult.mk id code (World.http_StatusText w code) url method
         requestHeaders responseHeaders requestBody responseBody elapsed
         timestamp error (is_blocked_status code) attackInfo, g)
  end.

(** ** Statistics (tester.go) *)

Definition go_div (a b : Z) : go_result Z :=
  match GoInt.div a b with
  | Some q => Returns q
  | None => Panics
  end.

(** The local variables of the loop of [calculateStatistics]. *)
Module StatsLoop.
Record t : Type := mk {
  successCount : Z;
  errorCount : Z;
  blockedCount : Z;
  totalResponseTime : Z;
  minResponse : Z;
  maxResponse : Z;
  responseTimes : list Z
}.

Definition init : t := mk 0 0 0 0 999999 0 [].

(** One iteration, for the request [req]. *)
Definition step (a : t) (req : RequestResult.t) : t :=
  let status := RequestResult.Status req in
  let rt := RequestResult.ResponseTime req in
  mk (if (200 <=? status) && (status <? 300)
      then GoInt.add (successCount a) 1 else successCount a)
     (if (400 <=? status) || negb (String.eqb (RequestResult.Error req) EmptyString)
      then GoInt.add (errorCount a) 1 else errorCount a)
     (if RequestResult.WasBlocked req
      then GoInt.add (blockedCount a) 1 else blockedCount a)
     (GoInt.add (totalResponseTime a) rt)
     (if (rt <? minResponse a) && (0 <? rt) then rt else minResponse a)
     (if maxResponse a <? rt then rt else maxResponse a)
     (responseTimes a ++ [rt]).
End StatsLoop.

Definition calculateStatistics (result : TestResult.t) : go_result TestResult.t :=
  let a := fold_left StatsLoop.step (TestResult.Requests result) StatsLoop.init in
  avg ← (if 0 <? TestResult.TotalRequests result
         then go_div (StatsLoop.totalResponseTime a) (TestResult.TotalRequests result)
         else Returns (TestResult.AvgResponse result));
  let minResponse :=
    if StatsLoop.minResponse a =? 999999 then 0 else StatsLoop.minResponse a in
  '(p50, p95, p99) ← calculateResponseTimePercentiles (StatsLoop.responseTimes a);
  Returns (TestResult.mk
             (TestResult.TestID result)
             (TestResult.TotalRequests result)
             (StatsLoop.successCount a)
             (StatsLoop.errorCount a)
             (StatsLoop.blockedCount a)
             avg
             minResponse
             (StatsLoop.maxResponse a)
             p50 p95 p99
             (TestResult.Requests result)
             (TestResult.RateLimitHit result)
             (TestResult.RateLimitAt result)
             (TestResult.StartTime result)
             (TestResult.EndTime result)).

Definition calculateInterval (config : TestConfig.t) : go_result Z :=
  if String.eqb (TestConfig.TestMode config) "burst" then
    burstDuration ← go_div (TestConfig.Duration config) 2;
    go_div (GoInt.mul burstDuration 1000) (TestConfig.TotalRequests config)
  else
    go_div (GoInt.mul (TestConfig.Duration config) 1000) (TestConfig.TotalRequests config).

(** The variables of the loop of [calculateIncrementalStats]: the record
    [stats] that it fills in and the running sum. *)
Module IncrementalLoop.
Record t : Type := mk {
  stats : TestStats.t;
  totalResponseTime : Z
}.

Definition init : t := mk (TestStats.mk 0 0 0 0) 0.

(** One iteration, for the request [req]. *)
Definition step (a : t) (req : RequestResult.t) : t :=
  let status := RequestResult.Status req in
  let stats := stats a in
  let stats :=
    if (200 <=? status) && (status <? 300)
    then TestStats.mk (GoInt.add (TestStats.SuccessCount stats) 1)
           (TestStats.ErrorCount stats) (TestStats.BlockedCount stats)
           (TestStats.AvgResponse stats)
    else stats in
  let stats :=
    if (400 <=? status) || negb (String.eqb (RequestResult.Error req) EmptyString)
    then TestStats.mk (TestStats.SuccessCount stats)
           (GoInt.add (TestStats.ErrorCount stats) 1) (TestStats.BlockedCount stats)
           (TestStats.AvgResponse stats)
    else stats in
  let stats :=
    if RequestResult.WasBlocked req
    then TestStats.mk (TestStats.SuccessCount stats) (TestStats.ErrorCount stats)
           (GoInt.add (TestStats.BlockedCount stats) 1) (TestStats.AvgResponse stats)
    else stats in
  mk stats (GoInt.add (totalResponseTime a) (RequestResult.ResponseTime req)).
End IncrementalLoop.

Definition calculateIncrementalStats (requests : list RequestResult.t)
  : go_result TestStats.t :=
  let a := fold_left IncrementalLoop.step requests IncrementalLoop.init in
  let stats := IncrementalLoop.stats a in
  if 0 <? len requests then
    avg ← go_div (IncrementalLoop.totalResponseTime a) (len requests);
    Returns (TestStats.mk (TestStats.SuccessCount stats) (TestStats.ErrorCount stats)
               (TestStats.BlockedCount stats) avg)
  else Returns stats.

Definition test_id (now : Z) : string := "test_" +:+ fmt_d now.

Definition buildFinalResult (testID : string) (requests : list RequestResult.t)
    (startTime now : Z) : go_result TestResult.t :=
  calculateStatistics
    (TestResult.mk testID (len requests) 0 0 0 0 0 0 0 0 0 requests false 0 startTime now).

(** ** The synchronous run (tester.go) *)

(** The variables that the request loop of [RunTest] updates. *)
Module RunLoop.
Record t : Type := mk {
  Requests : list RequestResult.t;
  RateLimitHit : bool;
  RateLimitAt : Z;
  gen : rng
}.
End RunLoop.

(** The loop [for i := 1; i <= TotalRequests; i++], entered at [i] with
    [fuel] iterations left. The pauses between requests change nothing
    but the clock. *)
Fixpoint runLoop (w : World.t) (pools : AttackPayloads.t) (config : TestConfig.t)
    (fuel : nat) (i : Z) (st : RunLoop.t) : RunLoop.t :=
  match fuel with
  | O => st
  | S fuel' =>
      let '(requestResult, g) := sendRequest w pools i config (RunLoop.gen st) in
      let requests := (RunLoop.Requests st ++ [requestResult])%list in
      let st' :=
        if RequestResult.WasBlocked requestResult && negb (RunLoop.RateLimitHit st)
        then RunLoop.mk requests true i g
        else RunLoop.mk requests (RunLoop.RateLimitHit st) (RunLoop.RateLimitAt st) g in
      runLoop w pools config fuel' (i + 1) st'
  end.

Definition RunTest (w : World.t) (pools : AttackPayloads.t) (config : TestConfig.t) (g : rng)
  : go_result TestResult.t :=
  let n := TestConfig.TotalRequests config in
  intervalMs ← calculateInterval config;
  let st := runLoop w pools config (Z.to_nat n) 1 (RunLoop.mk [] false 0 g) in
  calculateStatistics
    (TestResult.mk (test_id (World.clock w 0))
                   (len (RunLoop.Requests st)) 0 0 0 0 0 0 0 0 0
                   (RunLoop.Requests st)
                   (RunLoop.RateLimitHit st) (RunLoop.RateLimitAt st)
                   (World.clock w 0) (World.clock w (n + 1))).

(** ** The streaming run (tester.go)

    [RunTestStreaming] starts two goroutines that share the context [ctx]
    and the channel [resultsChan] (capacity 100): the sender
    [sendRequestsConcurrently] and the collector, which batches results
    and emits progress events. A state of the session holds the control
    point and the variables of both, the channel and the context; a
    schedule is the list of the goroutine steps and of the cancellations
    that the environment interleaves. The events are recorded in emission
    order; the reader of [progressChan] drains it without other effect. *)

Definition resultsChan_capacity : Z := 100.

(** Control points of [sendRequestsConcurrently]. *)
Inductive sender_pc : Type :=
| SCheck (i : Z)                          (* loop head, before the first select *)
| SEnqueue (i : Z) (result : RequestResult.t)  (* at [resultsChan <- result] *)
| SWait (i : Z)                           (* waiting the interval after request i *)
| SDone.                                  (* returned; resultsChan closed *)

(** Control points of the collector goroutine. *)
Inductive collector_pc : Type :=
| CRecv          (* at [range resultsChan] *)
| CProcess       (* a result was received and appended *)
| CFinish        (* after the loop, before buildFinalResult *)
| CDone          (* returned; progressChan closed *)
| CPanicked.     (* a panic escaped the goroutine *)

Module Session.
Record t : Type := mk {
  cancelled : bool;                       (* ctx.Done() is closed *)
  sender : sender_pc;
  gen : rng;
  resultsChan : list RequestResult.t;     (* buffered values, oldest first *)
  resultsChan_closed : bool;
  collector : collector_pc;
  allRequests : list RequestResult.t;
  batchRequests : list RequestResult.t;
  completedCount : Z;
  events : list ProgressUpdate.t          (* sent on progressChan, oldest first *)
}.
End Session.

(** What the environment schedules next. The booleans resolve what the
    program leaves open: which ready case a [select] takes
    ([true]: the [ctx.Done()] case), and whether one second has passed
    since the last batch. *)
Inductive action : Type :=
| ACancel
| ASender (takeDone : bool)
| ACollector (secondElapsed : bool).

Section Streaming.

Variable w : World.t.
Variable pools : AttackPayloads.t.
Variable config : TestConfig.t.

Let total : Z := TestConfig.TotalRequests config.
Let testID : string := test_id (World.clock w 0).

(** The state in which the goroutine of [RunTestStreaming] has started
    the sender: the initial progress event is on the channel, the interval
    is computed and both loops are about to run. The goroutine gets there
    when [calculateInterval] returns; for [TotalRequests = 0] it panics
    before, so the sessions of this system are those of the other
    configurations. *)
Definition session_start (g : rng) : Session.t :=
  Session.mk false (SCheck 1) g [] false CRecv [] [] 0
    [ProgressUpdate.mk "progress" testID 0 total 0 [] None None EmptyString
       (World.clock w 0)].

Definition sender_return (s : Session.t) : Session.t :=
  Session.mk (Session.cancelled s) SDone (Session.gen s)
    (Session.resultsChan s) true
    (Session.collector s) (Session.allRequests s) (Session.batchRequests s)
    (Session.completedCount s) (Session.events s).

Definition sender_goto (pc : sender_pc) (g : rng) (chan : list RequestResult.t)
    (s : Session.t) : Session.t :=
  Session.mk (Session.cancelled s) pc g chan (Session.resultsChan_closed s)
    (Session.collector s) (Session.allRequests s) (Session.batchRequests s)
    (Session.completedCount s) (Session.events s).

(** One step of [sendRequestsConcurrently]; [None] when it is blocked or
    has returned. *)
Definition sender_step (takeDone : bool) (s : Session.t) : option Session.t :=
  match Session.sender s with
  | SCheck i =>
      if total <? i then Some (sender_return s)
      else if Session.cancelled s then Some (sender_return s)
      else
        let '(result, g) := sendRequest w pools i config (Session.gen s) in
        Some (sender_goto (SEnqueue i result) g (Session.resultsChan s) s)
  | SEnqueue i result =>
      let full := resultsChan_capacity <=? len (Session.resultsChan s) in
      let next := if i <? total then SWait i else SCheck (i + 1) in
      let sent :=
        sender_goto next (Session.gen s) (Session.resultsChan s ++ [result]) s in
      match Session.cancelled s, full with
      | true, true => Some (sender_return s)
      | true, false => Some (if takeDone then sender_return s else sent)
      | false, false => Some sent
      | false, true => None
      end
  | SWait i =>
      if Session.cancelled s && takeDone then Some (sender_return s)
      else Some (sender_goto (SCheck (i + 1)) (Session.gen s) (Session.resultsChan s) s)
  | SDone => None
  end.

Definition collector_goto (pc : collector_pc) (chan all batch : list RequestResult.t)
    (count : Z) (new_events : list ProgressUpdate.t) (s : Session.t) : Session.t :=
  Session.mk (Session.cancelled s) (Session.sender s) (Session.gen s)
    chan (Session.resultsChan_closed s)
    pc all batch count (Session.events s ++ new_events).

(** One step of the collector goroutine at clock reading [now]. *)
Definition collector_step (secondElapsed : bool) (s : Session.t) : option Session.t :=
  let now := World.clock w (Session.completedCount s) in
  let all := Session.allRequests s in
  let batch := Session.batchRequests s in
  let count := Session.completedCount s in
  match Session.collector s with
  | CRecv =>
      match Session.resultsChan s with
      | result :: rest =>
          Some (collector_goto CProcess rest (all ++ [result]) (batch ++ [result])
                  (GoInt.add count 1) [] s)
      | [] =>
          if Session.resultsChan_closed s
          then Some (collector_goto CFinish [] all batch count [] s)
          else None
      end
  | CProcess =>
      if Session.cancelled s then
        Some (collector_goto CDone (Session.resultsChan s) all batch count
                [ProgressUpdate.mk "cancelled" testID count total 0 [] None None
                   EmptyString now] s)
      else
        let isComplete := total <=? count in
        let next := if isComplete then CFinish else CRecv in
        if secondElapsed || isComplete then
          match (stats ← calculateIncrementalStats all;
                 percentage ← go_div (GoInt.mul count 100) total;
                 Returns (stats, percentage)) with
          | Returns (stats, percentage) =>
              Some (collector_goto next (Session.resultsChan s) all [] count
                      [ProgressUpdate.mk "progress" testID count total percentage
                         batch (Some stats) None EmptyString now] s)
          | _ => Some (collector_goto CPanicked (Session.resultsChan s) all batch count [] s)
          end
        else Some (collector_goto next (Session.resultsChan s) all batch count [] s)
  | CFinish =>
      match buildFinalResult testID all (World.clock w 0) now with
      | Returns finalResult =>
          Some (collector_goto CDone (Session.resultsChan s) all batch count
                  [ProgressUpdate.mk "complete" testID total total 100 [] None
                     (Some finalResult) EmptyString now] s)
      | _ => Some (collector_goto CPanicked (Session.resultsChan s) all batch count [] s)
      end
  | CDone | CPanicked => None
  end.

Definition cancel (s : Session.t) : Session.t :=
  Session.mk true (Session.sender s) (Session.gen s)
    (Session.resultsChan s) (Session.resultsChan_closed s)
    (Session.collector s) (Session.allRequests s) (Session.batchRequests s)
    (Session.completedCount s) (Session.events s).

Definition step (a : action) (s : Session.t) : option Session.t :=
  match a with
  | ACancel => Some (cancel s)
  | ASender takeDone => sender_step takeDone s
  | ACollector secondElapsed => collector_step secondElapsed s
  end.

(** Running a schedule; [None] when it asks a step of a goroutine that
    cannot move. *)
Fixpoint exec (schedule : list action) (s : Session.t) : option Session.t :=
  match schedule with
  | [] => Some s
  | a :: schedule' =>
      match step a s with
      | Some s' => exec schedule' s'
      | None => None
      end
  end.

(** Both goroutines have returned: the event stream is closed. *)
Definition stream_closed (s : Session.t) : bool :=
  match Session.sender s, Session.collector s with
  | SDone, CDone => true
  | _, _ => false
  end.

End Streaming.

Definition cancel_free (schedule : list action) : Prop :=
  Forall (fun a => a <> ACancel) schedule.

Definition event_types (s : Session.t) : list string :=
  map ProgressUpdate.Type_ (Session.events s).

(** ** Starting a streaming session (handlers.go) *)

Inductive handler_result : Type :=
| HttpError (status : Z) (message : string)
    (* http.Error and return: nothing was started *)
| Streamed (config : TestConfig.t).
    (* RunTestStreaming was called with [config] and the session registered *)

(** [s != a && s != b && s != c] on strings. *)
Definition none_of (s a b c : string) : bool :=
  negb (String.eqb s a) && negb (String.eqb s b) && negb (String.eqb s c).

(** The validation and defaulting block shared by both start handlers:
    the first failing check decides the error message. *)
Definition validateConfig (config : TestConfig.t) : string + TestConfig.t :=
  if String.eqb (TestConfig.TargetURL config) EmptyString then
    inl "target_url is required"
  else if TestConfig.TotalRequests config <=? 0 then
    inl "total_requests must be greater than 0"
  else if 10000 <? TestConfig.TotalRequests config then
    inl "total_requests cannot exceed 10000 (safety limit)"
  else if TestConfig.Duration config <=? 0 then
    inl "duration must be greater than 0"
  else if 3600 <? TestConfig.Duration config then
    inl "duration cannot exceed 3600 seconds (1 hour)"
  else if none_of (TestConfig.TrafficType config) EmptyString "normal" "attack" then
    inl "traffic_type must be 'normal' or 'attack'"
  else if none_of (TestConfig.TestMode config) EmptyString "baseline" "burst" then
    inl "test_mode must be 'baseline' or 'burst'"
  else if none_of (TestConfig.UserAgentType config) EmptyString "legitimate" "scanner" then
    inl "user_agent_type must be 'legitimate' or 'scanner'"
  else
    let orDefault (s d : string) := if String.eqb s EmptyString then d else s in
    inr (TestConfig.mk
           (TestConfig.TargetURL config)
           (TestConfig.TotalRequests config)
           (TestConfig.Duration config)
           (orDefault (TestConfig.TrafficType config) "normal")
           (TestConfig.ErrorMode config)
           (TestConfig.UserAgentType config)
           (TestConfig.CustomUserAgent config)
           (orDefault (TestConfig.TestMode config) "baseline")
           (orDefault (TestConfig.HTTPMethod config) "GET")
           (TestConfig.CustomHeaders config)
           (TestConfig.RequestBody config)).

(** [handleStartTestStream] on a request with the given HTTP method, whose
    body decodes to [decoded] ([inl]: the JSON decoder's error), written to
    a response writer that supports flushing or not. *)
Definition handleStartTestStream (method : string) (decoded : string + TestConfig.t)
    (canFlush : bool) : handler_result :=
  if negb (String.eqb method "POST") then
    HttpError 405 "Method not allowed. Use POST."
  else
    match decoded with
    | inl err => HttpError 400 ("Invalid JSON: " +:+ err)
    | inr config =>
        match validateConfig config with
        | inl message => HttpError 400 message
        | inr config =>
            if canFlush then Streamed config
            else HttpError 500 "Streaming unsupported"
        end
    end.

(** ** Specification-side notions used in the statements *)

(** A configuration for examples: [n] requests over [d] seconds. *)
Definition sample_config (n d : Z) (mode : string) : TestConfig.t :=
  TestConfig.mk "http://x/y" n d "normal" false EmptyString EmptyString mode "GET" ∅
    EmptyString.

(** The configurations that the validation contract refuses. *)
Definition invalid_config (c : TestConfig.t) : Prop :=
  TestConfig.TargetURL c = EmptyString
  \/ TestConfig.TotalRequests c < 1 \/ 10000 < TestConfig.TotalRequests c
  \/ TestConfig.Duration c < 1 \/ 3600 < TestConfig.Duration c
  \/ ~ In (TestConfig.TrafficType c) [EmptyString; "normal"; "attack"]
  \/ ~ In (TestConfig.TestMode c) [EmptyString; "baseline"; "burst"]
  \/ ~ In (TestConfig.UserAgentType c) [EmptyString; "legitimate"; "scanner"].

(** The configuration with the unset optional fields defaulted. *)
Definition with_defaults (c : TestConfig.t) : TestConfig.t :=
  TestConfig.mk
    (TestConfig.TargetURL c) (TestConfig.TotalRequests c) (TestConfig.Duration c)
    (if String.eqb (TestConfig.TrafficType c) EmptyString then "normal"
     else TestConfig.TrafficType c)
    (TestConfig.ErrorMode c) (TestConfig.UserAgentType c) (TestConfig.CustomUserAgent c)
    (if String.eqb (TestConfig.TestMode c) EmptyString then "baseline"
     else TestConfig.TestMode c)
    (if String.eqb (TestConfig.HTTPMethod c) EmptyString then "GET"
     else TestConfig.HTTPMethod c)
    (TestConfig.CustomHeaders c) (TestConfig.RequestBody c).

(** The payload that [BuildAttackRequest] selects with the generator [g]. *)
Definition selected_payload (pools : AttackPayloads.t) (g : rng) : string :=
  let '(attackType, g) := GetRandomAttackType g in
  fst (GetRandomPayload pools attackType g).

(** Payload pools in which every category holds the single payload [P]. *)
Definition pools_of (P : string) : AttackPayloads.t :=
  AttackPayloads.mk [P] [P] [P] [P] [] [].

(** A query string is present: the URL has a question mark. *)
Definition has_query (url : string) : Prop :=
  In (ascii_of_nat 63) (list_ascii_of_string url).

(** The response times of a list of outcomes, and their exact sum. *)
Definition response_times (requests : list RequestResult.t) : list Z :=
  map RequestResult.ResponseTime requests.

Definition sum_Z (l : list Z) : Z := fold_right Z.add 0 l.

(** An outcome for examples, with the blocked flag that its status implies. *)
Definition sample_outcome (id status responseTime : Z) : RequestResult.t :=
  RequestResult.mk id status EmptyString "http://x/y" "GET" ∅ ∅ EmptyString EmptyString
    responseTime 0 EmptyString (is_blocked_status status) EmptyString.

(** The final statistics in the words of the specification: the
    integer average, the minimum over the strictly positive latencies
    (0 when there is none) and the maximum over all latencies. *)
Definition spec_average (latencies : list Z) : Z :=
  Z.quot (sum_Z latencies) (len latencies).

Definition spec_min_positive (latencies : list Z) : Z :=
  match filter (fun t => 0 < t) latencies with
  | [] => 0
  | t :: ts => fold_left Z.min ts t
  end.

Definition spec_max (latencies : list Z) : Z :=
  match latencies with
  | [] => 0
  | t :: ts => fold_left Z.max ts t
  end.

(** The first outcome, in sequence order, whose blocked flag is set. *)
Definition first_blocked (requests : list RequestResult.t) : option RequestResult.t :=
  find RequestResult.WasBlocked requests.

(** Rate-limit detection as specified: the flag is set exactly when some
    outcome is blocked, and the index is the sequence number of the first
    blocked outcome ([at0], the initial value, when there is none). *)
Definition rate_limit_inv (at0 : Z) (requests : list RequestResult.t)
    (rateLimitHit : bool) (rateLimitAt : Z) : Prop :=
  match first_blocked requests with
  | Some x => rateLimitHit = true /\ rateLimitAt = RequestResult.ID x
  | None => rateLimitHit = false /\ rateLimitAt = at0
  end.

(** The sequence numbers of a list of outcomes. *)
Definition ids (requests : list RequestResult.t) : list Z :=
  map RequestResult.ID requests.

(** A world for examples: request [i] is answered in 120 ms with the
    status [status i]. *)
Definition sample_world (status : Z -> Z) : World.t :=
  World.mk (fun i => DoResponse 120 (status i) ∅ (inl "ok")) (fun i => i)
           (fun _ => EmptyString).

(** The final result carried by a "complete" event is the one specified
    for [N] requests. *)
Definition complete_event_ok (N : Z) (ev : ProgressUpdate.t) : Prop :=
  ProgressUpdate.Type_ ev = "complete" ->
  exists r, ProgressUpdate.FinalResult ev = Some r /\
            TestResult.TotalRequests r = N /\
            ids (TestResult.Requests r) = seqZ 1 N.

(** The invariant of the sessions that are never cancelled; [k] is the
    number of results that the sender has put on the channel. *)
Definition stream_inv (N : Z) (s : Session.t) : Prop :=
  Session.cancelled s = false /\
  exists k,
    0 <= k <= N /\
    ids (Session.allRequests s ++ Session.resultsChan s) = seqZ 1 k /\
    Session.completedCount s = len (Session.allRequests s) /\
    match Session.sender s with
    | SCheck i => i = k + 1 /\ Session.resultsChan_closed s = false
    | SEnqueue i r =>
        i = k + 1 /\ i <= N /\ RequestResult.ID r = i /\ Session.resultsChan_closed s = false
    | SWait i => i = k /\ i < N /\ Session.resultsChan_closed s = false
    | SDone => k = N /\ Session.resultsChan_closed s = true
    end /\
    match Session.collector s with
    | CRecv => len (Session.allRequests s) < N
    | CProcess => 1 <= len (Session.allRequests s)
    | CFinish => len (Session.allRequests s) = N
    | CDone =>
        len (Session.allRequests s) = N /\
        exists ev, last (Session.events s) = Some ev /\ ProgressUpdate.Type_ ev = "complete"
    | CPanicked => False
    end /\
    Forall (complete_event_ok N) (Session.events s).

(** Steps left to each goroutine of a session that is never cancelled. *)
Definition sender_measure (N : Z) (pc : sender_pc) : nat :=
  match pc with
  | SCheck i => Z.to_nat (3 * (N + 1 - i) + 1)
  | SEnqueue i _ => Z.to_nat (3 * (N + 1 - i))
  | SWait i => Z.to_nat (3 * (N + 1 - i) - 1)
  | SDone => 0
  end.

Definition collector_measure (N : Z) (s : Session.t) : nat :=
  match Session.collector s with
  | CRecv => Z.to_nat (2 * (N - len (Session.allRequests s)) + 2)
  | CProcess => Z.to_nat (2 * (N - len (Session.allRequests s)) + 3)
  | CFinish => 1
  | CDone | CPanicked => 0
  end.

Definition session_measure (N : Z) (s : Session.t) : nat :=
  (sender_measure N (Session.sender s) + collector_measure N s)%nat.

(** The events of a session: progress events, then at most one terminal
    event ("cancelled" or "complete"), sent when the collector returns. *)
Definition is_progress (ev : ProgressUpdate.t) : Prop :=
  ProgressUpdate.Type_ ev = "progress".

Definition is_terminal (ev : ProgressUpdate.t) : Prop :=
  ProgressUpdate.Type_ ev = "cancelled" \/ ProgressUpdate.Type_ ev = "complete".

Definition events_inv (s : Session.t) : Prop :=
  match Session.collector s with
  | CDone =>
      exists evs ev, Session.events s = (evs ++ [ev])%list /\
                     Forall is_progress evs /\ is_terminal ev
  | _ => Forall is_progress (Session.events s)
  end.

(** ** The nearest-rank percentile of the specification

    The specification's words, in exact arithmetic:
    [index = round(p/100 * (n-1))], clamped to [[0, n-1]], and 0 for an
    empty collection. The percentile [p] is an integer percentage. *)

(** [round(num / den)] for [den > 0], halves rounded up. *)
Definition round_half_up (num den : Z) : Z := (2 * num + den) / (2 * den).

Definition spec_index (n p : Z) : Z :=
  Z.max 0 (Z.min (n - 1) (round_half_up (p * (n - 1)) 100)).

Definition spec_percentile (sortedValues : list Z) (p : Z) : Z :=
  match sortedValues with
  | [] => 0
  | _ => nth (Z.to_nat (spec_index (len sortedValues) p)) sortedValues 0
  end.

(** The float computation agrees with the exact rounding for the
    percentile [k] on every length from [n] up, [count] lengths in all. *)
Fixpoint index_agrees (k : Z) (count : nat) (n : Z) : bool :=
  match count with
  | O => true
  | S count' =>
      match roundedIndex0 n (Float64.of_int k) with
      | Some i => (i =? round_half_up (k * (n - 1)) 100) && index_agrees k count' (n + 1)
      | None => false
      end
  end.

(** ** Values of binary64 computations

    The definitions used to reason about [Float64]: the exact rounding
    function of the format on integers scaled by [2 ^ 1074], and the
    intermediate results of [binary_round_aux]. *)

(** Round to nearest, ties to even, of [m / 2^n] for [n >= 0]. *)
Definition rne (m n : Z) : Z :=
  if n <=? 0 then m
  else
    let q := m / 2 ^ n in
    let r := m mod 2 ^ n in
    let h := 2 ^ (n - 1) in
    if r <? h then q
    else if h <? r then q + 1
    else if Z.even q then q else q + 1.

Definition shr_state (m : Z) (r s : bool) (k : nat) : shr_record :=
  match k with
  | O => Build_shr_record m r s
  | S k' =>
      Build_shr_record (m / 2 ^ Z.of_nat k) (Z.odd (m / 2 ^ Z.of_nat k'))
        (negb (m mod 2 ^ Z.of_nat k' =? 0) || (r || s))
  end.

Abbreviation fexp64 := (fexp Float64.prec Float64.emax).

Definition shifted_m (m n : Z) : Z := if 0 <? n then m / 2 ^ n else m.
Definition shifted_e (e n : Z) : Z := if 0 <? n then e + n else e.

Definition pack (s : bool) (m e : Z) : spec_float :=
  match m with
  | Z0 => S754_zero s
  | Zpos p =>
      if e <=? Float64.emax - Float64.prec then S754_finite s p e else S754_infinity s
  | Zneg _ => S754_nan
  end.

(** Floats that are zero or finite of sign [s], below [2 ^ B] in magnitude. *)
Definition fin_below (s : bool) (B : Z) (f : spec_float) : Prop :=
  match f with
  | S754_zero _ => True
  | S754_finite s' p e =>
      s' = s /\ Z.max (Zdigits2 (Z.pos p) + e - 53) (-1074) <= e /\ Zdigits2 (Z.pos p) + e <= B
  | _ => False
  end.

(** The value of a non-negative finite float, in units of [2 ^ -1074]. *)
Definition fval (f : spec_float) : Z :=
  match f with
  | S754_finite _ p e => Z.pos p * 2 ^ (e + 1074)
  | _ => 0
  end.

(** The value to which [m * 2 ^ e] rounds (when the result is finite). *)
Definition rnd_val (m e : Z) : Z :=
  let E := fexp64 (Zdigits2 m + e) in
  if E <=? e then m * 2 ^ (e + 1074) else rne m (E - e) * 2 ^ (E + 1074).

(** The rounded index as a function of the value [c] of
    [percentile / 100.0] (in units of [2 ^ -1074]) and of the length. *)
Definition idx_val (c n : Z) : Z :=
  rnd_val (rnd_val (c * ((n - 1) * 2 ^ 1074)) (-2148) + 2 ^ 1073) (-1074) / 2 ^ 1074.

(** * The rest of the backend *)

(** ** Notions used in the statements about statistics *)

(** The tests of the counting loops: a 2xx status; a status from 400 or
    a recorded error. *)
Definition is_success (req : RequestResult.t) : bool :=
  (200 <=? RequestResult.Status req) && (RequestResult.Status req <? 300).

Definition is_error (req : RequestResult.t) : bool :=
  (400 <=? RequestResult.Status req)
  || negb (String.eqb (RequestResult.Error req) EmptyString).

(** The number of outcomes that pass a test. *)
Definition count_if (f : RequestResult.t -> bool) (requests : list RequestResult.t) : Z :=
  len (List.filter f requests).

(** An outcome is classified as [sendRequest] classifies: its blocked flag
    is the test on its status. *)
Definition classified (x : RequestResult.t) : Prop :=
  RequestResult.WasBlocked x = is_blocked_status (RequestResult.Status x).

(** ** Notions used in the statements about attack requests *)

(** The user agents from which [GetRandomUserAgent] and
    [GetLegitimateUserAgent] draw: the loaded pool, or the built-in
    fallback when the pool is empty. *)
Definition scanner_agents (pools : AttackPayloads.t) : list string :=
  match AttackPayloads.ScannerUserAgents pools with
  | [] => ["sqlmap/1.0"; "Nikto/2.1.6"; "nmap-scripting-engine"]
  | agents => agents
  end.

Definition legitimate_agents (pools : AttackPayloads.t) : list string :=
  match AttackPayloads.LegitimateUserAgents pools with
  | [] => ["Mozilla/5.0 (Windows NT 10.0; Win64; x64) AppleWebKit/537.36 (KHTML, like Gecko) Chrome/131.0.0.0 Safari/537.36"]
  | agents => agents
  end.

(** The four attack types and the payload pool of each. *)
Definition attack_types : list string := ["sql"; "xss"; "traversal"; "command"].

Definition payload_pools (pools : AttackPayloads.t) : list (string * list string) :=
  [("sql", AttackPayloads.SQLInjection pools);
   ("xss", AttackPayloads.XSS pools);
   ("traversal", AttackPayloads.PathTraversal pools);
   ("command", AttackPayloads.CommandInjection pools)].

(** The path that [Generate404URL] appends at time [now] with the
    generator [g]. *)
Definition nonexistent_path (now : Z) (g : rng) : string :=
  "/nonexistent-path-" +:+ fmt_d now +:+ "-" +:+ fmt_d (fst (rand_Intn 999999 g)).

(** ** Notions used in the statements about streaming sessions *)

(** The synchronous loop after [k] requests, started with the generator
    [g], and the outcomes it has collected: the reference to which the
    streaming session is compared. *)
Definition sync_state (w : World.t) (pools : AttackPayloads.t) (config : TestConfig.t)
    (g : rng) (k : Z) : RunLoop.t :=
  runLoop w pools config (Z.to_nat k) 1 (RunLoop.mk [] false 0 g).

Definition sync_outcomes (w : World.t) (pools : AttackPayloads.t) (config : TestConfig.t)
    (g : rng) (k : Z) : list RequestResult.t :=
  RunLoop.Requests (sync_state w pools config g k).

(** What every event of a session satisfies, cancelled or not. *)
Definition event_inv (w : World.t) (pools : AttackPayloads.t) (config : TestConfig.t)
    (g : rng) (ev : ProgressUpdate.t) : Prop :=
  let N := TestConfig.TotalRequests config in
  ProgressUpdate.TestID ev = test_id (World.clock w 0) /\
  ProgressUpdate.Total ev = N /\
  0 <= ProgressUpdate.Completed ev <= N /\
  (ProgressUpdate.Type_ ev = "progress" ->
   ProgressUpdate.Percentage ev = ProgressUpdate.Completed ev * 100 / N /\
   ProgressUpdate.FinalResult ev = None) /\
  (ProgressUpdate.Type_ ev = "cancelled" -> ProgressUpdate.FinalResult ev = None) /\
  (ProgressUpdate.Type_ ev = "complete" ->
   exists r now,
     ProgressUpdate.FinalResult ev = Some r /\
     buildFinalResult (test_id (World.clock w 0)) (TestResult.Requests r)
       (World.clock w 0) now = Returns r /\
     TestResult.Requests r `prefix_of` sync_outcomes w pools config g N).

(** The invariant of all sessions; [k] is the number of results that the
    sender has put on the channel. *)
Definition session_inv (w : World.t) (pools : AttackPayloads.t) (config : TestConfig.t)
    (g : rng) (s : Session.t) : Prop :=
  let N := TestConfig.TotalRequests config in
  exists k,
    0 <= k <= N /\
    (Session.allRequests s ++ Session.resultsChan s)%list = sync_outcomes w pools config g k /\
    len (Session.resultsChan s) <= resultsChan_capacity /\
    Session.completedCount s = len (Session.allRequests s) /\
    match Session.sender s with
    | SCheck i =>
        i = k + 1 /\ Session.gen s = RunLoop.gen (sync_state w pools config g k) /\
        Session.resultsChan_closed s = false
    | SEnqueue i r =>
        i = k + 1 /\ i <= N /\
        sendRequest w pools i config (RunLoop.gen (sync_state w pools config g k))
        = (r, Session.gen s) /\
        Session.resultsChan_closed s = false
    | SWait i =>
        i = k /\ i < N /\ Session.gen s = RunLoop.gen (sync_state w pools config g k) /\
        Session.resultsChan_closed s = false
    | SDone =>
        Session.resultsChan_closed s = true /\ (Session.cancelled s = true \/ k = N)
    end /\
    match Session.collector s with
    | CRecv => len (Session.allRequests s) < N
    | CProcess => 1 <= len (Session.allRequests s)
    | CFinish | CDone => Session.cancelled s = true \/ len (Session.allRequests s) = N
    | CPanicked => False
    end /\
    Forall (event_inv w pools config g) (Session.events s).

(** The goroutine steps of a schedule: its actions other than
    cancellations. *)
Definition goroutine_steps (schedule : list action) : nat :=
  length (List.filter (fun a => match a with ACancel => false | _ => true end) schedule).

(** A world for examples in which no request can be created. *)
Definition failing_world : World.t :=
  World.mk (fun _ => NewRequestError "refused") (fun i => i) (fun _ => EmptyString).

(** Goroutine steps left to a session once it is cancelled. *)
Definition cancelled_measure (s : Session.t) : nat :=
  (match Session.sender s with
   | SCheck _ => 1
   | SEnqueue _ _ => 3
   | SWait _ => 2
   | SDone => 0
   end
   + match Session.collector s with
     | CRecv => 2
     | CProcess | CFinish => 1
     | CDone | CPanicked => 0
     end)%nat.

(** Outcomes that the collector of a cancelled session can still take. *)
Definition cancelled_intake (s : Session.t) : Z :=
  len (Session.allRequests s)
  + match Session.collector s with CRecv => 1 | _ => 0 end.

(** Projections and jumps of a session, unfolded together. *)
Ltac session_fields :=
  cbn [Session.cancelled Session.sender Session.gen Session.resultsChan
       Session.resultsChan_closed Session.collector Session.allRequests
       Session.batchRequests Session.completedCount Session.events
       sender_goto sender_return collector_goto cancel] in *.

(** ** The session registry and the other handlers (handlers.go) *)

(** [TestSession]; [CancelFunc] is the identity of the context that the
    function cancels. The progress channel is left out. *)
Module TestSession.
Record t : Type := mk {
  TestID : string;
  Config : TestConfig.t;
  CancelFunc : nat;
  StartTime : Z
}.
End TestSession.

(** The global [activeSessions], passed explicitly; the mutex serialises
    the three operations. *)
Definition registerSession (session : TestSession.t)
    (activeSessions : gmap string TestSession.t) : gmap string TestSession.t :=
  <[TestSession.TestID session := session]> activeSessions.

Definition unregisterSession (testID : string)
    (activeSessions : gmap string TestSession.t) : gmap string TestSession.t :=
  delete testID activeSessions.

Definition getSession (testID : string)
    (activeSessions : gmap string TestSession.t) : option TestSession.t :=
  activeSessions !! testID.

Inductive stop_response : Type :=
| StopError (status : Z) (message : string)
| StopPreflight
    (* 200 with an empty body, for an OPTIONS request *)
| StopCancelled (cancelled : nat) (test_id : string).
    (* the session's CancelFunc was called; 200 with the status "cancelled" *)

(** [handleStopTest] on a request with the given method whose body decodes
    to [decoded] ([inl]: the decoder's error; [inr]: the field [test_id]). *)
Definition handleStopTest (method : string) (decoded : string + string)
    (activeSessions : gmap string TestSession.t) : stop_response :=
  if negb (String.eqb method "POST") then StopError 405 "Method not allowed. Use POST."
  else if String.eqb method "OPTIONS" then StopPreflight
  else
    match decoded with
    | inl err => StopError 400 ("Invalid JSON: " +:+ err)
    | inr testID =>
        match getSession testID activeSessions with
        | None => StopError 404 "Test not found or already completed"
        | Some session => StopCancelled (TestSession.CancelFunc session) testID
        end
    end.

Inductive start_response : Type :=
| StartError (status : Z) (message : string)
| StartPreflight
| StartResult (result : TestResult.t)
    (* 200 with the result as JSON *)
| StartPanic.
    (* RunTest panicked in the handler *)

(** [handleStartTest]; [encodeFails] tells whether writing the JSON
    response fails. *)
Definition handleStartTest (w : World.t) (pools : AttackPayloads.t) (g : rng)
    (method : string) (decoded : string + TestConfig.t) (encodeFails : bool)
  : start_response :=
  if negb (String.eqb method "POST") then StartError 405 "Method not allowed. Use POST."
  else if String.eqb method "OPTIONS" then StartPreflight
  else
    match decoded with
    | inl err => StartError 400 ("Invalid JSON: " +:+ err)
    | inr config =>
        match validateConfig config with
        | inl message => StartError 400 message
        | inr config =>
            match RunTest w pools config g with
            | Returns result =>
                if encodeFails then StartError 500 "Failed to encode response"
                else StartResult result
            | _ => StartPanic
            end
        end
    end.

(** ** Export (export.go) *)

(** What the operating system and the libraries answer during one export:
    the errors of [os.MkdirAll], [json.MarshalIndent], [os.WriteFile] and
    [os.Create] (if any), the formatted time stamp, and [filepath.Join]. *)
Module ExportEnv.
Record t : Type := mk {
  os_MkdirAll : option string;
  timestamp : string;
  json_MarshalIndent : option string;
  os_WriteFile : option string;
  os_Create : option string;
  filepath_Join : string -> string -> string
}.
End ExportEnv.

(** The error that [exportJSON] returns, if any. *)
Definition exportJSON (env : ExportEnv.t) (dir filename : string)
    (config : TestConfig.t) (result : TestResult.t) : option string :=
  match ExportEnv.json_MarshalIndent env with
  | Some err => Some ("failed to marshal JSON: " +:+ err)
  | None =>
      match ExportEnv.os_WriteFile env with
      | Some err => Some ("failed to write JSON file: " +:+ err)
      | None => None
      end
  end.

(** What [strconv.FormatBool] and [strconv.Itoa] print. *)
Definition strconv_FormatBool (b : bool) : string := if b then "true" else "false".
Definition strconv_Itoa (i : Z) : string := fmt_d i.

(** The texts that [exportCSV] formats from floating-point fields and time
    stamps: the duration, the success rate, the request rate, and the time
    stamp of a request. *)
Module CsvEnv.
Record t : Type := mk {
  fmt_Duration : string;
  fmt_SuccessRate : string;
  fmt_RequestsPerSec : string;
  time_Format : Z -> string
}.
End CsvEnv.

(** The header row of the request table and the row of one request. *)
Definition csv_headerRow (config : TestConfig.t) : list string :=
  ["Request ID"; "Timestamp"; "Status Code"; "Status Text"; "Response Time (ms)";
   "Was Blocked"; "URL"; "Method"; "User-Agent"; "Error"]
  ++ (if String.eqb (TestConfig.TrafficType config) "attack" then ["Attack Info"] else []).

Definition csv_row (fmt : CsvEnv.t) (config : TestConfig.t) (req : RequestResult.t)
  : list string :=
  [strconv_Itoa (RequestResult.ID req);
   CsvEnv.time_Format fmt (RequestResult.Timestamp req);
   strconv_Itoa (RequestResult.Status req);
   RequestResult.StatusText req;
   strconv_Itoa (RequestResult.ResponseTime req);
   strconv_FormatBool (RequestResult.WasBlocked req);
   RequestResult.URL req;
   RequestResult.Method req;
   default EmptyString (RequestResult.RequestHeaders req !! "User-Agent");
   RequestResult.Error req]
  ++ (if String.eqb (TestConfig.TrafficType config) "attack"
      then [RequestResult.AttackInfo req] else []).

(** The records that [exportCSV] writes, in order, once the file is
    created. *)
Definition exportCSV_rows (fmt : CsvEnv.t) (config : TestConfig.t) (result : TestResult.t)
  : list (list string) :=
  [["TEST SUMMARY"];
   ["Test ID"; TestResult.TestID result];
   ["Target URL"; TestConfig.TargetURL config];
   ["Total Requests"; strconv_Itoa (TestResult.TotalRequests result)];
   ["Duration (seconds)"; CsvEnv.fmt_Duration fmt];
   ["Traffic Type"; TestConfig.TrafficType config];
   ["Test Mode"; TestConfig.TestMode config];
   ["HTTP Method"; TestConfig.HTTPMethod config];
   ["Error Mode"; strconv_FormatBool (TestConfig.ErrorMode config)];
   ["User Agent Type"; TestConfig.UserAgentType config]]
  ++ (if negb (String.eqb (TestConfig.CustomUserAgent config) EmptyString)
      then [["Custom User Agent"; TestConfig.CustomUserAgent config]] else [])
  ++ [[];
      ["STATISTICS"];
      ["Success Count"; strconv_Itoa (TestResult.SuccessCount result)];
      ["Error Count"; strconv_Itoa (TestResult.ErrorCount result)];
      ["Blocked Count"; strconv_Itoa (TestResult.BlockedCount result)];
      ["Success Rate"; CsvEnv.fmt_SuccessRate fmt];
      ["Rate Limit Hit"; strconv_FormatBool (TestResult.RateLimitHit result)]]
  ++ (if TestResult.RateLimitHit result
      then [["Rate Limit At Request"; strconv_Itoa (TestResult.RateLimitAt result)]] else [])
  ++ [["Requests Per Second"; CsvEnv.fmt_RequestsPerSec fmt];
      [];
      ["RESPONSE TIMES (milliseconds)"];
      ["Average"; strconv_Itoa (TestResult.AvgResponse result)];
      ["Minimum"; strconv_Itoa (TestResult.MinResponse result)];
      ["Maximum"; strconv_Itoa (TestResult.MaxResponse result)];
      ["p50 (Median)"; strconv_Itoa (TestResult.P50Response result)];
      ["p95"; strconv_Itoa (TestResult.P95Response result)];
      ["p99"; strconv_Itoa (TestResult.P99Response result)];
      [];
      ["INDIVIDUAL REQUESTS"]]
  ++ [csv_headerRow config]
  ++ map (csv_row fmt config) (TestResult.Requests result).

(** [exportCSV]: the error that it returns, if any, and the records
    written. Only creating the file can fail; the errors of the writer are
    not looked at. *)
Definition exportCSV (env : ExportEnv.t) (fmt : CsvEnv.t) (dir filename : string)
    (config : TestConfig.t) (result : TestResult.t) : option string * list (list string) :=
  match ExportEnv.os_Create env with
  | Some err => (Some ("failed to create CSV file: " +:+ err), [])
  | None => (None, exportCSV_rows fmt config result)
  end.

(** [ExportResults]: the error ([inl]) or the path of the file ([inr]). *)
Definition ExportResults (env : ExportEnv.t) (fmt : CsvEnv.t)
    (config : TestConfig.t) (result : TestResult.t) (format : string) : string + string :=
  let exportsDir := "../exports" in
  match ExportEnv.os_MkdirAll env with
  | Some err => inl ("failed to create exports directory: " +:+ err)
  | None =>
      let written (filename : string) (err : option string) : string + string :=
        match err with
        | Some err => inl err
        | None => inr (ExportEnv.filepath_Join env exportsDir filename)
        end in
      if String.eqb format "json" then
        let filename := "test_" +:+ ExportEnv.timestamp env +:+ ".json" in
        written filename (exportJSON env exportsDir filename config result)
      else if String.eqb format "csv" then
        let filename := "test_" +:+ ExportEnv.timestamp env +:+ ".csv" in
        written filename (fst (exportCSV env fmt exportsDir filename config result))
      else inl ("unsupported format: " +:+ format +:+ " (use 'json' or 'csv')")
  end.

Inductive export_response : Type :=
| ExportError (status : Z) (message : string)
| ExportPreflight
| ExportSuccess (filename message : string).

(** [handleExport] on a request whose body decodes to [decoded]: the
    decoder's error, or the configuration, the results and the format. *)
Definition handleExport (env : ExportEnv.t) (fmt : CsvEnv.t) (method : string)
    (decoded : string + TestConfig.t * TestResult.t * string) : export_response :=
  if negb (String.eqb method "POST") then ExportError 405 "Method not allowed. Use POST."
  else if String.eqb method "OPTIONS" then ExportPreflight
  else
    match decoded with
    | inl err => ExportError 400 ("Invalid JSON: " +:+ err)
    | inr (config, results, format) =>
        if negb (String.eqb format "json") && negb (String.eqb format "csv")
        then ExportError 400 "format must be 'json' or 'csv'"
        else
          match ExportResults env fmt config results format with
          | inl err => ExportError 500 ("Export failed: " +:+ err)
          | inr filename =>
              ExportSuccess filename ("Results exported to " +:+ filename)
          end
    end.

(** ** Loading the payload files (attacks.go) *)

Definition strings_HasPrefix (s prefix : string) : bool := String.prefix prefix s.

Section Payloads.

(** The embedded file system ([None]: the file cannot be read), the tokens
    that [bufio.Scanner] yields for the content of a file, and
    [strings.TrimSpace]. *)
Variable payloadsFS_ReadFile : string -> option string.
Variable scanner_lines : string -> list string.
Variable strings_TrimSpace : string -> string.

(** [loadPayloadFile]: [None] for the error of [ReadFile]. *)
Definition loadPayloadFile (filename : string) : option (list string) :=
  match payloadsFS_ReadFile filename with
  | None => None
  | Some data =>
      Some (fold_left
              (fun (payloads : list string) (text : string) =>
                 let line := strings_TrimSpace text in
                 if String.eqb line EmptyString then payloads
                 else if strings_HasPrefix line "#" then payloads
                 else (payloads ++ [line])%list)
              (scanner_lines data) [])
  end.


End Payloads.


(** A payload as [loadPayloadFile] keeps it: not empty, not a comment. *)
Definition is_payload (line : string) : bool :=
  negb (String.eqb line EmptyString) && negb (strings_HasPrefix line "#").

(** * Properties *)

(** ** Binary64 arithmetic *)

Lemma digits2_pos_log2 p : Z.pos (digits2_pos p) = Z.log2 (Z.pos p) + 1.
Proof.
  induction p as [p IH|p IH|]; cbn [digits2_pos].
  - rewrite Pos2Z.inj_succ, IH. rewrite (Pos2Z.inj_xI p).
    rewrite Z.log2_succ_double by lia. lia.
  - rewrite Pos2Z.inj_succ, IH. rewrite (Pos2Z.inj_xO p).
    rewrite Z.log2_double by lia. lia.
  - reflexivity.
Qed.

Lemma Zdigits2_log2 m : 0 < m -> Zdigits2 m = Z.log2 m + 1.
Proof. destruct m; try lia. intros _. apply digits2_pos_log2. Qed.

Lemma Zdigits2_nonneg m : 0 <= Zdigits2 m.
Proof. destruct m; cbn; lia. Qed.

Lemma Zdigits2_bounds m : 0 < m -> 2 ^ (Zdigits2 m - 1) <= m < 2 ^ Zdigits2 m.
Proof.
  intros H. rewrite Zdigits2_log2 by lia.
  replace (Z.log2 m + 1 - 1) with (Z.log2 m) by lia.
  replace (Z.log2 m + 1) with (Z.succ (Z.log2 m)) by lia.
  apply Z.log2_spec. lia.
Qed.

Lemma Zdigits2_unique m d : 0 < m -> 2 ^ (d - 1) <= m < 2 ^ d -> Zdigits2 m = d.
Proof.
  intros Hm [H1 H2]. rewrite Zdigits2_log2 by lia.
  assert (0 < d). { destruct (Z_lt_le_dec 0 d); auto. rewrite Z.pow_neg_r in H1 by lia.
    assert (2 ^ d <= 1). { destruct (Z.eq_dec d 0); [subst; simpl; lia|]. rewrite Z.pow_neg_r by lia. lia. } lia. }
  assert (Z.log2 m = d - 1); [|lia].
  apply Z.log2_unique; [lia|]. replace (Z.succ (d - 1)) with d by lia. lia.
Qed.

Lemma Zdigits2_le m1 m2 : 0 <= m1 <= m2 -> Zdigits2 m1 <= Zdigits2 m2.
Proof.
  intros [H1 H2]. destruct (Z.eq_dec m1 0) as [->|]; [apply Zdigits2_nonneg|].
  rewrite !Zdigits2_log2 by lia. pose proof (Z.log2_le_mono m1 m2 H2). lia.
Qed.

Lemma Zdigits2_lt_pow m d : 0 <= m -> 0 <= d -> m < 2 ^ d -> Zdigits2 m <= d.
Proof.
  intros Hm Hd H. destruct (Z.eq_dec m 0) as [->|]; [cbn; lia|].
  destruct (Z_le_gt_dec (Zdigits2 m) d); auto.
  pose proof (Zdigits2_bounds m ltac:(lia)) as [Hb _].
  assert (2 ^ d <= 2 ^ (Zdigits2 m - 1)) by (apply Z.pow_le_mono_r; lia). lia.
Qed.

Lemma Zdigits2_mul_pow2 m k : 0 < m -> 0 <= k -> Zdigits2 (m * 2 ^ k) = Zdigits2 m + k.
Proof.
  intros Hm Hk. apply Zdigits2_unique; [apply Z.mul_pos_pos; lia|].
  pose proof (Zdigits2_bounds m Hm) as [H1 H2].
  assert (0 < Zdigits2 m). { rewrite Zdigits2_log2 by lia. pose proof (Z.log2_nonneg m). lia. }
  replace (Zdigits2 m + k - 1) with ((Zdigits2 m - 1) + k) by lia.
  rewrite !Z.pow_add_r by lia. split.
  - apply Z.mul_le_mono_nonneg_r; lia.
  - apply Z.mul_lt_mono_pos_r; lia.
Qed.

Lemma Zdigits2_div_pow2 m k : 0 < m -> 0 <= k -> k < Zdigits2 m ->
  Zdigits2 (m / 2 ^ k) = Zdigits2 m - k.
Proof.
  intros Hm Hk Hlt. pose proof (Zdigits2_bounds m Hm) as [H1 H2].
  assert (2 ^ (Zdigits2 m - 1 - k) <= m / 2 ^ k).
  { apply Z.div_le_lower_bound; [lia|]. rewrite <- Z.pow_add_r by lia.
    replace (k + (Zdigits2 m - 1 - k)) with (Zdigits2 m - 1) by lia. lia. }
  assert (m / 2 ^ k < 2 ^ (Zdigits2 m - k)).
  { apply Z.div_lt_upper_bound; [lia|]. rewrite <- Z.pow_add_r by lia.
    replace (k + (Zdigits2 m - k)) with (Zdigits2 m) by lia. lia. }
  apply Zdigits2_unique.
  - assert (0 < 2 ^ (Zdigits2 m - 1 - k)) by (apply Z.pow_pos_nonneg; lia). lia.
  - replace (Zdigits2 m - k - 1) with (Zdigits2 m - 1 - k) by lia. lia.
Qed.

Lemma pow2_pos k : 0 < 2 ^ k \/ (k < 0 /\ 2 ^ k = 0).
Proof.
  destruct (Z_lt_le_dec k 0); [right; split; [lia|apply Z.pow_neg_r; lia]|left; apply Z.pow_pos_nonneg; lia].
Qed.

Lemma pow2_split n : 0 < n -> 2 ^ n = 2 * 2 ^ (n - 1) /\ 0 < 2 ^ (n - 1).
Proof.
  intros H. split; [|apply Z.pow_pos_nonneg; lia].
  replace n with (1 + (n - 1)) at 1 by lia. rewrite Z.pow_add_r by lia. reflexivity.
Qed.

Lemma rne_cases m n : 0 < n ->
  let q := m / 2 ^ n in let r := m mod 2 ^ n in let h := 2 ^ (n - 1) in
  m = q * (2 * h) + r /\ 0 <= r < 2 * h /\ 0 < h /\
  ((r < h /\ rne m n = q) \/ (h < r /\ rne m n = q + 1) \/
   (r = h /\ rne m n = if Z.even q then q else q + 1)).
Proof.
  intros Hn q r h. destruct (pow2_split n Hn) as [E Hh]. fold h in E, Hh.
  assert (Hm : m = q * (2 * h) + r).
  { unfold q, r. rewrite <- E. rewrite Z.mul_comm. apply Z.div_mod. lia. }
  assert (Hr : 0 <= r < 2 * h). { unfold r. rewrite <- E. apply Z.mod_pos_bound. lia. }
  repeat split; try lia.
  unfold rne. destruct (Z.leb_spec n 0); [lia|]. fold q r h.
  destruct (Z.ltb_spec r h); [left; auto|].
  destruct (Z.ltb_spec h r); [right; left; auto|].
  right; right. split; [lia|reflexivity].
Qed.

Lemma rne_bounds m n : 0 < n -> m / 2 ^ n <= rne m n <= m / 2 ^ n + 1.
Proof.
  intros Hn. destruct (rne_cases m n Hn) as (_ & _ & _ & [[_ ->]|[[_ ->]|[_ ->]]]);
    try destruct (Z.even _); lia.
Qed.

Lemma rne_exact q n : 0 <= n -> rne (q * 2 ^ n) n = q.
Proof.
  intros Hn. destruct (Z.eq_dec n 0) as [->|]; [unfold rne; simpl; lia|].
  destruct (rne_cases (q * 2 ^ n) n ltac:(lia)) as (_ & _ & Hh & H).
  assert (Hq : q * 2 ^ n / 2 ^ n = q) by (apply Z.div_mul; lia).
  assert (Hr : (q * 2 ^ n) mod 2 ^ n = 0) by (apply Z.mod_mul; lia).
  rewrite Hq, Hr in H. destruct H as [[_ ->]|[[? _]|[? _]]]; lia.
Qed.

Lemma rne_mono m1 m2 n : m1 <= m2 -> rne m1 n <= rne m2 n.
Proof.
  intros Hle. destruct (Z_le_gt_dec n 0) as [H0|H0].
  { unfold rne. destruct (Z.leb_spec n 0); lia. }
  destruct (rne_cases m1 n ltac:(lia)) as (E1 & R1 & Hh & C1).
  destruct (rne_cases m2 n ltac:(lia)) as (E2 & R2 & _ & C2).
  set (q1 := m1 / 2 ^ n) in *. set (q2 := m2 / 2 ^ n) in *.
  set (r1 := m1 mod 2 ^ n) in *. set (r2 := m2 mod 2 ^ n) in *.
  set (h := 2 ^ (n - 1)) in *.
  assert (q1 <= q2) by nia.
  destruct (Z.eq_dec q1 q2) as [Heq|Hne].
  - assert (r1 <= r2) by nia. rewrite <- Heq in C2.
    destruct C1 as [[? ->]|[[? ->]|[? ->]]], C2 as [[? ->]|[[? ->]|[? ->]]];
      try destruct (Z.even q1); lia.
  - assert (rne m1 n <= q1 + 1).
    { destruct C1 as [[? ->]|[[? ->]|[? ->]]]; try destruct (Z.even q1); lia. }
    assert (q2 <= rne m2 n).
    { destruct C2 as [[? ->]|[[? ->]|[? ->]]]; try destruct (Z.even q2); lia. }
    lia.
Qed.

Lemma rne_scale m n k : 0 < n -> 0 <= k -> rne (m * 2 ^ k) (n + k) = rne m n.
Proof.
  intros Hn Hk. unfold rne.
  destruct (Z.leb_spec (n + k) 0); [lia|]. destruct (Z.leb_spec n 0); [lia|].
  assert (Hq : m * 2 ^ k / 2 ^ (n + k) = m / 2 ^ n).
  { rewrite Z.pow_add_r by lia.
    rewrite Z.div_mul_cancel_r; [reflexivity|apply Z.pow_nonzero; lia|apply Z.pow_nonzero; lia]. }
  assert (Hr : (m * 2 ^ k) mod 2 ^ (n + k) = (m mod 2 ^ n) * 2 ^ k).
  { rewrite Z.pow_add_r by lia.
    rewrite Z.mul_mod_distr_r; [reflexivity|apply Z.pow_nonzero; lia|apply Z.pow_nonzero; lia]. }
  assert (Hh : 2 ^ (n + k - 1) = 2 ^ (n - 1) * 2 ^ k).
  { rewrite <- Z.pow_add_r by lia. f_equal. lia. }
  rewrite Hq, Hr, Hh.
  assert (0 < 2 ^ k) by (apply Z.pow_pos_nonneg; lia).
  destruct (Z.ltb_spec (m mod 2 ^ n * 2 ^ k) (2 ^ (n - 1) * 2 ^ k)),
           (Z.ltb_spec (m mod 2 ^ n) (2 ^ (n - 1))); try nia; try reflexivity.
  destruct (Z.ltb_spec (2 ^ (n - 1) * 2 ^ k) (m mod 2 ^ n * 2 ^ k)),
           (Z.ltb_spec (2 ^ (n - 1)) (m mod 2 ^ n)); try nia; reflexivity.
Qed.

Lemma rne_le m n c : 0 <= n -> m <= c * 2 ^ n -> rne m n <= c.
Proof. intros Hn H. rewrite <- (rne_exact c n Hn). now apply rne_mono. Qed.

Lemma rne_ge m n c : 0 <= n -> c * 2 ^ n <= m -> c <= rne m n.
Proof. intros Hn H. rewrite <- (rne_exact c n Hn). now apply rne_mono. Qed.

Lemma rne_nonneg m n : 0 <= m -> 0 <= rne m n.
Proof.
  intros Hm. destruct (Z_le_gt_dec n 0).
  - unfold rne. destruct (Z.leb_spec n 0); lia.
  - apply (rne_ge m n 0); lia.
Qed.

(** *** Right shifts with round and sticky bits *)

Lemma iter_pos_nat {A} (f : A -> A) p x : SpecFloat.iter_pos f p x = Nat.iter (Pos.to_nat p) f x.
Proof.
  revert x. induction p as [p IH|p IH|]; intros x; cbn [SpecFloat.iter_pos].
  - rewrite !IH. rewrite Pos2Nat.inj_xI.
    replace (S (2 * Pos.to_nat p)) with (Pos.to_nat p + (Pos.to_nat p + 1))%nat by lia.
    rewrite !Nat.iter_add. reflexivity.
  - rewrite !IH. rewrite Pos2Nat.inj_xO.
    replace (2 * Pos.to_nat p)%nat with (Pos.to_nat p + Pos.to_nat p)%nat by lia.
    rewrite Nat.iter_add. reflexivity.
  - reflexivity.
Qed.

Lemma shr_1_nonneg m r s : 0 <= m ->
  shr_1 (Build_shr_record m r s) = Build_shr_record (m / 2) (Z.odd m) (r || s).
Proof.
  intros Hm. rewrite <- Z.div2_div.
  destruct m as [|p|p]; [reflexivity| |lia]. destruct p; reflexivity.
Qed.

Lemma mod_pow2_succ m k : 0 <= k ->
  m mod 2 ^ (k + 1) = m mod 2 ^ k + 2 ^ k * ((m / 2 ^ k) mod 2).
Proof.
  intros Hk. rewrite Z.pow_add_r by lia. change (2 ^ 1) with 2.
  apply Z.rem_mul_r; [apply Z.pow_nonzero; lia|lia].
Qed.

Lemma odd_mod2 a : Z.odd a = negb (a mod 2 =? 0).
Proof.
  rewrite Zmod_odd. destruct (Z.odd a); reflexivity.
Qed.

Lemma iter_shr_1 m r s k : 0 <= m ->
  Nat.iter k shr_1 (Build_shr_record m r s) = shr_state m r s k.
Proof.
  intros Hm. induction k as [|k IH]; [reflexivity|].
  rewrite Nat.iter_succ, IH. destruct k as [|k].
  - cbn [shr_state]. rewrite shr_1_nonneg by lia.
    change (Z.of_nat 1) with 1. change (Z.of_nat 0) with 0.
    rewrite Z.pow_1_r, Z.pow_0_r, Z.div_1_r, Z.mod_1_r. reflexivity.
  - cbn [shr_state].
    assert (0 < 2 ^ Z.of_nat (S k)) by (apply Z.pow_pos_nonneg; lia).
    rewrite shr_1_nonneg by (apply Z.div_pos; lia). f_equal.
    + rewrite Z.div_div by lia. f_equal.
      rewrite (Nat2Z.inj_succ (S k)). rewrite Z.pow_succ_r by lia. lia.
    + rewrite (Nat2Z.inj_succ k). unfold Z.succ.
      rewrite (mod_pow2_succ m (Z.of_nat k)) by lia.
      rewrite odd_mod2.
      pose proof (Z.mod_pos_bound m (2 ^ Z.of_nat k) ltac:(apply Z.pow_pos_nonneg; lia)).
      pose proof (Z.mod_pos_bound (m / 2 ^ Z.of_nat k) 2 ltac:(lia)).
      assert (0 < 2 ^ Z.of_nat k) by (apply Z.pow_pos_nonneg; lia).
      destruct (Z.eqb_spec ((m / 2 ^ Z.of_nat k) mod 2) 0) as [E|E];
        destruct (Z.eqb_spec (m mod 2 ^ Z.of_nat k) 0) as [E'|E'];
        destruct (Z.eqb_spec (m mod 2 ^ Z.of_nat k + 2 ^ Z.of_nat k * ((m / 2 ^ Z.of_nat k) mod 2)) 0) as [E''|E''];
        cbn; try reflexivity; try (destruct r, s; reflexivity); exfalso; nia.
Qed.

(** The mantissa, and the rounding of an exact value, after [shr]. *)
Lemma shr_mantissa m r s e n : 0 <= m ->
  shr_m (fst (shr (Build_shr_record m r s) e n)) = (if 0 <? n then m / 2 ^ n else m) /\
  snd (shr (Build_shr_record m r s) e n) = (if 0 <? n then e + n else e).
Proof.
  intros Hm. destruct n as [|p|p]; cbn [shr fst snd]; try (split; reflexivity).
  rewrite iter_pos_nat, iter_shr_1 by lia.
  destruct (Pos2Nat.is_succ p) as [k Hk]. rewrite Hk. cbn [shr_state shr_m].
  rewrite <- Hk, positive_nat_Z. split; reflexivity.
Qed.

Lemma shr_exact_rne m e n : 0 <= m ->
  let mrs := fst (shr (Build_shr_record m false false) e n) in
  round_nearest_even (shr_m mrs) (loc_of_shr_record mrs) = rne m n.
Proof.
  intros Hm. destruct n as [|p|p]; cbn [shr fst]; try reflexivity.
  rewrite iter_pos_nat, iter_shr_1 by lia.
  destruct (Pos2Nat.is_succ p) as [k Hk]. rewrite Hk. cbn [shr_state shr_m].
  assert (Hp : Z.pos p = Z.of_nat k + 1) by lia.
  replace (Z.of_nat (S k)) with (Z.pos p) by lia.
  destruct (rne_cases m (Z.pos p) ltac:(lia)) as (E & R & Hh & C).
  replace (Z.pos p - 1) with (Z.of_nat k) in * by lia.
  pose proof (mod_pow2_succ m (Z.of_nat k) ltac:(lia)) as D. rewrite <- Hp in D.
  pose proof (Z.mod_pos_bound m (2 ^ Z.of_nat k) ltac:(lia)) as B1.
  pose proof (Z.mod_pos_bound (m / 2 ^ Z.of_nat k) 2 ltac:(lia)) as B2.
  rewrite odd_mod2, orb_false_r.
  destruct (Z.eqb_spec ((m / 2 ^ Z.of_nat k) mod 2) 0) as [E1|E1];
    destruct (Z.eqb_spec (m mod 2 ^ Z.of_nat k) 0) as [E2|E2];
    cbn [negb orb loc_of_shr_record round_nearest_even shr_m shr_r shr_s];
    destruct C as [[? ->]|[[? ->]|[? ->]]]; try reflexivity; exfalso; nia.
Qed.

(** *** The two shifts of [binary_round_aux] *)

Lemma round_nearest_even_bounds m l : m <= round_nearest_even m l <= m + 1.
Proof. destruct l as [|[ | | ]]; cbn; try destruct (Z.even m); lia. Qed.

Lemma shr_record_of_loc_m m l : exists r s, shr_record_of_loc m l = Build_shr_record m r s.
Proof. destruct l as [|[ | | ]]; cbn; eauto. Qed.

Lemma bra_unfold s m e l : 0 <= m ->
  let n := fexp64 (Zdigits2 m + e) - e in
  let m1 := shifted_m m n in
  let e1 := shifted_e e n in
  exists m2, m1 <= m2 <= m1 + 1 /\ (l = loc_Exact -> m2 = rne m n) /\
    let n2 := fexp64 (Zdigits2 m2 + e1) - e1 in
    binary_round_aux Float64.prec Float64.emax s m e l
    = pack s (shifted_m m2 n2) (shifted_e e1 n2).
Proof.
  intros Hm n m1 e1. unfold binary_round_aux, shr_fexp. fold n.
  destruct (shr_record_of_loc_m m l) as (r0 & s0 & Hrec).
  pose proof (shr_mantissa m r0 s0 e n Hm) as [Hm1 He1].
  pose proof (fun H : l = loc_Exact => shr_exact_rne m e n Hm) as Hex.
  rewrite <- Hrec in Hm1, He1.
  destruct (shr (shr_record_of_loc m l) e n) as [mrs' e'] eqn:Hshr.
  cbn [fst snd] in Hm1, He1.
  set (m2 := round_nearest_even (shr_m mrs') (loc_of_shr_record mrs')).
  exists m2. fold (shifted_m m n) in Hm1. fold (shifted_e e n) in He1.
  fold m1 in Hm1. fold e1 in He1. subst e'.
  split; [|split].
  - unfold m2. rewrite <- Hm1. apply round_nearest_even_bounds.
  - intros ->. cbn [shr_record_of_loc] in Hshr. specialize (Hex eq_refl).
    cbn zeta in Hex. rewrite Hshr in Hex. exact Hex.
  - set (n2 := fexp64 (Zdigits2 m2 + e1) - e1).
    assert (Hm2 : 0 <= m2).
    { pose proof (round_nearest_even_bounds (shr_m mrs') (loc_of_shr_record mrs')).
      fold m2 in H. rewrite Hm1 in H. unfold m1, shifted_m in H.
      destruct (Z.ltb_spec 0 n); [|lia].
      assert (0 <= m / 2 ^ n) by (apply Z.div_pos; [lia|apply Z.pow_pos_nonneg; lia]). lia. }
    pose proof (shr_mantissa m2 false false e1 n2 Hm2) as [Hm3 He3].
    cbn [shr_record_of_loc]. fold n2.
    destruct (shr (Build_shr_record m2 false false) e1 n2) as [mrs'' e''].
    cbn [fst snd] in Hm3, He3. rewrite Hm3, He3. reflexivity.
Qed.

Lemma fexp64_eq x : fexp64 x = Z.max (x - 53) (-1074).
Proof. reflexivity. Qed.

Lemma Zdigits2_succ_le m : 0 <= m -> Zdigits2 (m + 1) <= Zdigits2 m + 1.
Proof.
  intros Hm. destruct (Z.eq_dec m 0) as [->|]; [vm_compute; discriminate|].
  pose proof (Zdigits2_bounds m ltac:(lia)) as [_ H].
  pose proof (Zdigits2_nonneg m).
  apply Zdigits2_lt_pow; [lia|lia|]. rewrite Z.pow_add_r by lia. lia.
Qed.

Lemma Zdigits2_shift m n : 0 <= m -> 0 < n ->
  Zdigits2 (m / 2 ^ n) = Z.max 0 (Zdigits2 m - n).
Proof.
  intros Hm Hn. destruct (Z.eq_dec m 0) as [->|].
  { rewrite Z.div_0_l by (apply Z.pow_nonzero; lia). cbn; lia. }
  destruct (Z_lt_le_dec n (Zdigits2 m)).
  - rewrite Zdigits2_div_pow2 by lia. lia.
  - pose proof (Zdigits2_bounds m ltac:(lia)) as [_ H].
    assert (2 ^ Zdigits2 m <= 2 ^ n) by (apply Z.pow_le_mono_r; lia).
    rewrite Z.div_small by lia. cbn; lia.
Qed.

(** What one canonizing shift does to a mantissa and its exponent. *)
Lemma shift_facts m e : 0 <= m ->
  let n := fexp64 (Zdigits2 m + e) - e in
  let m' := shifted_m m n in
  let e' := shifted_e e n in
  0 <= m' <= m /\ e' = Z.max e (fexp64 (Zdigits2 m + e)) /\
  (0 < m' -> Zdigits2 m' + e' = Zdigits2 m + e) /\ Zdigits2 m' <= 53.
Proof.
  intros Hm n m' e'. unfold m', e', shifted_m, shifted_e.
  pose proof (Zdigits2_nonneg m) as Hd.
  assert (Hn : n = Z.max (Zdigits2 m + e - 53) (-1074) - e) by (unfold n; rewrite fexp64_eq; lia).
  rewrite fexp64_eq. destruct (Z.ltb_spec 0 n) as [H|H].
  - pose proof (Zdigits2_shift m n Hm H) as Hs.
    assert (0 < 2 ^ n) by (apply Z.pow_pos_nonneg; lia).
    assert (0 <= m / 2 ^ n) by (apply Z.div_pos; lia).
    assert (m / 2 ^ n <= m) by (apply Z.div_le_upper_bound; nia).
    repeat split; try lia.
    intros Hpos. assert (0 < Zdigits2 (m / 2 ^ n)).
    { rewrite Zdigits2_log2 by lia. pose proof (Z.log2_nonneg (m / 2 ^ n)). lia. }
    lia.
  - repeat split; lia.
Qed.

Lemma bra_crude s m e l B : 0 <= m -> Zdigits2 m + e <= B -> e <= B -> -1074 <= B -> B <= 971 ->
  fin_below s (B + 1) (binary_round_aux Float64.prec Float64.emax s m e l).
Proof.
  intros Hm Hmag He HB1 HB2.
  destruct (bra_unfold s m e l Hm) as (m2 & Hm2 & _ & ->).
  destruct (shift_facts m e Hm) as (F1 & F2 & F3 & F4).
  set (n := fexp64 (Zdigits2 m + e) - e) in *.
  set (m1 := shifted_m m n) in *. set (e1 := shifted_e e n) in *.
  assert (Hm2' : 0 <= m2) by lia.
  destruct (shift_facts m2 e1 Hm2') as (G1 & G2 & G3 & G4).
  set (n2 := fexp64 (Zdigits2 m2 + e1) - e1) in *.
  set (m3 := shifted_m m2 n2) in *. set (e3 := shifted_e e1 n2) in *.
  rewrite fexp64_eq in F2, G2.
  assert (Hd2 : Zdigits2 m2 <= Zdigits2 m1 + 1).
  { destruct (Z.eq_dec m2 m1) as [->|]; [lia|]. replace m2 with (m1 + 1) by lia.
    apply Zdigits2_succ_le; lia. }
  assert (Hd1 : Zdigits2 m1 + e1 <= B).
  { destruct (Z.eq_dec m1 0) as [E|]; [rewrite E; cbn; lia|]. rewrite F3 by lia. lia. }
  pose proof (Zdigits2_nonneg m) as Hd.
  unfold pack. destruct m3 as [|p|p] eqn:E3; [exact I| |lia].
  assert (Hmag3 : Zdigits2 (Z.pos p) + e3 = Zdigits2 m2 + e1) by (apply G3; lia).
  assert (0 < Zdigits2 (Z.pos p)) by (cbn; lia).
  destruct (Z.leb_spec e3 (Float64.emax - Float64.prec)) as [L|L].
  - unfold fin_below. repeat split; lia.
  - unfold Float64.emax, Float64.prec in L. lia.
Qed.

Lemma rne_nonpos m n : n <= 0 -> rne m n = m.
Proof. intros H. unfold rne. destruct (Z.leb_spec n 0); [reflexivity|lia]. Qed.

Lemma Zdigits2_ge_pow m d : 0 <= m -> 0 <= d -> d < Zdigits2 m -> 2 ^ d <= m.
Proof.
  intros Hm Hd H. destruct (Z.eq_dec m 0) as [->|]; [cbn in H; lia|].
  pose proof (Zdigits2_bounds m ltac:(lia)) as [Hb _].
  assert (2 ^ d <= 2 ^ (Zdigits2 m - 1)) by (apply Z.pow_le_mono_r; lia). lia.
Qed.

Lemma Zdigits2_lt_pow' m d : 0 <= m -> Zdigits2 m <= d -> m < 2 ^ d.
Proof.
  intros Hm H. destruct (Z.eq_dec m 0) as [->|].
  { pose proof (Zdigits2_nonneg 0). apply Z.pow_pos_nonneg; cbn in *; lia. }
  pose proof (Zdigits2_bounds m ltac:(lia)) as [_ Hb].
  pose proof (Zdigits2_nonneg m).
  assert (2 ^ Zdigits2 m <= 2 ^ d) by (apply Z.pow_le_mono_r; lia). lia.
Qed.

Lemma bra_exact s m e B : 0 < m -> Zdigits2 m + e <= B -> -1074 <= B -> B <= 971 ->
  fin_below s (B + 1) (binary_round_aux Float64.prec Float64.emax s m e loc_Exact) /\
  fval (binary_round_aux Float64.prec Float64.emax s m e loc_Exact) = rnd_val m e.
Proof.
  intros Hm Hmag HB1 HB2.
  assert (0 < Zdigits2 m).
  { rewrite Zdigits2_log2 by lia. pose proof (Z.log2_nonneg m). lia. }
  pose proof (bra_crude s m e loc_Exact B ltac:(lia) Hmag ltac:(lia) HB1 HB2) as Hfin.
  split; [exact Hfin|].
  destruct (bra_unfold s m e loc_Exact ltac:(lia)) as (m2 & Hm2 & Hrne & Heq).
  specialize (Hrne eq_refl). rewrite Heq in Hfin |- *. clear Heq.
  destruct (shift_facts m e ltac:(lia)) as (F1 & F2 & F3 & F4).
  set (n := fexp64 (Zdigits2 m + e) - e) in *.
  set (m1 := shifted_m m n) in *. set (e1 := shifted_e e n) in *.
  assert (Hm2' : 0 <= m2) by lia.
  destruct (shift_facts m2 e1 Hm2') as (G1 & G2 & G3 & G4).
  set (n2 := fexp64 (Zdigits2 m2 + e1) - e1) in *.
  set (m3 := shifted_m m2 n2) in *. set (e3 := shifted_e e1 n2) in *.
  assert (Hval : fval (pack s m3 e3) = m3 * 2 ^ (e3 + 1074)).
  { unfold pack in *. destruct m3 as [|p|p]; [reflexivity| |lia].
    destruct (e3 <=? Float64.emax - Float64.prec); [reflexivity|destruct Hfin]. }
  rewrite Hval.
  assert (H23 : m3 * 2 ^ (e3 + 1074) = m2 * 2 ^ (e1 + 1074)).
  { unfold m3, e3, shifted_m, shifted_e. destruct (Z.ltb_spec 0 n2) as [P|P]; [|reflexivity].
    assert (Hn2 : n2 = Z.max (Zdigits2 m2 + e1 - 53) (-1074) - e1) by reflexivity.
    rewrite fexp64_eq in F2.
    assert (Hlt : m1 < 2 ^ 53) by (apply Zdigits2_lt_pow'; lia).
    assert (Hge : 2 ^ 53 <= m2) by (apply Zdigits2_ge_pow; lia).
    assert (E2 : m2 = 2 ^ 53) by lia.
    assert (Hd2 : Zdigits2 m2 = 54) by (rewrite E2; reflexivity).
    assert (n2 = 1) by lia.
    replace n2 with 1 by lia. rewrite E2.
    replace (e1 + 1 + 1074) with (1 + (e1 + 1074)) by lia.
    rewrite (Z.pow_add_r 2 1) by lia. change (2 ^ 53 / 2 ^ 1) with (2 ^ 52).
    change (2 ^ 53) with (2 ^ 52 * 2 ^ 1). lia. }
  rewrite H23. unfold rnd_val. fold n in Hrne.
  destruct (Z.leb_spec (fexp64 (Zdigits2 m + e)) e) as [L|L].
  - rewrite Hrne, rne_nonpos by (unfold n; lia).
    unfold e1, shifted_e. destruct (Z.ltb_spec 0 n); [unfold n in *; lia|reflexivity].
  - rewrite Hrne. unfold e1, shifted_e.
    destruct (Z.ltb_spec 0 n); [|unfold n in *; lia].
    unfold n. f_equal. f_equal. lia.
Qed.

Lemma rnd_val_scale m e k : 0 < m -> 0 <= k -> rnd_val (m * 2 ^ k) (e - k) = rnd_val m e.
Proof.
  intros Hm Hk. unfold rnd_val. rewrite Zdigits2_mul_pow2 by lia.
  replace (Zdigits2 m + k + (e - k)) with (Zdigits2 m + e) by lia.
  set (E := fexp64 (Zdigits2 m + e)).
  assert (HE : -1074 <= E) by (unfold E; rewrite fexp64_eq; lia).
  destruct (Z.leb_spec E (e - k)) as [L|L]; destruct (Z.leb_spec E e) as [L'|L']; try lia.
  - rewrite <- Z.mul_assoc, <- Z.pow_add_r by lia. do 2 f_equal. lia.
  - (* the shift removes only zeros that the scaling added *)
    replace (m * 2 ^ k) with (m * 2 ^ (e - E) * 2 ^ (E - (e - k))).
    2:{ rewrite <- Z.mul_assoc, <- Z.pow_add_r by lia. do 2 f_equal. lia. }
    rewrite rne_exact by lia.
    rewrite <- Z.mul_assoc, <- Z.pow_add_r by lia. do 2 f_equal. lia.
  - replace (E - (e - k)) with ((E - e) + k) by lia. rewrite rne_scale by lia. reflexivity.
Qed.

Lemma rnd_val_mono m1 m2 e : 0 < m1 -> m1 <= m2 -> rnd_val m1 e <= rnd_val m2 e.
Proof.
  intros Hm1 Hle. unfold rnd_val. rewrite !fexp64_eq.
  pose proof (Zdigits2_le m1 m2 ltac:(lia)) as Hd.
  pose proof (Zdigits2_bounds m1 ltac:(lia)) as [B1 B1'].
  pose proof (Zdigits2_bounds m2 ltac:(lia)) as [B2 B2'].
  assert (0 < Zdigits2 m1).
  { rewrite Zdigits2_log2 by lia. pose proof (Z.log2_nonneg m1). lia. }
  set (d1 := Zdigits2 m1) in *. set (d2 := Zdigits2 m2) in *.
  set (E1 := Z.max (d1 + e - 53) (-1074)). set (E2 := Z.max (d2 + e - 53) (-1074)).
  destruct (Z.leb_spec E1 e) as [L1|L1]; destruct (Z.leb_spec E2 e) as [L2|L2].
  - apply Z.mul_le_mono_nonneg_r; [apply Z.pow_nonneg|]; lia.
  - (* m1 is exact below 2^53, m2 rounds to at least 2^52 * 2^n2 *)
    assert (HE2 : E2 = d2 + e - 53) by lia.
    assert (m1 < 2 ^ 53).
    { assert (2 ^ d1 <= 2 ^ 53) by (apply Z.pow_le_mono_r; lia). lia. }
    assert (2 ^ 52 <= rne m2 (E2 - e)).
    { apply rne_ge; [lia|]. rewrite <- Z.pow_add_r by lia.
      replace (52 + (E2 - e)) with (d2 - 1) by lia. lia. }
    replace (E2 + 1074) with ((E2 - e) + (e + 1074)) by lia.
    rewrite (Z.pow_add_r 2 (E2 - e) (e + 1074)) by lia. rewrite Z.mul_assoc.
    apply Z.mul_le_mono_nonneg_r; [apply Z.pow_nonneg; lia|].
    assert (2 * 2 ^ 52 <= 2 ^ 52 * 2 ^ (E2 - e)).
    { assert (2 ^ 1 <= 2 ^ (E2 - e)) by (apply Z.pow_le_mono_r; lia). lia. }
    change (2 * 2 ^ 52) with (2 ^ 53) in *. nia.
  - lia.
  - destruct (Z.eq_dec E1 E2) as [Heq|Hne].
    + rewrite Heq. apply Z.mul_le_mono_nonneg_r; [apply Z.pow_nonneg; lia|].
      apply rne_mono; lia.
    + assert (HE2 : E2 = d2 + e - 53) by lia.
      assert (Hdd : d1 < d2) by lia.
      assert (H2 : 2 ^ 52 <= rne m2 (E2 - e)).
      { apply rne_ge; [lia|]. rewrite <- Z.pow_add_r by lia.
        replace (52 + (E2 - e)) with (d2 - 1) by lia. lia. }
      assert (H1 : rne m1 (E1 - e) <= 2 ^ (d2 - 1 - (E1 - e))).
      { apply rne_le; [lia|]. rewrite <- Z.pow_add_r by lia.
        replace (d2 - 1 - (E1 - e) + (E1 - e)) with (d2 - 1) by lia.
        assert (2 ^ d1 <= 2 ^ (d2 - 1)) by (apply Z.pow_le_mono_r; lia). lia. }
      apply Z.le_trans with (2 ^ (d2 - 1 - (E1 - e)) * 2 ^ (E1 + 1074)).
      { apply Z.mul_le_mono_nonneg_r; [apply Z.pow_nonneg; lia|]. exact H1. }
      apply Z.le_trans with (2 ^ 52 * 2 ^ (E2 + 1074)).
      { rewrite <- !Z.pow_add_r by lia. apply Z.pow_le_mono_r; lia. }
      apply Z.mul_le_mono_nonneg_r; [apply Z.pow_nonneg; lia|]. exact H2.
Qed.

(** A value that is already canonical rounds to itself. *)
Lemma rnd_val_canonical m e : fexp64 (Zdigits2 m + e) <= e -> rnd_val m e = m * 2 ^ (e + 1074).
Proof. intros H. unfold rnd_val. destruct (Z.leb_spec (fexp64 (Zdigits2 m + e)) e); [reflexivity|lia]. Qed.

Lemma rnd_val_zero e : rnd_val 0 e = 0.
Proof.
  unfold rnd_val. destruct (_ <=? _); [reflexivity|].
  destruct (Z_le_gt_dec (fexp64 (Zdigits2 0 + e) - e) 0).
  - rewrite rne_nonpos by lia. reflexivity.
  - replace 0 with (0 * 2 ^ (fexp64 (Zdigits2 0 + e) - e)) at 1 by lia.
    rewrite rne_exact by lia. reflexivity.
Qed.

Lemma rnd_val_nonneg m e : 0 <= m -> 0 <= rnd_val m e.
Proof.
  intros Hm. unfold rnd_val. destruct (_ <=? _).
  - apply Z.mul_nonneg_nonneg; [lia|apply Z.pow_nonneg; lia].
  - apply Z.mul_nonneg_nonneg; [apply rne_nonneg; lia|apply Z.pow_nonneg; lia].
Qed.

Lemma rnd_val_mono0 m1 m2 e : 0 <= m1 -> m1 <= m2 -> rnd_val m1 e <= rnd_val m2 e.
Proof.
  intros H1 H2. destruct (Z.eq_dec m1 0) as [->|].
  - rewrite rnd_val_zero. apply rnd_val_nonneg; lia.
  - apply rnd_val_mono; lia.
Qed.

(** *** The operations on non-negative floats *)

Lemma pos_iter_xO p d : Z.pos (Pos.iter xO p d) = Z.pos p * 2 ^ Z.pos d.
Proof.
  induction d as [|d IH] using Pos.peano_ind.
  - cbn [Pos.iter]. rewrite Z.pow_1_r. lia.
  - rewrite Pos.iter_succ, Pos2Z.inj_xO, IH, Pos2Z.inj_succ, Z.pow_succ_r by lia. lia.
Qed.

Lemma shl_align_spec p e e' :
  exists k, 0 <= k /\ Z.pos (fst (shl_align p e e')) = Z.pos p * 2 ^ k /\
            snd (shl_align p e e') = e - k /\ snd (shl_align p e e') = Z.min e e'.
Proof.
  unfold shl_align. destruct (e' - e) as [|d|d] eqn:E; cbn [fst snd].
  - exists 0. rewrite Z.pow_0_r. lia.
  - exists 0. rewrite Z.pow_0_r. lia.
  - exists (Z.pos d). rewrite pos_iter_xO. lia.
Qed.

Lemma binary_round_val s p e B :
  Zdigits2 (Z.pos p) + e <= B -> -1074 <= B -> B <= 971 ->
  fin_below s (B + 1) (binary_round Float64.prec Float64.emax s p e) /\
  fval (binary_round Float64.prec Float64.emax s p e) = rnd_val (Z.pos p) e.
Proof.
  intros Hmag HB1 HB2. unfold binary_round.
  destruct (shl_align_spec p e (fexp64 (Z.pos (digits2_pos p) + e))) as (k & Hk & Hm & He & _).
  destruct (shl_align p e _) as [mz ez]. cbn [fst snd] in Hm, He.
  assert (Hd : Zdigits2 (Z.pos mz) + ez = Zdigits2 (Z.pos p) + e).
  { rewrite Hm, Zdigits2_mul_pow2 by lia. lia. }
  destruct (bra_exact s (Z.pos mz) ez B ltac:(lia) ltac:(lia) HB1 HB2) as [F V].
  split; [exact F|]. rewrite V, Hm, He. apply rnd_val_scale; lia.
Qed.

Lemma fval_of_int n : 0 <= n -> n < 2 ^ 53 ->
  fin_below false 54 (binary_normalize Float64.prec Float64.emax n 0 false) /\
  fval (binary_normalize Float64.prec Float64.emax n 0 false) = n * 2 ^ 1074.
Proof.
  intros Hn Hlt. destruct n as [|p|p]; [split; [exact I|reflexivity]| |lia].
  cbn [binary_normalize].
  assert (Zdigits2 (Z.pos p) <= 53) by (apply Zdigits2_lt_pow; lia).
  destruct (binary_round_val false p 0 53 ltac:(lia) ltac:(lia) ltac:(lia)) as [F V].
  split; [exact F|]. rewrite V. rewrite rnd_val_canonical; [reflexivity|].
  rewrite fexp64_eq. lia.
Qed.

Lemma Zdigits2_mul_le a b : 0 < a -> 0 < b -> Zdigits2 (a * b) <= Zdigits2 a + Zdigits2 b.
Proof.
  intros Ha Hb. pose proof (Zdigits2_bounds a Ha) as [_ A]. pose proof (Zdigits2_bounds b Hb) as [_ B].
  pose proof (Zdigits2_nonneg a). pose proof (Zdigits2_nonneg b).
  apply Zdigits2_lt_pow; [nia|lia|]. rewrite Z.pow_add_r by lia. nia.
Qed.

Lemma fin_below_weaken s B B' f : B <= B' -> fin_below s B f -> fin_below s B' f.
Proof. intros H. destruct f; cbn [fin_below]; auto. intros (? & ? & ?). repeat split; auto; lia. Qed.

Lemma fval_mul x y Bx By :
  fin_below false Bx x -> fin_below false By y -> -1074 <= Bx + By -> Bx + By <= 971 ->
  fin_below false (Bx + By + 1) (SFmul Float64.prec Float64.emax x y) /\
  fval (SFmul Float64.prec Float64.emax x y) = rnd_val (fval x * fval y) (-2148).
Proof.
  intros Hx Hy HB1 HB2.
  destruct x as [sx|sx| |sx mx ex], y as [sy|sy| |sy my ey];
    cbn [fin_below] in Hx, Hy; try contradiction;
    cbn [SFmul fval]; rewrite ?Z.mul_0_l, ?Z.mul_0_r, ?rnd_val_zero; try (split; [exact I|reflexivity]).
  destruct Hx as (-> & Ex & Mx), Hy as (-> & Ey & My). cbn [xorb].
  change (Z.pos (mx * my)) with (Z.pos mx * Z.pos my).
  pose proof (Zdigits2_mul_le (Z.pos mx) (Z.pos my) ltac:(lia) ltac:(lia)) as Hd.
  destruct (bra_exact false (Z.pos mx * Z.pos my) (ex + ey) (Bx + By)
              ltac:(lia) ltac:(lia) HB1 HB2) as [F V].
  split; [exact F|]. rewrite V.
  rewrite <- (rnd_val_scale (Z.pos mx * Z.pos my) (ex + ey) (ex + ey + 2148)) by lia.
  f_equal; [|lia].
  replace (ex + ey + 2148) with ((ex + 1074) + (ey + 1074)) by lia.
  rewrite Z.pow_add_r by lia. lia.
Qed.

Lemma fval_representable s B p e : fin_below s B (S754_finite s p e) ->
  rnd_val (fval (S754_finite s p e)) (-1074) = fval (S754_finite s p e).
Proof.
  cbn [fin_below fval]. intros (_ & C & _).
  replace (-1074) with (e - (e + 1074)) at 1 by lia.
  rewrite rnd_val_scale by lia. apply rnd_val_canonical. rewrite fexp64_eq. lia.
Qed.

Lemma fval_add x y Bx By :
  fin_below false Bx x -> fin_below false By y ->
  -1074 <= Z.max Bx By -> Z.max Bx By + 1 <= 971 ->
  fin_below false (Z.max Bx By + 2) (SFadd Float64.prec Float64.emax x y) /\
  fval (SFadd Float64.prec Float64.emax x y) = rnd_val (fval x + fval y) (-1074).
Proof.
  intros Hx Hy HB1 HB2.
  destruct x as [sx|sx| |sx mx ex], y as [sy|sy| |sy my ey];
    cbn [fin_below] in Hx, Hy; try contradiction.
  - cbn [fval]. rewrite rnd_val_zero. destruct sx, sy; cbn; auto.
  - cbn [SFadd]. destruct Hy as (-> & Cy & My). split.
    + cbn [fin_below]. repeat split; lia.
    + change (fval (S754_zero sx)) with 0. rewrite Z.add_0_l. symmetry.
      apply (fval_representable false By). cbn [fin_below]. repeat split; lia.
  - cbn [SFadd]. destruct Hx as (-> & Cx & Mx). split.
    + cbn [fin_below]. repeat split; lia.
    + change (fval (S754_zero sy)) with 0. rewrite Z.add_0_r. symmetry.
      apply (fval_representable false Bx). cbn [fin_below]. repeat split; lia.
  - destruct Hx as (-> & Cx & Mx), Hy as (-> & Cy & My). cbn [SFadd cond_Zopp].
    set (ez := Z.min ex ey).
    destruct (shl_align_spec mx ex ez) as (kx & Hkx & Ax & Ex1 & Ex2).
    destruct (shl_align_spec my ey ez) as (ky & Hky & Ay & Ey1 & Ey2).
    set (a := fst (shl_align mx ex ez)) in *. set (b := fst (shl_align my ey ez)) in *.
    change (Z.pos a + Z.pos b) with (Z.pos (a + b)). cbn [binary_normalize].
    assert (Hkx' : kx = ex - ez) by lia. assert (Hky' : ky = ey - ez) by lia.
    pose proof (Zdigits2_bounds (Z.pos mx) ltac:(lia)) as [_ Ux].
    pose proof (Zdigits2_bounds (Z.pos my) ltac:(lia)) as [_ Uy].
    assert (0 < Zdigits2 (Z.pos mx)) by (cbn; lia).
    assert (0 < Zdigits2 (Z.pos my)) by (cbn; lia).
    set (M := Z.max Bx By) in *.
    assert (Ha : Z.pos a < 2 ^ (M - ez)).
    { rewrite Ax. apply Z.lt_le_trans with (2 ^ Zdigits2 (Z.pos mx) * 2 ^ kx).
      - apply Z.mul_lt_mono_pos_r; [apply Z.pow_pos_nonneg|]; lia.
      - rewrite <- Z.pow_add_r by lia. apply Z.pow_le_mono_r; lia. }
    assert (Hb : Z.pos b < 2 ^ (M - ez)).
    { rewrite Ay. apply Z.lt_le_trans with (2 ^ Zdigits2 (Z.pos my) * 2 ^ ky).
      - apply Z.mul_lt_mono_pos_r; [apply Z.pow_pos_nonneg|]; lia.
      - rewrite <- Z.pow_add_r by lia. apply Z.pow_le_mono_r; lia. }
    assert (Hd : Zdigits2 (Z.pos (a + b)) <= M - ez + 1).
    { apply Zdigits2_lt_pow; [lia|lia|]. rewrite Z.pow_add_r by lia.
      rewrite Pos2Z.inj_add. lia. }
    destruct (binary_round_val false (a + b) ez (M + 1) ltac:(lia) ltac:(lia) ltac:(lia))
      as [F V].
    split; [replace (M + 2) with (M + 1 + 1) by lia; exact F|].
    rewrite V. rewrite <- (rnd_val_scale (Z.pos (a + b)) ez (ez + 1074)) by lia.
    f_equal; [|lia]. cbn [fval]. rewrite Pos2Z.inj_add, Ax, Ay, Z.mul_add_distr_r.
    rewrite <- !Z.mul_assoc, <- !Z.pow_add_r by lia.
    do 2 f_equal; f_equal; lia.
Qed.

(** *** Conversion to an integer *)

Lemma fval_bound f B : fin_below false B f -> -1074 <= B -> 0 <= fval f < 2 ^ (B + 1074).
Proof.
  intros H HB. destruct f as [s|s| |s p e]; cbn [fin_below fval] in *; try contradiction.
  - split; [lia|apply Z.pow_pos_nonneg; lia].
  - destruct H as (_ & C & M).
    pose proof (Zdigits2_bounds (Z.pos p) ltac:(lia)) as [_ U].
    assert (0 < Zdigits2 (Z.pos p)) by (cbn; lia).
    assert (0 < 2 ^ (e + 1074)) by (apply Z.pow_pos_nonneg; lia).
    split; [nia|].
    apply Z.lt_le_trans with (2 ^ Zdigits2 (Z.pos p) * 2 ^ (e + 1074)); [nia|].
    rewrite <- Z.pow_add_r by lia. apply Z.pow_le_mono_r; lia.
Qed.

Lemma trunc_fval f B : fin_below false B f -> Float64.trunc f = Some (fval f / 2 ^ 1074).
Proof.
  intros H. destruct f as [s|s| |s p e]; cbn [fin_below fval Float64.trunc] in *; try contradiction.
  - reflexivity.
  - destruct H as (-> & C & _). cbn [cond_Zopp]. f_equal.
    destruct (Z.leb_spec 0 e).
    + replace (e + 1074) with (e + 1074) by lia. rewrite Z.pow_add_r by lia.
      rewrite Z.mul_assoc, Z.div_mul by (apply Z.pow_nonzero; lia). reflexivity.
    + replace 1074 with ((e + 1074) + (- e)) at 2 by lia.
      rewrite (Z.pow_add_r 2 (e + 1074) (- e)) by lia.
      rewrite (Z.mul_comm (Z.pos p)).
      rewrite Z.div_mul_cancel_l; [reflexivity|apply Z.pow_nonzero; lia|apply Z.pow_nonzero; lia].
Qed.

Lemma to_int_fval f B : fin_below false B f -> 0 <= B -> B <= 62 ->
  Float64.to_int f = Some (fval f / 2 ^ 1074) /\ 0 <= fval f / 2 ^ 1074 < 2 ^ B.
Proof.
  intros H HB1 HB2. pose proof (fval_bound f B H ltac:(lia)) as [L U].
  assert (R : 0 <= fval f / 2 ^ 1074 < 2 ^ B).
  { split; [apply Z.div_pos; [lia|apply Z.pow_pos_nonneg; lia]|].
    apply Z.div_lt_upper_bound; [apply Z.pow_pos_nonneg; lia|].
    rewrite <- Z.pow_add_r by lia. rewrite Z.add_comm. exact U. }
  split; [|exact R]. unfold Float64.to_int. rewrite (trunc_fval f B H).
  assert (2 ^ B <= 2 ^ 62) by (apply Z.pow_le_mono_r; lia).
  unfold GoInt.min_int, GoInt.max_int, GoInt.bits.
  change (2 ^ (64 - 1)) with (2 * 2 ^ 62).
  destruct (Z.leb_spec (- (2 * 2 ^ 62)) (fval f / 2 ^ 1074)); [|lia].
  destruct (Z.leb_spec (fval f / 2 ^ 1074) (2 * 2 ^ 62 - 1)); [reflexivity|lia].
Qed.

(** *** The index computation *)

Lemma half_fin : fin_below false 0 Float64.half.
Proof. cbn. repeat split; lia. Qed.

Lemma roundedIndex0_ratio n p x :
  Float64.div p Float64.hundred = x -> fin_below false 2 x -> 1 <= n -> n <= 2 ^ 53 ->
  roundedIndex0 n p = Some (idx_val (fval x) n) /\ 0 <= idx_val (fval x) n < 2 ^ 59.
Proof.
  intros Hx Fx Hn1 Hn2. unfold roundedIndex0. rewrite Hx.
  destruct (fval_of_int (n - 1) ltac:(lia) ltac:(lia)) as [Fm Vm].
  fold (Float64.of_int (n - 1)) in Fm, Vm.
  destruct (fval_mul x (Float64.of_int (n - 1)) 2 54 Fx Fm ltac:(lia) ltac:(lia)) as [Fy Vy].
  fold (Float64.mul x (Float64.of_int (n - 1))) in Fy, Vy.
  destruct (fval_add (Float64.mul x (Float64.of_int (n - 1))) Float64.half (2 + 54 + 1) 0
              Fy half_fin ltac:(lia) ltac:(lia)) as [Fz Vz].
  fold (Float64.add (Float64.mul x (Float64.of_int (n - 1))) Float64.half) in Fz, Vz.
  change (Z.max (2 + 54 + 1) 0 + 2) with 59 in Fz.
  destruct (to_int_fval _ 59 Fz ltac:(lia) ltac:(lia)) as [T R].
  unfold idx_val. rewrite T, Vz, Vy, Vm in *. split; [reflexivity|exact R].
Qed.

Lemma idx_val_mono c1 c2 n : 0 <= c1 -> c1 <= c2 -> 1 <= n -> idx_val c1 n <= idx_val c2 n.
Proof.
  intros H1 H2 Hn. unfold idx_val.
  assert (0 <= (n - 1) * 2 ^ 1074) by (apply Z.mul_nonneg_nonneg; [lia|apply Z.pow_nonneg; lia]).
  apply Z.div_le_mono; [apply Z.pow_pos_nonneg; lia|].
  apply rnd_val_mono0.
  - assert (0 <= rnd_val (c1 * ((n - 1) * 2 ^ 1074)) (-2148)) by (apply rnd_val_nonneg; nia).
    assert (0 < 2 ^ 1073) by (apply Z.pow_pos_nonneg; lia). lia.
  - apply Z.add_le_mono_r. apply rnd_val_mono0; nia.
Qed.

(** With ratio [1.0] the index is at least [n - 1]. *)
Lemma idx_val_one n : 1 <= n -> n <= 2 ^ 53 -> n - 1 <= idx_val (2 ^ 1074) n.
Proof.
  intros H1 H2. unfold idx_val.
  assert (P : 0 < 2 ^ 1074) by (apply Z.pow_pos_nonneg; lia).
  assert (E : rnd_val (2 ^ 1074 * ((n - 1) * 2 ^ 1074)) (-2148) = (n - 1) * 2 ^ 1074).
  { destruct (Z.eq_dec n 1) as [->|]; [rewrite Z.mul_0_l, Z.mul_0_r; apply rnd_val_zero|].
    replace (2 ^ 1074 * ((n - 1) * 2 ^ 1074)) with ((n - 1) * 2 ^ 2148).
    2:{ change 2148 with (1074 + 1074). rewrite Z.pow_add_r by lia. lia. }
    replace (-2148) with (0 - 2148) by lia. rewrite rnd_val_scale by lia.
    rewrite rnd_val_canonical; [reflexivity|]. rewrite fexp64_eq.
    assert (Zdigits2 (n - 1) <= 53) by (apply Zdigits2_lt_pow; lia). lia. }
  rewrite E. apply Z.div_le_lower_bound; [lia|].
  rewrite Z.mul_comm.
  apply Z.le_trans with (rnd_val ((n - 1) * 2 ^ 1074) (-1074)).
  - destruct (Z.eq_dec n 1) as [->|]; [rewrite Z.mul_0_l, rnd_val_zero; lia|].
    replace (-1074) with (0 - 1074) by lia. rewrite rnd_val_scale by lia.
    rewrite rnd_val_canonical; [lia|]. rewrite fexp64_eq.
    assert (Zdigits2 (n - 1) <= 53) by (apply Zdigits2_lt_pow; lia). lia.
  - apply rnd_val_mono0; [nia|]. assert (0 < 2 ^ 1073) by (apply Z.pow_pos_nonneg; lia). lia.
Qed.

(** *** Division of a float in [0, 100] by [100.0] *)

Lemma div_core_crude m1 e1 m2 e2 : 0 < m1 -> 0 < m2 ->
  let '(q, e', _) := SFdiv_core_binary Float64.prec Float64.emax m1 e1 m2 e2 in
  0 <= q /\ e' <= e1 - e2 /\
  Zdigits2 q + e' <= Z.max (Zdigits2 m1 + e1 - (Zdigits2 m2 + e2) + 1) (e1 - e2).
Proof.
  intros H1 H2. unfold SFdiv_core_binary.
  set (e' := Z.min _ (e1 - e2)). set (s := e1 - e2 - e').
  assert (Hs : 0 <= s) by (unfold s, e'; lia).
  set (m' := match s with Z.pos _ => Z.shiftl m1 s | 0 => m1 | Z.neg _ => 0 end).
  assert (Hm' : m' = m1 * 2 ^ s).
  { unfold m'. destruct s as [|ps|ps] eqn:E; [rewrite Z.pow_0_r; lia| |lia].
    apply Z.shiftl_mul_pow2; lia. }
  pose proof (Z_div_mod m' m2 ltac:(lia)) as D.
  destruct (Z.div_eucl m' m2) as [q r]. destruct D as [D R].
  pose proof (Zdigits2_bounds m1 H1) as [_ U1]. pose proof (Zdigits2_bounds m2 H2) as [L2 _].
  assert (0 < Zdigits2 m1). { rewrite Zdigits2_log2 by lia. pose proof (Z.log2_nonneg m1). lia. }
  assert (0 < Zdigits2 m2). { rewrite Zdigits2_log2 by lia. pose proof (Z.log2_nonneg m2). lia. }
  assert (P : 0 < 2 ^ s) by (apply Z.pow_pos_nonneg; lia).
  assert (Hq : 0 <= q) by nia.
  split; [exact Hq|]. split; [unfold e'; lia|].
  set (c := Z.max 0 (Zdigits2 m1 + s - Zdigits2 m2 + 1)).
  assert (Hc : q < 2 ^ c).
  { assert (2 ^ (Zdigits2 m1 + s) <= m2 * 2 ^ c).
    { apply Z.le_trans with (2 ^ (Zdigits2 m2 - 1) * 2 ^ c).
      - rewrite <- Z.pow_add_r by lia. apply Z.pow_le_mono_r; lia.
      - apply Z.mul_le_mono_nonneg_r; [apply Z.pow_nonneg|]; lia. }
    assert (m' < 2 ^ (Zdigits2 m1 + s)) by (rewrite Hm', Z.pow_add_r by lia; nia).
    assert (0 < 2 ^ c) by (apply Z.pow_pos_nonneg; lia). nia. }
  pose proof (Zdigits2_lt_pow q c Hq ltac:(lia) Hc). unfold s in *. lia.
Qed.

Lemma div_hundred_crude p :
  valid_binary Float64.prec Float64.emax p = true ->
  Float64.leb Float64.zero p = true -> Float64.leb p Float64.hundred = true ->
  fin_below false 2 (Float64.div p Float64.hundred).
Proof.
  intros V L0 L1. destruct p as [s|s| |s m e];
    cbv [Float64.leb SFleb SFcompare Float64.zero Float64.hundred] in L0, L1; try discriminate.
  - exact I.
  - destruct s; discriminate.
  - destruct s; [discriminate|].
    assert (He : e <= -46).
    { destruct (Z.compare_spec e (-46)); try lia; discriminate. }
    cbn [valid_binary] in V. unfold bounded, canonical_mantissa in V.
    apply andb_prop in V as [V _]. apply Z.eqb_eq in V. rewrite fexp64_eq in V.
    unfold Float64.div, Float64.hundred. cbn [SFdiv xorb].
    pose proof (div_core_crude (Z.pos m) e 7036874417766400 (-46) ltac:(lia) ltac:(lia)) as C.
    destruct (SFdiv_core_binary _ _ _ _ _ _) as [[q e'] l]. destruct C as (Hq & He' & Hd).
    change (Zdigits2 7036874417766400) with 53 in Hd.
    change (Zdigits2 (Z.pos m)) with (Z.pos (digits2_pos m)) in Hd.
    apply (bra_crude false q e' l 1); lia.
Qed.

(** ** Percentiles *)

Lemma len_nonneg {A} (s : list A) : 0 <= len s.
Proof. unfold len. lia. Qed.

Lemma len_zero_iff {A} (s : list A) : len s = 0 <-> s = [].
Proof. unfold len. destruct s; cbn; split; intros; try lia; congruence. Qed.

Lemma slice_index_in_range {A} (s : list A) (i : Z) :
  0 <= i < len s -> exists a, slice_index s i = Returns a /\ s !! Z.to_nat i = Some a.
Proof.
  intros [H0 H1]. unfold slice_index. destruct (Z.ltb_spec i 0); [lia|].
  destruct (lookup_lt_is_Some_2 s (Z.to_nat i)) as [a Ha]; [unfold len in H1; lia|].
  exists a. rewrite Ha. auto.
Qed.

(** The percentile of a non-empty slice once the rounded index is known
    to be a non-negative integer. *)
Lemma calculatePercentile_at l p i :
  1 <= len l -> roundedIndex0 (len l) p = Some i -> 0 <= i ->
  exists v, calculatePercentile l p = Returns v /\
            l !! Z.to_nat (Z.min i (len l - 1)) = Some v.
Proof.
  intros Hl Hi H0. unfold calculatePercentile.
  destruct (Z.eqb_spec (len l) 0); [lia|]. rewrite Hi.
  assert (E : (if i >=? len l then len l - 1 else i) = Z.min i (len l - 1)).
  { destruct (Z.geb_spec i (len l)); lia. }
  rewrite E. destruct (slice_index_in_range l (Z.min i (len l - 1)) ltac:(lia)) as (a & -> & Ha).
  eauto.
Qed.

Lemma roundedIndex0_in_domain n p :
  1 <= n -> n <= 2 ^ 53 ->
  valid_binary Float64.prec Float64.emax p = true ->
  Float64.leb Float64.zero p = true -> Float64.leb p Float64.hundred = true ->
  roundedIndex0 n p = Some (idx_val (fval (Float64.div p Float64.hundred)) n) /\
  0 <= idx_val (fval (Float64.div p Float64.hundred)) n < 2 ^ 59.
Proof.
  intros H1 H2 V L0 L1.
  apply roundedIndex0_ratio; auto using div_hundred_crude.
Qed.

Lemma percentile_literal_in_domain k :
  0 <= k <= 100 ->
  valid_binary Float64.prec Float64.emax (Float64.of_int k) = true /\
  Float64.leb Float64.zero (Float64.of_int k) = true /\
  Float64.leb (Float64.of_int k) Float64.hundred = true.
Proof.
  intros H.
  assert (C : forallb (fun k =>
            valid_binary Float64.prec Float64.emax (Float64.of_int k)
            && Float64.leb Float64.zero (Float64.of_int k)
            && Float64.leb (Float64.of_int k) Float64.hundred)
          (map Z.of_nat (seq 0 101)) = true) by (vm_compute; reflexivity).
  rewrite forallb_forall in C. specialize (C k).
  rewrite !andb_true_iff in C. destruct C as [[? ?] ?]; auto.
  apply in_map_iff. exists (Z.to_nat k). split; [lia|]. apply in_seq. lia.
Qed.

Lemma StronglySorted_lookup_le (l : list Z) i j x y :
  StronglySorted Z.le l -> (i <= j)%nat -> l !! i = Some x -> l !! j = Some y -> x <= y.
Proof.
  intros Hs. revert i j. induction Hs as [|a l Hs IH Ha]; intros i j Hij Hi Hj.
  - discriminate.
  - destruct i as [|i], j as [|j]; cbn in Hi, Hj; try lia.
    + assert (x = y) by congruence. lia.
    + injection Hi as <-. rewrite Forall_forall in Ha. apply Ha.
      eapply list_elem_of_lookup_2; eauto.
    + apply (IH i j); [lia|exact Hi|exact Hj].
Qed.

Lemma sortInts_sorted l : StronglySorted Z.le (sortInts l).
Proof. apply StronglySorted_merge_sort; [intros ???; lia|intros ??; lia]. Qed.

Lemma sortInts_perm l : sortInts l ≡ₚ l.
Proof. apply merge_sort_Permutation. Qed.

Lemma len_sortInts l : len (sortInts l) = len l.
Proof. unfold len. now rewrite sortInts_perm. Qed.

(** C10. For a non-empty slice (of at most [2 ^ 53] elements, which covers
    every slice a Go program can allocate) and a float64 percentile [p]
    with [0 <= p <= 100], the index [int(p / 100.0 * float64(n - 1) + 0.5)]
    is a well-defined non-negative integer; after the upper clamp it lies in
    [[0, n - 1]], the slice access succeeds and [calculatePercentile]
    returns that element. The lower bound is not clamped by the code: it
    follows from [0 <= p], and the call with [p = -200] on two elements
    panics. *)
Theorem calculatePercentile_index_in_bounds (sortedValues : list Z) (percentile : spec_float) :
  sortedValues <> [] ->
  len sortedValues <= 2 ^ 53 ->
  valid_binary Float64.prec Float64.emax percentile = true ->
  Float64.leb Float64.zero percentile = true ->
  Float64.leb percentile Float64.hundred = true ->
  (exists i v,
      roundedIndex0 (len sortedValues) percentile = Some i /\
      0 <= i /\
      let roundedIndex := if i >=? len sortedValues then len sortedValues - 1 else i in
      0 <= roundedIndex <= len sortedValues - 1 /\
      slice_index sortedValues roundedIndex = Returns v /\
      calculatePercentile sortedValues percentile = Returns v) /\
  calculatePercentile [1; 2] (Float64.of_int (-200)) = Panics.
Proof.
  intros Hne Hlen V L0 L1. split; [|vm_compute; reflexivity].
  assert (Hl : 1 <= len sortedValues).
  { pose proof (len_nonneg sortedValues). pose proof (len_zero_iff sortedValues). 
    destruct (Z.eq_dec (len sortedValues) 0); [tauto|lia]. }
  destruct (roundedIndex0_in_domain (len sortedValues) percentile Hl Hlen V L0 L1) as [Hi Hr].
  set (i := idx_val _ _) in *.
  destruct (calculatePercentile_at sortedValues percentile i Hl Hi ltac:(lia)) as (v & Hv & Hlk).
  exists i, v. split; [exact Hi|]. split; [lia|]. cbn zeta.
  assert (E : (if i >=? len sortedValues then len sortedValues - 1 else i)
              = Z.min i (len sortedValues - 1)).
  { destruct (Z.geb_spec i (len sortedValues)); lia. }
  rewrite E. split; [lia|]. split; [|exact Hv].
  destruct (slice_index_in_range sortedValues (Z.min i (len sortedValues - 1)) ltac:(lia))
    as (a & Ha & Hlk').
  rewrite Ha. congruence.
Qed.

Lemma calculatePercentile_index_in_bounds_witness :
  (exists i v,
      roundedIndex0 (len [10; 20; 30]) (Float64.of_int 50) = Some i /\
      0 <= i /\
      let roundedIndex := if i >=? len [10; 20; 30] then len [10; 20; 30] - 1 else i in
      0 <= roundedIndex <= len [10; 20; 30] - 1 /\
      slice_index [10; 20; 30] roundedIndex = Returns v /\
      calculatePercentile [10; 20; 30] (Float64.of_int 50) = Returns v) /\
  calculatePercentile [1; 2] (Float64.of_int (-200)) = Panics.
Proof.
  apply (calculatePercentile_index_in_bounds [10; 20; 30] (Float64.of_int 50)).
  - discriminate.
  - vm_compute. discriminate.
  - vm_compute. reflexivity.
  - vm_compute. reflexivity.
  - vm_compute. reflexivity.
Defined.

(** The three ratios [p / 100.0] of the percentiles in use, and [100 / 100.0]. *)
Lemma ratio_order :
  let r k := fval (Float64.div (Float64.of_int k) Float64.hundred) in
  0 <= r 50 /\ r 50 <= r 95 /\ r 95 <= r 99 /\ r 100 = 2 ^ 1074.
Proof.
  cbv zeta. split; [|split; [|split]]; try (apply Z.leb_le; vm_compute; reflexivity).
  vm_compute. reflexivity.
Qed.

(** The value that [calculatePercentile] returns for a literal percentile. *)
Lemma calculatePercentile_literal l k :
  1 <= len l -> len l <= 2 ^ 53 -> 0 <= k <= 100 ->
  let i := idx_val (fval (Float64.div (Float64.of_int k) Float64.hundred)) (len l) in
  0 <= i /\
  exists v, calculatePercentile l (Float64.of_int k) = Returns v /\
            l !! Z.to_nat (Z.min i (len l - 1)) = Some v.
Proof.
  intros H1 H2 Hk i. destruct (percentile_literal_in_domain k Hk) as (V & L0 & L1).
  destruct (roundedIndex0_in_domain (len l) _ H1 H2 V L0 L1) as [Hi Hr]. fold i in Hi, Hr.
  split; [lia|]. apply calculatePercentile_at; auto; lia.
Qed.

Lemma calculateResponseTimePercentiles_ordered (responseTimes : list Z) :
  len responseTimes <= 2 ^ 53 ->
  exists p50 p95 p99,
    calculateResponseTimePercentiles responseTimes = Returns (p50, p95, p99) /\
    p50 <= p95 <= p99.
Proof.
  intros Hlen. destruct ratio_order as (R0 & R1 & R2 & R3).
  unfold calculateResponseTimePercentiles.
  destruct (Z.eqb_spec (len responseTimes) 0) as [E|E].
  { exists 0, 0, 0. split; [reflexivity|lia]. }
  pose proof (len_nonneg responseTimes) as Hn.
  set (s := sortInts responseTimes).
  assert (Hs1 : 1 <= len s) by (unfold s; rewrite len_sortInts; lia).
  assert (Hs2 : len s <= 2 ^ 53) by (unfold s; rewrite len_sortInts; lia).
  destruct (calculatePercentile_literal s 50 Hs1 Hs2 ltac:(lia)) as (I50 & v50 & C50 & K50).
  destruct (calculatePercentile_literal s 95 Hs1 Hs2 ltac:(lia)) as (I95 & v95 & C95 & K95).
  destruct (calculatePercentile_literal s 99 Hs1 Hs2 ltac:(lia)) as (I99 & v99 & C99 & K99).
  exists v50, v95, v99. rewrite C50, C95, C99. split; [reflexivity|].
  pose proof (idx_val_mono _ _ (len s) R0 R1 Hs1) as M1.
  pose proof (idx_val_mono _ _ (len s) (Z.le_trans _ _ _ R0 R1) R2 Hs1) as M2.
  pose proof (sortInts_sorted responseTimes) as SS. fold s in SS.
  split.
  - eapply (StronglySorted_lookup_le s); [exact SS| |exact K50|exact K95]. lia.
  - eapply (StronglySorted_lookup_le s); [exact SS| |exact K95|exact K99]. lia.
Qed.

Lemma calculatePercentile_100_is_max (sorted : list Z) :
  sorted <> [] -> Sorted Z.le sorted -> len sorted <= 2 ^ 53 ->
  exists v, calculatePercentile sorted (Float64.of_int 100) = Returns v /\
            In v sorted /\ forall x, In x sorted -> x <= v.
Proof.
  intros Hne Hs Hlen'. destruct ratio_order as (R0 & R1 & R2 & R3).
  assert (H1 : 1 <= len sorted).
  { pose proof (len_nonneg sorted). pose proof (len_zero_iff sorted).
    destruct (Z.eq_dec (len sorted) 0); [tauto|lia]. }
  destruct (calculatePercentile_literal sorted 100 H1 Hlen' ltac:(lia)) as (I & v & C & K).
  rewrite R3 in K. pose proof (idx_val_one (len sorted) H1 Hlen') as Hone.
  replace (Z.min _ _) with (len sorted - 1) in K by lia.
  exists v. split; [exact C|]. split.
  - apply list_elem_of_In. eapply list_elem_of_lookup_2; eauto.
  - intros x Hx. apply list_elem_of_In, list_elem_of_lookup_1 in Hx as [j Hj].
    apply (StronglySorted_lookup_le sorted j (Z.to_nat (len sorted - 1)));
      [apply Sorted_StronglySorted; [intros ???; lia|exact Hs]| |exact Hj|exact K].
    apply lookup_lt_Some in Hj. unfold len. lia.
Qed.

(** C8. The percentiles computed from any list of response times (of at
    most [2 ^ 53] entries) are returned and ordered,
    [p50 <= p95 <= p99]; and on a non-empty sorted slice the 100th
    percentile is the maximum element. *)
Theorem percentiles_monotone (responseTimes sorted : list Z) :
  len responseTimes <= 2 ^ 53 ->
  sorted <> [] -> Sorted Z.le sorted -> len sorted <= 2 ^ 53 ->
  (exists p50 p95 p99,
      calculateResponseTimePercentiles responseTimes = Returns (p50, p95, p99) /\
      p50 <= p95 <= p99) /\
  (exists v, calculatePercentile sorted (Float64.of_int 100) = Returns v /\
             In v sorted /\ forall x, In x sorted -> x <= v).
Proof.
  intros Hlen Hne Hs Hlen'. split.
  - apply calculateResponseTimePercentiles_ordered. exact Hlen.
  - apply calculatePercentile_100_is_max; assumption.
Qed.

Lemma percentiles_monotone_witness :
  (exists p50 p95 p99,
      calculateResponseTimePercentiles [120; 80; 95; 300; 110] = Returns (p50, p95, p99) /\
      p50 <= p95 <= p99) /\
  (exists v, calculatePercentile [80; 95; 110] (Float64.of_int 100) = Returns v /\
             In v [80; 95; 110] /\ forall x, In x [80; 95; 110] -> x <= v).
Proof.
  apply (percentiles_monotone [120; 80; 95; 300; 110] [80; 95; 110]).
  - vm_compute. discriminate.
  - discriminate.
  - repeat constructor; lia.
  - vm_compute. discriminate.
Defined.

(** On the lengths that a validated configuration allows, the float index
    of the percentiles in use is the exact nearest rank. *)
Lemma index_agrees_sound k count n0 n :
  index_agrees k count n0 = true -> n0 <= n < n0 + Z.of_nat count ->
  roundedIndex0 n (Float64.of_int k) = Some (round_half_up (k * (n - 1)) 100).
Proof.
  revert n0. induction count as [|count IH]; intros n0 H Hn; [lia|].
  cbn [index_agrees] in H.
  destruct (roundedIndex0 n0 (Float64.of_int k)) as [i|] eqn:E; [|discriminate].
  apply andb_true_iff in H as [H1 H2]. apply Z.eqb_eq in H1. subst i.
  destruct (Z.eq_dec n n0) as [->|]; [exact E|].
  apply (IH (n0 + 1)); [exact H2|lia].
Qed.

Lemma index_agrees_50 : index_agrees 50 (Z.to_nat 10000) 1 = true.
Proof. vm_compute. reflexivity. Qed.

Lemma index_agrees_95 : index_agrees 95 (Z.to_nat 10000) 1 = true.
Proof. vm_compute. reflexivity. Qed.

Lemma index_agrees_99 : index_agrees 99 (Z.to_nat 10000) 1 = true.
Proof. vm_compute. reflexivity. Qed.

Lemma roundedIndex0_nearest_rank n k :
  1 <= n <= 10000 -> k = 50 \/ k = 95 \/ k = 99 ->
  roundedIndex0 n (Float64.of_int k) = Some (round_half_up (k * (n - 1)) 100).
Proof.
  intros Hn [-> | [-> | ->]].
  - apply (index_agrees_sound 50 (Z.to_nat 10000) 1); [exact index_agrees_50|lia].
  - apply (index_agrees_sound 95 (Z.to_nat 10000) 1); [exact index_agrees_95|lia].
  - apply (index_agrees_sound 99 (Z.to_nat 10000) 1); [exact index_agrees_99|lia].
Qed.

Lemma round_half_up_bounds k m : 0 <= k <= 100 -> 0 <= m ->
  0 <= round_half_up (k * m) 100 <= m.
Proof.
  intros Hk Hm. unfold round_half_up. split.
  - apply Z.div_pos; nia.
  - assert ((2 * (k * m) + 100) / (2 * 100) < m + 1); [|lia].
    apply Z.div_lt_upper_bound; nia.
Qed.

(** C2, as stated, fails on the code. On the sorted slice [0 .. 90] the
    35th percentile has the exact rank [0.35 * 90 = 31.5], which rounds to
    32, but binary64 evaluates [35.0 / 100.0 * 90.0] just below [31.5] and
    the code returns the element of index 31; and a negative percentile is
    not clamped to index 0: with [p = -200] on two elements the code
    indexes [-1] and panics. *)
Lemma calculatePercentile_not_nearest_rank :
  ~ (forall (sortedValues : list Z) (p : Z),
        calculatePercentile sortedValues (Float64.of_int p)
        = Returns (spec_percentile sortedValues p)).
Proof.
  intros H. specialize (H (map Z.of_nat (seq 0 91)) 35).
  vm_compute in H. discriminate.
Qed.

(** C2, amended. [calculatePercentile] returns 0 for an empty slice. For a
    non-empty slice of [n <= 2 ^ 53] elements and a float64 percentile
    with [0 <= p <= 100] it returns the element at index [min i (n - 1)],
    where [i = int(p / 100.0 * float64(n - 1) + 0.5)] is evaluated in
    binary64 and is a non-negative integer; only the upper bound is
    clamped. For the percentiles that the program uses (50, 95 and 99)
    and [n <= 10000], [i] is the exact nearest rank
    [round(p/100 * (n-1))] and the result is the specification's
    percentile. The 95th percentile of [1 .. 100] is the element of index
    94, the value 95. *)
Theorem calculatePercentile_spec
    (sortedValues : list Z) (percentile : spec_float) (used : list Z) (k : Z) :
  sortedValues <> [] ->
  len sortedValues <= 2 ^ 53 ->
  valid_binary Float64.prec Float64.emax percentile = true ->
  Float64.leb Float64.zero percentile = true ->
  Float64.leb percentile Float64.hundred = true ->
  used <> [] -> len used <= 10000 -> k = 50 \/ k = 95 \/ k = 99 ->
  calculatePercentile [] percentile = Returns 0 /\
  (exists i v,
      roundedIndex0 (len sortedValues) percentile = Some i /\ 0 <= i /\
      sortedValues !! Z.to_nat (Z.min i (len sortedValues - 1)) = Some v /\
      calculatePercentile sortedValues percentile = Returns v) /\
  (roundedIndex0 (len used) (Float64.of_int k)
   = Some (round_half_up (k * (len used - 1)) 100) /\
   calculatePercentile used (Float64.of_int k) = Returns (spec_percentile used k)) /\
  (roundedIndex0 100 (Float64.of_int 95) = Some 94 /\
   calculatePercentile (map Z.of_nat (seq 1 100)) (Float64.of_int 95) = Returns 95).
Proof.
  intros Hne Hlen V L0 L1 Hune Hulen Hk.
  split; [reflexivity|]. split; [|split; [|split; vm_compute; reflexivity]].
  - assert (Hl : 1 <= len sortedValues).
    { pose proof (len_nonneg sortedValues). pose proof (len_zero_iff sortedValues).
      destruct (Z.eq_dec (len sortedValues) 0); [tauto|lia]. }
    destruct (roundedIndex0_in_domain (len sortedValues) percentile Hl Hlen V L0 L1) as [Hi Hr].
    set (i := idx_val _ _) in *.
    destruct (calculatePercentile_at sortedValues percentile i Hl Hi ltac:(lia)) as (v & Hv & Hlk).
    exists i, v. repeat split; auto; lia.
  - assert (Hl : 1 <= len used).
    { pose proof (len_nonneg used). pose proof (len_zero_iff used).
      destruct (Z.eq_dec (len used) 0); [tauto|lia]. }
    pose proof (roundedIndex0_nearest_rank (len used) k ltac:(lia) Hk) as Hi.
    split; [exact Hi|].
    pose proof (round_half_up_bounds k (len used - 1) ltac:(lia) ltac:(lia)) as Hb.
    destruct (calculatePercentile_at used (Float64.of_int k) _ Hl Hi ltac:(lia)) as (v & Hv & Hlk).
    rewrite Hv. f_equal. unfold spec_percentile, spec_index.
    destruct used as [|a used']; [congruence|].
    rewrite <- (nth_lookup_Some _ _ 0 _ Hlk). f_equal. f_equal. lia.
Qed.

Lemma calculatePercentile_spec_witness :
  calculatePercentile [] (Float64.of_int 95) = Returns 0 /\
  (exists i v,
      roundedIndex0 (len [3; 5; 8]) (Float64.of_int 95) = Some i /\ 0 <= i /\
      [3; 5; 8] !! Z.to_nat (Z.min i (len [3; 5; 8] - 1)) = Some v /\
      calculatePercentile [3; 5; 8] (Float64.of_int 95) = Returns v) /\
  (roundedIndex0 (len [3; 5; 8]) (Float64.of_int 95)
   = Some (round_half_up (95 * (len [3; 5; 8] - 1)) 100) /\
   calculatePercentile [3; 5; 8] (Float64.of_int 95) = Returns (spec_percentile [3; 5; 8] 95)) /\
  (roundedIndex0 100 (Float64.of_int 95) = Some 94 /\
   calculatePercentile (map Z.of_nat (seq 1 100)) (Float64.of_int 95) = Returns 95).
Proof.
  apply (calculatePercentile_spec [3; 5; 8] (Float64.of_int 95) [3; 5; 8] 95).
  - discriminate.
  - vm_compute. discriminate.
  - vm_compute. reflexivity.
  - vm_compute. reflexivity.
  - vm_compute. reflexivity.
  - discriminate.
  - vm_compute. discriminate.
  - right. left. reflexivity.
Defined.

(** ** Pacing *)

Lemma wrap_in_range z : GoInt.in_range z -> GoInt.wrap z = z.
Proof.
  unfold GoInt.in_range, GoInt.wrap, GoInt.min_int, GoInt.max_int, GoInt.bits.
  intros H. change (2 ^ (64 - 1)) with 9223372036854775808 in *.
  change (2 ^ 64) with 18446744073709551616.
  rewrite Z.mod_small; lia.
Qed.

Lemma go_div_nonneg a b : 0 <= a <= GoInt.max_int -> 0 < b ->
  go_div a b = Returns (a / b).
Proof.
  intros Ha Hb. unfold go_div, GoInt.div. destruct (Z.eqb_spec b 0); [lia|].
  rewrite Z.quot_div_nonneg by lia.
  rewrite wrap_in_range; [reflexivity|].
  assert (0 <= a / b) by (apply Z.div_pos; lia).
  assert (a / b <= a) by (apply Z.div_le_upper_bound; nia).
  unfold GoInt.in_range, GoInt.min_int, GoInt.max_int, GoInt.bits in *.
  change (2 ^ (64 - 1)) with 9223372036854775808 in *. lia.
Qed.

(** C5. For [N >= 1] and [D >= 1] (with [D * 1000] within the machine
    integers, as for every validated duration), the interval is
    [(D / 2) * 1000 / N] in burst mode and [D * 1000 / N] in every other
    mode, by integer division; the function returns it also when it is 0. *)
Theorem calculateInterval_spec (config : TestConfig.t) :
  let N := TestConfig.TotalRequests config in
  let D := TestConfig.Duration config in
  1 <= N -> 1 <= D -> D * 1000 <= GoInt.max_int ->
  calculateInterval config
  = Returns (if String.eqb (TestConfig.TestMode config) "burst"
             then (D / 2) * 1000 / N
             else D * 1000 / N) /\
  (D * 1000 < N -> calculateInterval config = Returns 0).
Proof.
  intros N D HN HD Hmax.
  assert (Hm : GoInt.max_int = 9223372036854775807) by reflexivity.
  assert (E : calculateInterval config
              = Returns (if String.eqb (TestConfig.TestMode config) "burst"
                         then (D / 2) * 1000 / N else D * 1000 / N)).
  { unfold calculateInterval. fold N D. destruct (String.eqb _ "burst").
    - rewrite (go_div_nonneg D 2) by lia. cbn [mbind go_result_bind go_bind].
      assert (0 <= D / 2 <= D) by (split; [apply Z.div_pos|apply Z.div_le_upper_bound]; lia).
      unfold GoInt.mul. rewrite wrap_in_range.
      + apply go_div_nonneg; lia.
      + unfold GoInt.in_range, GoInt.min_int, GoInt.bits. rewrite Hm.
        change (2 ^ (64 - 1)) with 9223372036854775808. lia.
    - unfold GoInt.mul. rewrite wrap_in_range.
      + apply go_div_nonneg; lia.
      + unfold GoInt.in_range, GoInt.min_int, GoInt.bits. rewrite Hm.
        change (2 ^ (64 - 1)) with 9223372036854775808. lia. }
  split; [exact E|]. intros Hsmall. rewrite E. f_equal.
  assert (0 <= D / 2 <= D) by (split; [apply Z.div_pos|apply Z.div_le_upper_bound]; lia).
  destruct (String.eqb _ "burst"); apply Z.div_small; lia.
Qed.

Lemma calculateInterval_spec_witness :
  calculateInterval (sample_config 10 10 "burst") = Returns 500 /\
  (10 * 1000 < 10 -> calculateInterval (sample_config 10 10 "burst") = Returns 0).
Proof.
  apply (calculateInterval_spec (sample_config 10 10 "burst")).
  - cbn. lia.
  - cbn. lia.
  - vm_compute. discriminate.
Defined.

(** ** Attack injection *)

Lemma strings_Contains_question url :
  strings_Contains url "?" = true <-> has_query url.
Proof.
  unfold has_query. induction url as [|c url IH]; cbn [strings_Contains list_ascii_of_string].
  - cbn. split; [discriminate|tauto].
  - cbn [String.prefix]. destruct (ascii_dec "?" c) as [<-|Hc].
    + destruct url; cbn; split; auto.
    + rewrite IH. cbn [In]. split; [auto|]. intros [H|H]; [|exact H].
      exfalso. apply Hc. symmetry. exact H.
Qed.

(** C7. For the method GET (or no method) and a non-empty selected payload
    [P], [BuildAttackRequest] returns the configured URL followed by
    [?id=P&search=P] when the URL has no question mark and by
    [&id=P&search=P] when it has one. *)
Theorem BuildAttackRequest_GET_url
    (pools : AttackPayloads.t) (config : TestConfig.t) (g : rng) (P : string) :
  TestConfig.HTTPMethod config = "GET" \/ TestConfig.HTTPMethod config = EmptyString ->
  selected_payload pools g = P -> P <> EmptyString ->
  let url := TestConfig.TargetURL config in
  let result := AttackRequest.url (fst (BuildAttackRequest pools config g)) in
  (~ has_query url -> result = url +:+ "?id=" +:+ P +:+ "&search=" +:+ P) /\
  (has_query url -> result = url +:+ "&id=" +:+ P +:+ "&search=" +:+ P).
Proof.
  intros Hmethod Hsel HP url result. unfold result, BuildAttackRequest, selected_payload in *.
  destruct (GetRandomAttackType g) as [attackType g1].
  destruct (GetRandomPayload pools attackType g1) as [payload g2]. cbn [fst] in Hsel. subst payload.
  rewrite (proj2 (String.eqb_neq P EmptyString) HP).
  assert (Hm : String.eqb (TestConfig.HTTPMethod config) "GET"
               || String.eqb (TestConfig.HTTPMethod config) EmptyString = true).
  { destruct Hmethod as [-> | ->]; reflexivity. }
  rewrite Hm. destruct (GetRandomUserAgent pools g2) as [ua g3]. cbn [fst AttackRequest.url].
  fold url. pose proof (strings_Contains_question url) as Hq.
  destruct (strings_Contains url "?"); split; intros H.
  - exfalso. apply H, Hq. reflexivity.
  - reflexivity.
  - reflexivity.
  - apply Hq in H. discriminate.
Qed.

Lemma BuildAttackRequest_GET_url_witness :
  (~ has_query "http://x/y" ->
   AttackRequest.url (fst (BuildAttackRequest (pools_of "P")
                             (sample_config 10 10 "baseline") []))
   = "http://x/y?id=P&search=P") /\
  (has_query "http://x/y" ->
   AttackRequest.url (fst (BuildAttackRequest (pools_of "P")
                             (sample_config 10 10 "baseline") []))
   = "http://x/y&id=P&search=P").
Proof.
  apply (BuildAttackRequest_GET_url (pools_of "P") (sample_config 10 10 "baseline") [] "P").
  - left. reflexivity.
  - reflexivity.
  - discriminate.
Defined.

(** The two examples of the claim, computed. *)
Example BuildAttackRequest_GET_examples :
  AttackRequest.url (fst (BuildAttackRequest (pools_of "P")
                            (sample_config 10 10 "baseline") [])) = "http://x/y?id=P&search=P"
  /\ AttackRequest.url
       (fst (BuildAttackRequest (pools_of "P")
               (TestConfig.mk "http://x/y?a=1" 10 10 "attack" false EmptyString EmptyString
                  "baseline" EmptyString ∅ EmptyString) [7; 3]))
     = "http://x/y?a=1&id=P&search=P".
Proof. split; reflexivity. Qed.

(** ** Validation *)

Lemma none_of_spec s a b c : none_of s a b c = true <-> ~ In s [a; b; c].
Proof.
  unfold none_of. cbn [In].
  destruct (String.eqb_spec s a), (String.eqb_spec s b), (String.eqb_spec s c);
    cbn; split; try discriminate; try tauto; intros; intuition congruence.
Qed.

Lemma validateConfig_spec (c : TestConfig.t) :
  (invalid_config c /\ exists message, validateConfig c = inl message)
  \/ (~ invalid_config c /\ validateConfig c = inr (with_defaults c)).
Proof.
  unfold validateConfig, invalid_config.
  destruct (String.eqb_spec (TestConfig.TargetURL c) EmptyString) as [E1|E1];
    [left; split; eauto|].
  destruct (Z.leb_spec (TestConfig.TotalRequests c) 0);
    [left; split; [right; left; lia|eauto]|].
  destruct (Z.ltb_spec 10000 (TestConfig.TotalRequests c));
    [left; split; [do 2 right; left; lia|eauto]|].
  destruct (Z.leb_spec (TestConfig.Duration c) 0);
    [left; split; [do 3 right; left; lia|eauto]|].
  destruct (Z.ltb_spec 3600 (TestConfig.Duration c));
    [left; split; [do 4 right; left; lia|eauto]|].
  destruct (none_of (TestConfig.TrafficType c) _ _ _) eqn:T;
    [left; split; [do 5 right; left; apply none_of_spec; exact T|eauto]|].
  destruct (none_of (TestConfig.TestMode c) _ _ _) eqn:M;
    [left; split; [do 6 right; left; apply none_of_spec; exact M|eauto]|].
  destruct (none_of (TestConfig.UserAgentType c) _ _ _) eqn:U;
    [left; split; [do 7 right; apply none_of_spec; exact U|eauto]|].
  right. split; [|reflexivity].
  assert (T' : ~ ~ In (TestConfig.TrafficType c) [EmptyString; "normal"; "attack"]).
  { intros X. apply none_of_spec in X. congruence. }
  assert (M' : ~ ~ In (TestConfig.TestMode c) [EmptyString; "baseline"; "burst"]).
  { intros X. apply none_of_spec in X. congruence. }
  assert (U' : ~ ~ In (TestConfig.UserAgentType c) [EmptyString; "legitimate"; "scanner"]).
  { intros X. apply none_of_spec in X. congruence. }
  intros [X|[X|[X|[X|[X|[X|[X|X]]]]]]]; try lia; tauto.
Qed.

(** C9. A request to start a streaming session is answered with an error
    and nothing is started if and only if the decoded configuration is one
    that the contract refuses: an empty target URL, [totalRequests]
    outside [1 .. 10000], [duration] outside [1 .. 3600], or a traffic
    type, test mode or user-agent type that is neither empty nor one of
    its two values. An accepted configuration is streamed with empty
    traffic type, test mode and method defaulted to normal, baseline and
    GET. In no case is a session started on a refused configuration. *)
Theorem handleStartTestStream_validation (c : TestConfig.t) :
  ((exists status message,
       handleStartTestStream "POST" (inr c) true = HttpError status message)
   <-> invalid_config c) /\
  (~ invalid_config c ->
   handleStartTestStream "POST" (inr c) true = Streamed (with_defaults c)) /\
  (forall method canFlush c',
      handleStartTestStream method (inr c) canFlush = Streamed c' ->
      ~ invalid_config c /\ c' = with_defaults c).
Proof.
  unfold handleStartTestStream. cbn [String.eqb negb].
  destruct (validateConfig_spec c) as [[Hi [message Hv]]|[Hv Hd]].
  - split; [|split].
    + rewrite Hv. split; [auto|]. intros _. eauto.
    + tauto.
    + intros method canFlush c'. rewrite Hv. destruct (negb _); discriminate.
  - split; [|split].
    + rewrite Hd. split; [|tauto]. intros (status & message & H). discriminate.
    + intros _. rewrite Hd. reflexivity.
    + intros method canFlush c'. rewrite Hd.
      destruct (negb _); [discriminate|]. destruct canFlush; [|discriminate].
      intros H. injection H as <-. auto.
Qed.

(** ** Request outcomes *)

Lemma sendRequest_outcome w pools id config g :
  let r := fst (sendRequest w pools id config g) in
  RequestResult.ID r = id /\
  RequestResult.WasBlocked r = is_blocked_status (RequestResult.Status r) /\
  (forall elapsed code header body,
      World.transport w id = DoResponse elapsed code header body ->
      RequestResult.Status r = code /\ RequestResult.ResponseTime r = elapsed) /\
  (forall elapsed err,
      World.transport w id = DoError elapsed err ->
      RequestResult.Status r = 0 /\ RequestResult.WasBlocked r = false) /\
  (forall err,
      World.transport w id = NewRequestError err ->
      RequestResult.Status r = 0 /\ RequestResult.WasBlocked r = false).
Proof.
  unfold sendRequest. repeat case_match; cbn; repeat split; intros; simplify_eq; reflexivity.
Qed.

Lemma is_blocked_status_iff code :
  is_blocked_status code = true <-> code = 403 \/ code = 406 \/ code = 429.
Proof. unfold is_blocked_status. lia. Qed.

(** ** Final statistics *)

Lemma wrap_add_l a b : GoInt.add (GoInt.wrap a) b = GoInt.wrap (a + b).
Proof.
  unfold GoInt.add, GoInt.wrap, GoInt.bits.
  change (2 ^ (64 - 1)) with 9223372036854775808. change (2 ^ 64) with 18446744073709551616.
  f_equal.
  replace ((a + 9223372036854775808) mod 18446744073709551616 - 9223372036854775808 + b
           + 9223372036854775808)
    with ((a + 9223372036854775808) mod 18446744073709551616 + b) by lia.
  rewrite Zplus_mod_idemp_l. f_equal. lia.
Qed.

(** The loop of [calculateStatistics], variable by variable. *)
Lemma stats_loop_responseTimes l a :
  StatsLoop.responseTimes (fold_left StatsLoop.step l a)
  = (StatsLoop.responseTimes a ++ response_times l)%list.
Proof.
  revert a. induction l as [|r l IH]; intros a; cbn [fold_left response_times map].
  - now rewrite app_nil_r.
  - rewrite IH. cbn [StatsLoop.step StatsLoop.responseTimes].
    rewrite <- app_assoc. reflexivity.
Qed.

Lemma stats_loop_total l a t :
  StatsLoop.totalResponseTime a = GoInt.wrap t ->
  StatsLoop.totalResponseTime (fold_left StatsLoop.step l a)
  = GoInt.wrap (t + sum_Z (response_times l)).
Proof.
  revert a t. induction l as [|r l IH]; intros a t Ha; cbn [fold_left response_times map sum_Z fold_right].
  - rewrite Z.add_0_r. exact Ha.
  - rewrite (IH _ (t + RequestResult.ResponseTime r)).
    + f_equal. unfold sum_Z, response_times. lia.
    + cbn [StatsLoop.step StatsLoop.totalResponseTime]. rewrite Ha. apply wrap_add_l.
Qed.

Lemma stats_loop_min l a :
  let m := StatsLoop.minResponse (fold_left StatsLoop.step l a) in
  m <= StatsLoop.minResponse a /\
  (forall r, In r l -> 0 < RequestResult.ResponseTime r -> m <= RequestResult.ResponseTime r) /\
  (m = StatsLoop.minResponse a \/
   exists r, In r l /\ RequestResult.ResponseTime r = m /\ 0 < m).
Proof.
  revert a. induction l as [|r l IH]; intros a; cbn [fold_left].
  - cbn. repeat split; [lia|tauto|auto].
  - specialize (IH (StatsLoop.step a r)). cbv zeta in IH |- *.
    set (m := StatsLoop.minResponse (fold_left StatsLoop.step l (StatsLoop.step a r))) in *.
    destruct IH as (I1 & I2 & I3).
    assert (S : StatsLoop.minResponse (StatsLoop.step a r)
                = if (RequestResult.ResponseTime r <? StatsLoop.minResponse a)
                     && (0 <? RequestResult.ResponseTime r)
                  then RequestResult.ResponseTime r else StatsLoop.minResponse a) by reflexivity.
    rewrite S in I1, I3. clear S.
    destruct (Z.ltb_spec (RequestResult.ResponseTime r) (StatsLoop.minResponse a)) as [L|L];
      destruct (Z.ltb_spec 0 (RequestResult.ResponseTime r)) as [P|P]; cbn [andb] in I1, I3.
    all: split; [lia|]; split.
    all: try (intros x [<-|Hx] Hpos; [lia|auto]).
    all: destruct I3 as [I3|(x & Hx & Hrt & Hpos)];
      [|right; exists x; cbn [In]; auto].
    + right. exists r. cbn [In]. split; [auto|]. split; lia.
    + left. exact I3.
    + left. exact I3.
    + left. exact I3.
Qed.

Lemma stats_loop_max l a :
  let m := StatsLoop.maxResponse (fold_left StatsLoop.step l a) in
  StatsLoop.maxResponse a <= m /\
  (forall r, In r l -> RequestResult.ResponseTime r <= m) /\
  (m = StatsLoop.maxResponse a \/ exists r, In r l /\ RequestResult.ResponseTime r = m).
Proof.
  revert a. induction l as [|r l IH]; intros a; cbn [fold_left].
  - cbn. repeat split; [lia|tauto|auto].
  - specialize (IH (StatsLoop.step a r)). cbv zeta in IH |- *.
    set (m := StatsLoop.maxResponse (fold_left StatsLoop.step l (StatsLoop.step a r))) in *.
    destruct IH as (I1 & I2 & I3).
    assert (S : StatsLoop.maxResponse (StatsLoop.step a r)
                = if StatsLoop.maxResponse a <? RequestResult.ResponseTime r
                  then RequestResult.ResponseTime r else StatsLoop.maxResponse a) by reflexivity.
    rewrite S in I1, I3. clear S.
    destruct (Z.ltb_spec (StatsLoop.maxResponse a) (RequestResult.ResponseTime r)) as [L|L].
    all: split; [lia|]; split.
    all: try (intros x [<-|Hx]; [lia|auto]).
    all: destruct I3 as [I3|(x & Hx & Hrt)]; [|right; exists x; cbn [In]; auto].
    + right. exists r. cbn [In]. split; [auto|lia].
    + left. exact I3.
Qed.

(** [calculateStatistics] returns, and what it leaves unchanged. *)
Lemma calculateStatistics_returns (result : TestResult.t) :
  TestResult.TotalRequests result = len (TestResult.Requests result) ->
  len (TestResult.Requests result) <= 2 ^ 53 ->
  let a := fold_left StatsLoop.step (TestResult.Requests result) StatsLoop.init in
  exists r,
    calculateStatistics result = Returns r /\
    TestResult.TestID r = TestResult.TestID result /\
    TestResult.TotalRequests r = TestResult.TotalRequests result /\
    TestResult.Requests r = TestResult.Requests result /\
    TestResult.RateLimitHit r = TestResult.RateLimitHit result /\
    TestResult.RateLimitAt r = TestResult.RateLimitAt result /\
    TestResult.BlockedCount r = StatsLoop.blockedCount a /\
    (TestResult.Requests result <> [] ->
     TestResult.AvgResponse r
     = GoInt.wrap (Z.quot (StatsLoop.totalResponseTime a) (len (TestResult.Requests result)))) /\
    TestResult.MinResponse r
    = (if StatsLoop.minResponse a =? 999999 then 0 else StatsLoop.minResponse a) /\
    TestResult.MaxResponse r = StatsLoop.maxResponse a /\
    TestResult.P50Response r <= TestResult.P95Response r <= TestResult.P99Response r.
Proof.
  intros Htotal Hlen a. unfold calculateStatistics. fold a. rewrite Htotal.
  assert (Hrt : len (StatsLoop.responseTimes a) <= 2 ^ 53).
  { unfold a. rewrite stats_loop_responseTimes. cbn [StatsLoop.init StatsLoop.responseTimes app].
    unfold response_times, len in *. rewrite length_map. exact Hlen. }
  destruct (calculateResponseTimePercentiles_ordered _ Hrt) as (p50 & p95 & p99 & Hp & Hord).
  rewrite Hp. pose proof (len_nonneg (TestResult.Requests result)) as Hn.
  destruct (Z.ltb_spec 0 (len (TestResult.Requests result))) as [Hpos|Hzero].
  - unfold go_div, GoInt.div.
    destruct (Z.eqb_spec (len (TestResult.Requests result)) 0); [lia|].
    eexists. split; [reflexivity|]. cbn. repeat split; auto; lia.
  - eexists. split; [reflexivity|]. cbn. repeat split; auto; try lia.
    intros Hne. exfalso. apply Hne, len_zero_iff. lia.
Qed.

Lemma quot_in_range x n : GoInt.in_range x -> 1 <= n -> GoInt.wrap (Z.quot x n) = Z.quot x n.
Proof.
  intros Hx Hn. apply wrap_in_range.
  unfold GoInt.in_range, GoInt.min_int, GoInt.max_int, GoInt.bits in *.
  change (2 ^ (64 - 1)) with 9223372036854775808 in *.
  destruct (Z_le_gt_dec 0 x) as [P|P].
  - rewrite Z.quot_div_nonneg by lia.
    assert (0 <= x / n) by (apply Z.div_pos; lia).
    assert (x / n <= x) by (apply Z.div_le_upper_bound; nia). lia.
  - replace x with (- (- x)) by lia. rewrite Z.quot_opp_l by lia.
    rewrite Z.quot_div_nonneg by lia.
    assert (0 <= (- x) / n) by (apply Z.div_pos; lia).
    assert ((- x) / n <= - x) by (apply Z.div_le_upper_bound; nia). lia.
Qed.

(** The final statistics of any non-empty outcome list, in terms of
    the loop: [AvgResponse] is the machine-integer quotient of the
    (wrapped) sum of the response times by their count, the truncated
    quotient [sum / count] whenever the sum is a machine integer;
    [MinResponse] is the least response time strictly between 0 and the
    999999 with which the loop starts, or 0 if there is none;
    [MaxResponse] is the greatest of 0 and of all response times. *)
Lemma final_statistics_general
    (testID : string) (requests : list RequestResult.t) (startTime now : Z) :
  requests <> [] -> len requests <= 2 ^ 53 ->
  exists r,
    buildFinalResult testID requests startTime now = Returns r /\
    let latencies := response_times requests in
    TestResult.AvgResponse r
    = GoInt.wrap (Z.quot (GoInt.wrap (sum_Z latencies)) (len requests)) /\
    (GoInt.in_range (sum_Z latencies) ->
     TestResult.AvgResponse r = Z.quot (sum_Z latencies) (len requests)) /\
    ((forall t, In t latencies -> ~ 0 < t < 999999) -> TestResult.MinResponse r = 0) /\
    ((exists t, In t latencies /\ 0 < t < 999999) ->
     In (TestResult.MinResponse r) latencies /\
     0 < TestResult.MinResponse r < 999999 /\
     forall t, In t latencies -> 0 < t -> TestResult.MinResponse r <= t) /\
    0 <= TestResult.MaxResponse r /\
    (forall t, In t latencies -> t <= TestResult.MaxResponse r) /\
    (TestResult.MaxResponse r = 0 \/ In (TestResult.MaxResponse r) latencies).
Proof.
  intros Hne Hlen. unfold buildFinalResult.
  destruct (calculateStatistics_returns
              (TestResult.mk testID (len requests) 0 0 0 0 0 0 0 0 0 requests false 0
                 startTime now) eq_refl Hlen)
    as (r & Hr & _ & _ & _ & _ & _ & _ & Havg & Hmin & Hmax & _).
  cbn [TestResult.Requests] in *. exists r. split; [exact Hr|]. cbv zeta.
  set (a := fold_left StatsLoop.step requests StatsLoop.init) in *.
  assert (Hn : 1 <= len requests).
  { pose proof (len_nonneg requests). pose proof (len_zero_iff requests).
    destruct (Z.eq_dec (len requests) 0); [tauto|lia]. }
  assert (Htot : StatsLoop.totalResponseTime a = GoInt.wrap (sum_Z (response_times requests))).
  { unfold a. rewrite (stats_loop_total requests StatsLoop.init 0); [reflexivity|].
    vm_compute. reflexivity. }
  pose proof (stats_loop_min requests StatsLoop.init) as (M1 & M2 & M3).
  pose proof (stats_loop_max requests StatsLoop.init) as (X1 & X2 & X3).
  fold a in M1, M2, M3, X1, X2, X3. cbn [StatsLoop.init StatsLoop.minResponse StatsLoop.maxResponse] in *.
  assert (Hin : forall t, In t (response_times requests) <->
                          exists x, In x requests /\ RequestResult.ResponseTime x = t).
  { intros t. unfold response_times. rewrite in_map_iff. split; intros (x & ? & ?); eauto. }
  rewrite Havg by exact Hne. rewrite Htot, Hmin, Hmax.
  split; [reflexivity|]. split.
  { intros Hr'. rewrite (wrap_in_range _ Hr'). apply quot_in_range; auto. }
  split.
  { intros Hnone. destruct (Z.eqb_spec (StatsLoop.minResponse a) 999999); [reflexivity|].
    destruct M3 as [M3|(x & Hx & Hrt & Hpos)]; [contradiction|].
    exfalso. apply (Hnone (StatsLoop.minResponse a)); [apply Hin; eauto|lia]. }
  split.
  { intros (t & Ht & Hrange). apply Hin in Ht as (x & Hx & Hxt).
    pose proof (M2 x Hx ltac:(lia)) as Hle.
    destruct (Z.eqb_spec (StatsLoop.minResponse a) 999999); [lia|].
    destruct M3 as [M3|(y & Hy & Hrt & Hpos)]; [contradiction|].
    split; [apply Hin; eauto|]. split; [lia|].
    intros t' Ht' Hpos'. apply Hin in Ht' as (z & Hz & <-). apply M2; auto. }
  split; [exact X1|]. split.
  { intros t Ht. apply Hin in Ht as (x & Hx & <-). apply X2; auto. }
  destruct X3 as [X3|(x & Hx & Hrt)]; [left; exact X3|right; apply Hin; eauto].
Qed.

Lemma sum_Z_bounds (l : list Z) a b :
  (forall t, In t l -> a <= t <= b) -> len l * a <= sum_Z l <= len l * b.
Proof.
  induction l as [|x l IH]; intros H; [unfold len; cbn; lia|].
  assert (Hl : len (x :: l) = len l + 1) by (unfold len; cbn [length]; lia).
  rewrite Hl. cbn [sum_Z fold_right]. fold (sum_Z l).
  pose proof (H x ltac:(cbn; auto)).
  assert (len l * a <= sum_Z l <= len l * b) by (apply IH; intros; apply H; cbn; auto).
  lia.
Qed.

Lemma fold_min_spec (ts : list Z) (t : Z) :
  let m := fold_left Z.min ts t in
  In m (t :: ts) /\ forall x, In x (t :: ts) -> m <= x.
Proof.
  revert t. induction ts as [|u ts IH]; intros t; cbn [fold_left].
  - split; [cbn; auto|]. intros x [<-|[]]. lia.
  - destruct (IH (Z.min t u)) as [Hin Hle]. split.
    + destruct Hin as [Hin|Hin]; [|cbn; auto].
      rewrite <- Hin. destruct (Z.min_spec t u) as [[_ ->]|[_ ->]]; cbn; auto.
    + intros x [<-|[<-|Hx]].
      * etransitivity; [apply Hle; cbn; auto|]. lia.
      * etransitivity; [apply Hle; cbn; auto|]. lia.
      * apply Hle. cbn; auto.
Qed.

Lemma fold_max_spec (ts : list Z) (t : Z) :
  let m := fold_left Z.max ts t in
  In m (t :: ts) /\ forall x, In x (t :: ts) -> x <= m.
Proof.
  revert t. induction ts as [|u ts IH]; intros t; cbn [fold_left].
  - split; [cbn; auto|]. intros x [<-|[]]. lia.
  - destruct (IH (Z.max t u)) as [Hin Hle]. split.
    + destruct Hin as [Hin|Hin]; [|cbn; auto].
      rewrite <- Hin. destruct (Z.max_spec t u) as [[_ ->]|[_ ->]]; cbn; auto.
    + intros x [<-|[<-|Hx]].
      * etransitivity; [|apply Hle; cbn; auto]. lia.
      * etransitivity; [|apply Hle; cbn; auto]. lia.
      * apply Hle. cbn; auto.
Qed.

Lemma spec_min_positive_spec (latencies : list Z) :
  ((forall t, In t latencies -> ~ 0 < t) -> spec_min_positive latencies = 0) /\
  (forall t, In t latencies -> 0 < t ->
     In (spec_min_positive latencies) latencies /\ 0 < spec_min_positive latencies /\
     forall x, In x latencies -> 0 < x -> spec_min_positive latencies <= x).
Proof.
  unfold spec_min_positive.
  assert (Hf : forall x, In x (filter (fun t => 0 < t) latencies) <-> In x latencies /\ 0 < x).
  { intros x. rewrite <- !list_elem_of_In, list_elem_of_filter. tauto. }
  destruct (filter (fun t => 0 < t) latencies) as [|u us].
  - split; [reflexivity|]. intros t Ht Hpos. exfalso. apply (Hf t). auto.
  - destruct (fold_min_spec us u) as [Hin Hle]. split.
    + intros Hnone. exfalso. destruct (proj1 (Hf u) ltac:(cbn; auto)) as [Hu Hpos].
      exact (Hnone u Hu Hpos).
    + intros _ _ _. apply Hf in Hin as [Hin Hpos]. split; [exact Hin|]. split; [exact Hpos|].
      intros x Hx Hxpos. apply Hle, Hf. auto.
Qed.

Lemma some_positive_dec (latencies : list Z) :
  (exists t, In t latencies /\ 0 < t) \/ (forall t, In t latencies -> ~ 0 < t).
Proof.
  induction latencies as [|u us [(t & Ht & Hpos)|Hno]].
  - right. intros t [].
  - left. exists t. cbn. auto.
  - destruct (Z_lt_dec 0 u) as [Hu|Hu].
    + left. exists u. cbn. auto.
    + right. intros t [<-|Ht]; auto.
Qed.

(** C6. For every non-empty outcome list whose response times lie in
    [0, 999999), below the value with which the loop starts its minimum
    (a request under the client time-out of 30 s records far less), and
    which holds at most [2 ^ 40] outcomes, the final statistics are
    returned with: [AvgResponse] the integer quotient of the sum of all
    response times by their count; [MinResponse] the minimum of the
    response times that are strictly greater than 0, or 0 if there is
    none; [MaxResponse] the maximum over all response times, those equal
    to 0 included. *)
Theorem final_statistics_spec
    (testID : string) (requests : list RequestResult.t) (startTime now : Z) :
  requests <> [] -> len requests <= 2 ^ 40 ->
  (forall t, In t (response_times requests) -> 0 <= t < 999999) ->
  exists r,
    buildFinalResult testID requests startTime now = Returns r /\
    TestResult.AvgResponse r = spec_average (response_times requests) /\
    TestResult.MinResponse r = spec_min_positive (response_times requests) /\
    TestResult.MaxResponse r = spec_max (response_times requests).
Proof.
  intros Hne Hlen Hrange.
  assert (Hlen' : len requests <= 2 ^ 53) by (change (2 ^ 40) with 1099511627776 in Hlen;
                                               change (2 ^ 53) with 9007199254740992; lia).
  destruct (final_statistics_general testID requests startTime now Hne Hlen')
    as (r & Hr & Hstats).
  cbv zeta in Hstats. destruct Hstats as (_ & Havg & Hmin0 & Hmin & Hmax0 & Hmax & Hmaxin).
  set (latencies := response_times requests) in *.
  assert (Hl : len latencies = len requests).
  { unfold latencies, response_times, len. now rewrite length_map. }
  exists r. split; [exact Hr|]. split_and!.
  - unfold spec_average. rewrite Hl. apply Havg.
    pose proof (sum_Z_bounds latencies 0 999998) as Hsum.
    pose proof (len_nonneg requests).
    unfold GoInt.in_range. change GoInt.min_int with (-9223372036854775808).
    change GoInt.max_int with 9223372036854775807.
    change (2 ^ 40) with 1099511627776 in Hlen. rewrite Hl in Hsum.
    assert (len requests * 0 <= sum_Z latencies <= len requests * 999998).
    { apply Hsum. intros t Ht. pose proof (Hrange t Ht). lia. }
    lia.
  - destruct (spec_min_positive_spec latencies) as [Hnone Hsome].
    destruct (some_positive_dec latencies) as [(t & Ht & Hpos)|Hno].
    + destruct (Hsome t Ht Hpos) as (Sin & Spos & Sle).
      destruct (Hmin ltac:(exists t; split; [exact Ht|pose proof (Hrange t Ht); lia]))
        as (Min & Mrange & Mle).
      pose proof (Sle _ Min ltac:(lia)). pose proof (Mle _ Sin Spos). lia.
    + rewrite (Hnone Hno). apply Hmin0. intros t Ht [Hpos _]. exact (Hno t Ht Hpos).
  - unfold spec_max. destruct latencies as [|t ts] eqn:E.
    + exfalso. apply Hne. apply len_zero_iff. rewrite <- Hl. reflexivity.
    + destruct (fold_max_spec ts t) as [Sin Sle].
      destruct Hmaxin as [Hz|Hin].
      * pose proof (Hmax _ Sin). pose proof (Hrange _ Sin). lia.
      * pose proof (Sle _ Hin). pose proof (Hmax _ Sin). lia.
Qed.

Lemma final_statistics_spec_witness :
  exists r,
    buildFinalResult "test_0" [sample_outcome 1 200 120; sample_outcome 2 429 80] 0 9
    = Returns r /\
    TestResult.AvgResponse r
    = spec_average (response_times [sample_outcome 1 200 120; sample_outcome 2 429 80]) /\
    TestResult.MinResponse r
    = spec_min_positive (response_times [sample_outcome 1 200 120; sample_outcome 2 429 80]) /\
    TestResult.MaxResponse r
    = spec_max (response_times [sample_outcome 1 200 120; sample_outcome 2 429 80]).
Proof.
  apply (final_statistics_spec "test_0"
           [sample_outcome 1 200 120; sample_outcome 2 429 80] 0 9).
  - discriminate.
  - vm_compute. discriminate.
  - intros t Ht. cbn in Ht. destruct Ht as [<-|[<-|[]]]; lia.
Defined.

(** ** The synchronous run *)

Lemma go_div_returns a b : b <> 0 -> exists q, go_div a b = Returns q.
Proof.
  intros Hb. unfold go_div, GoInt.div. destruct (Z.eqb_spec b 0); [contradiction|eauto].
Qed.

Lemma calculateInterval_returns config :
  TestConfig.TotalRequests config <> 0 -> exists v, calculateInterval config = Returns v.
Proof.
  intros Hn. unfold calculateInterval. destruct (String.eqb _ _).
  - destruct (go_div_returns (TestConfig.Duration config) 2 ltac:(lia)) as [q ->].
    cbn [mbind go_result_bind go_bind]. apply go_div_returns. exact Hn.
  - apply go_div_returns. exact Hn.
Qed.

Lemma find_snoc {A} (f : A -> bool) l x :
  find f (l ++ [x]) = match find f l with
                      | Some y => Some y
                      | None => if f x then Some x else None
                      end.
Proof. induction l as [|a l IH]; cbn; [reflexivity|]. destruct (f a); auto. Qed.

(** The loop of [RunTest]: sequence numbers and rate-limit detection. *)
Lemma runLoop_spec w pools config fuel i st at0 :
  rate_limit_inv at0 (RunLoop.Requests st) (RunLoop.RateLimitHit st) (RunLoop.RateLimitAt st) ->
  let st' := runLoop w pools config fuel i st in
  ids (RunLoop.Requests st') = (ids (RunLoop.Requests st) ++ seqZ i (Z.of_nat fuel))%list /\
  rate_limit_inv at0 (RunLoop.Requests st') (RunLoop.RateLimitHit st')
    (RunLoop.RateLimitAt st') /\
  (Forall (fun x => RequestResult.WasBlocked x = is_blocked_status (RequestResult.Status x))
          (RunLoop.Requests st) ->
   Forall (fun x => RequestResult.WasBlocked x = is_blocked_status (RequestResult.Status x))
          (RunLoop.Requests st')).
Proof.
  revert i st. induction fuel as [|fuel IH]; intros i st Hinv; cbn [runLoop].
  - cbn. rewrite app_nil_r. auto.
  - pose proof (sendRequest_outcome w pools i config (RunLoop.gen st)) as (Hid & Hb & _).
    destruct (sendRequest w pools i config (RunLoop.gen st)) as [r g]. cbn [fst] in Hid, Hb.
    set (st1 := if RequestResult.WasBlocked r && negb (RunLoop.RateLimitHit st)
                then RunLoop.mk (RunLoop.Requests st ++ [r]) true i g
                else RunLoop.mk (RunLoop.Requests st ++ [r]) (RunLoop.RateLimitHit st)
                       (RunLoop.RateLimitAt st) g).
    assert (Hreq : RunLoop.Requests st1 = (RunLoop.Requests st ++ [r])%list).
    { unfold st1. destruct (_ && _); reflexivity. }
    assert (Hinv1 : rate_limit_inv at0 (RunLoop.Requests st1) (RunLoop.RateLimitHit st1)
                      (RunLoop.RateLimitAt st1)).
    { rewrite Hreq. unfold rate_limit_inv, first_blocked in *. rewrite find_snoc.
      destruct (find RequestResult.WasBlocked (RunLoop.Requests st)) as [x|];
        destruct Hinv as [Hh Ha]; unfold st1; rewrite Hh.
      - rewrite andb_false_r. cbn. auto.
      - rewrite andb_true_r. destruct (RequestResult.WasBlocked r); cbn; auto. }
    destruct (IH (i + 1) st1 Hinv1) as (I1 & I2 & I3). cbv zeta. fold st1. split; [|split].
    + rewrite I1, Hreq. unfold ids. rewrite map_app, <- app_assoc. cbn [map app].
      rewrite Hid. f_equal.
      rewrite (seqZ_cons i (Z.of_nat (S fuel))) by lia. f_equal. f_equal; lia.
    + exact I2.
    + intros HF. apply I3. rewrite Hreq. apply Forall_app. split; [exact HF|].
      constructor; [exact Hb|constructor].
Qed.

(** What [RunTest] returns for a positive number of requests. *)
Lemma RunTest_spec w pools config g :
  let N := TestConfig.TotalRequests config in
  1 <= N -> N <= 2 ^ 53 ->
  exists r,
    RunTest w pools config g = Returns r /\
    TestResult.TotalRequests r = N /\
    ids (TestResult.Requests r) = seqZ 1 N /\
    Forall (fun x => RequestResult.WasBlocked x = is_blocked_status (RequestResult.Status x))
           (TestResult.Requests r) /\
    rate_limit_inv 0 (TestResult.Requests r) (TestResult.RateLimitHit r)
      (TestResult.RateLimitAt r).
Proof.
  intros N H1 H2. unfold RunTest. fold N.
  destruct (calculateInterval_returns config ltac:(fold N; lia)) as [v ->].
  cbn [mbind go_result_bind go_bind].
  pose proof (runLoop_spec w pools config (Z.to_nat N) 1 (RunLoop.mk [] false 0 g) 0
                (conj eq_refl eq_refl)) as (I1 & I2 & I3).
  set (st := runLoop w pools config (Z.to_nat N) 1 (RunLoop.mk [] false 0 g)) in *.
  cbn [RunLoop.Requests RunLoop.RateLimitAt ids map app] in I1, I2, I3.
  rewrite Z2Nat.id in I1 by lia.
  assert (Hlen : len (RunLoop.Requests st) = N).
  { unfold len. rewrite <- (length_map RequestResult.ID). fold (ids (RunLoop.Requests st)).
    rewrite I1, length_seqZ. lia. }
  destruct (calculateStatistics_returns
              (TestResult.mk (test_id (World.clock w 0)) (len (RunLoop.Requests st))
                 0 0 0 0 0 0 0 0 0 (RunLoop.Requests st) (RunLoop.RateLimitHit st)
                 (RunLoop.RateLimitAt st) (World.clock w 0) (World.clock w (N + 1)))
              eq_refl ltac:(cbn [TestResult.Requests]; lia))
    as (r & Hr & _ & Ht & Hreq & Hhit & Hat & _).
  cbn [TestResult.Requests TestResult.TotalRequests TestResult.RateLimitHit
       TestResult.RateLimitAt] in *.
  exists r. split; [exact Hr|]. rewrite Ht, Hreq, Hhit, Hat.
  repeat split; auto.
Qed.

(** ** The streaming run *)

Lemma buildFinalResult_fields testID requests startTime now r :
  buildFinalResult testID requests startTime now = Returns r ->
  TestResult.Requests r = requests /\
  TestResult.TotalRequests r = len requests /\
  TestResult.RateLimitHit r = false /\ TestResult.RateLimitAt r = 0.
Proof.
  unfold buildFinalResult, calculateStatistics.
  cbn [TestResult.Requests TestResult.TotalRequests TestResult.AvgResponse
       TestResult.RateLimitHit TestResult.RateLimitAt TestResult.TestID
       TestResult.StartTime TestResult.EndTime].
  destruct (if 0 <? len requests then _ else _) as [avg| |];
    cbn [mbind go_result_bind go_bind]; try discriminate.
  destruct (calculateResponseTimePercentiles _) as [[[p50 p95] p99]| |];
    cbn [mbind go_result_bind go_bind]; try discriminate.
  intros H. injection H as <-. cbn. auto.
Qed.

Lemma buildFinalResult_returns testID requests startTime now :
  len requests <= 2 ^ 53 -> exists r, buildFinalResult testID requests startTime now = Returns r.
Proof.
  intros Hlen. unfold buildFinalResult.
  destruct (calculateStatistics_returns
              (TestResult.mk testID (len requests) 0 0 0 0 0 0 0 0 0 requests false 0
                 startTime now) eq_refl Hlen) as (r & Hr & _).
  eauto.
Qed.

Lemma calculateIncrementalStats_returns requests :
  exists stats, calculateIncrementalStats requests = Returns stats.
Proof.
  unfold calculateIncrementalStats. pose proof (len_nonneg requests).
  destruct (Z.ltb_spec 0 (len requests)).
  - destruct (go_div_returns
                (IncrementalLoop.totalResponseTime
                   (fold_left IncrementalLoop.step requests IncrementalLoop.init))
                (len requests) ltac:(lia)) as [q ->].
    cbn [mbind go_result_bind go_bind]. eauto.
  - eauto.
Qed.

Lemma add_one_small c : 0 <= c <= 2 ^ 53 -> GoInt.add c 1 = c + 1.
Proof.
  intros H. unfold GoInt.add. apply wrap_in_range.
  unfold GoInt.in_range, GoInt.min_int, GoInt.max_int, GoInt.bits.
  change (2 ^ (64 - 1)) with 9223372036854775808. change (2 ^ 53) with 9007199254740992 in H.
  lia.
Qed.

Lemma ids_app l1 l2 : ids (l1 ++ l2) = (ids l1 ++ ids l2)%list.
Proof. unfold ids. apply map_app. Qed.

Lemma len_ids l : len (ids l) = len l.
Proof. unfold len, ids. now rewrite length_map. Qed.

Lemma len_seqZ m n : 0 <= n -> len (seqZ m n) = n.
Proof. intros H. unfold len. rewrite length_seqZ. lia. Qed.

Lemma len_app {A} (l1 l2 : list A) : len (l1 ++ l2) = len l1 + len l2.
Proof. unfold len. rewrite length_app. lia. Qed.

Lemma seqZ_one m : seqZ m 1 = [m].
Proof. unfold seqZ. change (Z.to_nat 1) with 1%nat. cbn. f_equal. Qed.

Lemma stream_inv_start w config g :
  1 <= TestConfig.TotalRequests config ->
  stream_inv (TestConfig.TotalRequests config) (session_start w config g).
Proof.
  intros HN. split; [reflexivity|]. exists 0. cbn. unfold len. cbn.
  split_and!; try lia; auto.
  constructor; [|constructor]. intros H. discriminate.
Qed.

Lemma stream_inv_sender w pools config takeDone s s' :
  let N := TestConfig.TotalRequests config in
  1 <= N -> N <= 2 ^ 53 ->
  stream_inv N s -> sender_step w pools config takeDone s = Some s' ->
  stream_inv N s' /\ (session_measure N s' < session_measure N s)%nat.
Proof.
  intros N H1 H2 (Hc & k & Hk & Hids & Hcount & Hs & Hcol & Hev) Hstep.
  destruct s as [c pc g chan closed cpc all batch count evs].
  cbn [Session.cancelled Session.sender Session.gen Session.resultsChan
       Session.resultsChan_closed Session.collector Session.allRequests
       Session.batchRequests Session.completedCount Session.events] in *.
  subst c. unfold sender_step in Hstep.
  cbn [Session.cancelled Session.sender Session.gen Session.resultsChan] in Hstep.
  fold N in Hstep. unfold session_measure, collector_measure.
  destruct pc as [i|i r|i|].
  - (* loop head *)
    destruct Hs as [-> Hcl]. destruct (Z.ltb_spec N (k + 1)).
    + injection Hstep as <-. split.
      * split; [reflexivity|]. exists k. cbn. split_and!; auto; lia.
      * cbn. lia.
    + pose proof (sendRequest_outcome w pools (k + 1) config g) as (Hid & _).
      destruct (sendRequest w pools (k + 1) config g) as [r g']. cbn [fst] in Hid.
      injection Hstep as <-. split.
      * split; [reflexivity|]. exists k. cbn. split_and!; auto; lia.
      * cbn. lia.
  - (* enqueue *)
    destruct Hs as (-> & Hi & Hid & Hcl).
    destruct (resultsChan_capacity <=? len chan); [discriminate|].
    injection Hstep as <-. split.
    + split; [reflexivity|]. exists (k + 1).
      cbn [Session.cancelled Session.sender Session.gen Session.resultsChan
           Session.resultsChan_closed Session.collector Session.allRequests
           Session.batchRequests Session.completedCount Session.events sender_goto].
      split; [lia|]. split.
      { rewrite app_assoc, ids_app, Hids. cbn [ids map]. rewrite Hid.
        rewrite (seqZ_app 1 k 1) by lia. rewrite seqZ_one. do 2 f_equal. lia. }
      split; [exact Hcount|]. split; [|split; [exact Hcol|exact Hev]].
      destruct (Z.ltb_spec (k + 1) N); split_and!; auto; lia.
    + cbn. destruct (Z.ltb_spec (k + 1) N); cbn; lia.
  - (* interval wait *)
    destruct Hs as (-> & Hi & Hcl). cbn [andb] in Hstep. injection Hstep as <-. split.
    + split; [reflexivity|]. exists k. cbn. split_and!; auto; lia.
    + cbn. lia.
  - discriminate.
Qed.

Lemma stream_inv_collector w config secondElapsed s s' :
  let N := TestConfig.TotalRequests config in
  1 <= N -> N <= 2 ^ 53 ->
  stream_inv N s -> collector_step w config secondElapsed s = Some s' ->
  stream_inv N s' /\ (session_measure N s' < session_measure N s)%nat.
Proof.
  intros N H1 H2 (Hc & k & Hk & Hids & Hcount & Hs & Hcol & Hev) Hstep.
  destruct s as [c pc g chan closed cpc all batch count evs].
  cbn [Session.cancelled Session.sender Session.gen Session.resultsChan
       Session.resultsChan_closed Session.collector Session.allRequests
       Session.batchRequests Session.completedCount Session.events] in *.
  subst c count. unfold collector_step in Hstep.
  cbn [Session.cancelled Session.sender Session.gen Session.resultsChan
       Session.resultsChan_closed Session.collector Session.allRequests
       Session.batchRequests Session.completedCount Session.events] in Hstep.
  fold N in Hstep. unfold session_measure, collector_measure.
  assert (Hlen : len all + len chan = k).
  { rewrite <- len_app, <- len_ids, Hids. apply len_seqZ. lia. }
  pose proof (len_nonneg all) as Hall. pose proof (len_nonneg chan) as Hchan.
  destruct cpc.
  - (* receive *)
    destruct chan as [|r rest].
    + destruct closed; [|discriminate]. injection Hstep as <-.
      assert (Hk' : k = N) by (destruct pc; destruct Hs; intuition congruence).
      split.
      * split; [reflexivity|]. exists k. cbn. unfold len in *. cbn in *.
        split_and!; auto; lia.
      * cbn. unfold len in *. cbn in *. lia.
    + injection Hstep as <-. rewrite add_one_small by lia.
      assert (Hr : len (r :: rest) = 1 + len rest) by (unfold len; cbn; lia).
      split.
      * split; [reflexivity|]. exists k.
        cbn [Session.cancelled Session.sender Session.gen Session.resultsChan
             Session.resultsChan_closed Session.collector Session.allRequests
             Session.batchRequests Session.completedCount Session.events collector_goto].
        rewrite app_nil_r, len_app. change (len [r]) with 1.
        split; [lia|]. split; [rewrite <- app_assoc; exact Hids|].
        split; [reflexivity|]. split; [exact Hs|]. split; [lia|exact Hev].
      * cbn. rewrite len_app. change (len [r]) with 1. lia.
  - (* process *)
    assert (Hprog : forall ev, ProgressUpdate.Type_ ev = "progress" ->
                               Forall (complete_event_ok N) (evs ++ [ev])).
    { intros ev H. apply Forall_app. split; [exact Hev|].
      constructor; [|constructor]. intros H'. rewrite H in H'. discriminate. }
    destruct (calculateIncrementalStats_returns all) as [stats Hstats].
    destruct (go_div_returns (GoInt.mul (len all) 100) N ltac:(lia)) as [pct Hpct].
    rewrite Hstats, Hpct in Hstep. cbn [mbind go_result_bind go_bind] in Hstep.
    cbv zeta in Hstep.
    destruct (Z.leb_spec N (len all)) as [Hge|Hlt].
    + rewrite orb_true_r in Hstep. injection Hstep as <-. split.
      * split; [reflexivity|]. exists k. cbn. split_and!; auto; try lia.
      * cbn. lia.
    + destruct secondElapsed; cbn [orb] in Hstep; injection Hstep as <-.
      * split; [|cbn; lia].
        split; [reflexivity|]. exists k. cbn. split_and!; auto; try lia.
      * split; [|cbn; lia].
        split; [reflexivity|]. exists k. cbn. rewrite app_nil_r. split_and!; auto; try lia.
  - (* final result *)
    destruct (buildFinalResult_returns (test_id (World.clock w 0)) all (World.clock w 0)
                (World.clock w (len all)) ltac:(lia)) as [r Hr].
    rewrite Hr in Hstep. injection Hstep as <-.
    apply buildFinalResult_fields in Hr as (Hreq & Htot & _).
    assert (chan = []) by (destruct chan; [reflexivity|unfold len in *; cbn in *; lia]).
    subst chan. rewrite app_nil_r in Hids.
    assert (Hk' : k = N) by (unfold len in *; cbn in *; lia). rewrite Hk' in *.
    split.
    + split; [reflexivity|]. exists N. cbn. rewrite app_nil_r.
      split_and!; try exact Hids; auto; try lia.
      * eexists. split; [apply last_snoc|reflexivity].
      * apply Forall_app. split; [exact Hev|]. constructor; [|constructor].
        intros _. exists r. cbn. rewrite Hreq, Htot. split_and!; auto.
    + cbn. lia.
  - discriminate.
  - discriminate.
Qed.

(** Every step of a session that is not a cancellation keeps the invariant
    and brings the session closer to its end. *)
Lemma stream_inv_step w pools config a s s' :
  let N := TestConfig.TotalRequests config in
  1 <= N -> N <= 2 ^ 53 -> a <> ACancel ->
  stream_inv N s -> step w pools config a s = Some s' ->
  stream_inv N s' /\ (session_measure N s' < session_measure N s)%nat.
Proof.
  intros N H1 H2 Ha Hinv Hstep. destruct a as [|takeDone|secondElapsed]; [contradiction| |].
  - eapply stream_inv_sender; eauto.
  - eapply stream_inv_collector; eauto.
Qed.

Lemma stream_inv_exec w pools config schedule s s' :
  let N := TestConfig.TotalRequests config in
  1 <= N -> N <= 2 ^ 53 -> cancel_free schedule ->
  stream_inv N s -> exec w pools config schedule s = Some s' -> stream_inv N s'.
Proof.
  intros N H1 H2 Hfree. revert s. induction Hfree as [|a schedule Ha Hfree IH]; intros s Hinv Hexec.
  - cbn in Hexec. congruence.
  - cbn [exec] in Hexec. destruct (step w pools config a s) as [s1|] eqn:E; [|discriminate].
    apply (IH s1); [|exact Hexec].
    eapply stream_inv_step; eauto.
Qed.

(** A session that is never cancelled can always move until both
    goroutines have returned. *)
Lemma stream_inv_progress w pools config s :
  let N := TestConfig.TotalRequests config in
  1 <= N -> N <= 2 ^ 53 -> stream_inv N s ->
  stream_closed s = true \/
  exists a s', a <> ACancel /\ step w pools config a s = Some s'.
Proof.
  intros N H1 H2 Hinv.
  pose proof Hinv as (Hc & k & Hk & Hids & Hcount & Hs & Hcol & Hev).
  assert (Hlen : len (Session.allRequests s) + len (Session.resultsChan s) = k).
  { rewrite <- len_app, <- len_ids, Hids. apply len_seqZ. lia. }
  pose proof (len_nonneg (Session.allRequests s)) as Hall.
  pose proof (len_nonneg (Session.resultsChan s)) as Hchan.
  destruct (Session.collector s) eqn:Ecol.
  - (* the collector waits for a result: it or the sender can move *)
    destruct (Session.resultsChan s) as [|r rest] eqn:Echan.
    + destruct (Session.sender s) eqn:Esend.
      * right. exists (ASender false).
        destruct (sender_step w pools config false s) eqn:E; [eauto|exfalso].
        unfold sender_step in E. rewrite Esend, Hc in E.
        repeat case_match; discriminate.
      * right. exists (ASender false).
        destruct (sender_step w pools config false s) eqn:E; [eauto|exfalso].
        unfold sender_step in E. rewrite Esend, Hc, Echan in E.
        change (resultsChan_capacity <=? len []) with false in E. discriminate.
      * right. exists (ASender false).
        destruct (sender_step w pools config false s) eqn:E; [eauto|exfalso].
        unfold sender_step in E. rewrite Esend, Hc in E. discriminate.
      * right. exists (ACollector false). destruct Hs as [_ Hcl].
        cbn [step]. unfold collector_step. rewrite Ecol, Echan, Hcl. eauto.
    + right. exists (ACollector false). cbn [step]. unfold collector_step.
      rewrite Ecol, Echan. eauto.
  - right. exists (ACollector false). cbn [step].
    destruct (collector_step w config false s) eqn:E; [eauto|exfalso].
    unfold collector_step in E. rewrite Ecol, Hc in E. repeat case_match; discriminate.
  - right. exists (ACollector false). cbn [step].
    destruct (collector_step w config false s) eqn:E; [eauto|exfalso].
    unfold collector_step in E. rewrite Ecol in E. repeat case_match; discriminate.
  - (* the collector has returned: so will the sender *)
    destruct Hcol as [Hn _].
    destruct (Session.sender s) eqn:Esend.
    + right. exists (ASender false).
      destruct (sender_step w pools config false s) eqn:E; [eauto|exfalso].
      unfold sender_step in E. rewrite Esend, Hc in E. repeat case_match; discriminate.
    + destruct Hs as (? & ? & _). lia.
    + destruct Hs as (? & ? & _). lia.
    + left. unfold stream_closed. rewrite Esend, Ecol. reflexivity.
  - contradiction.
Qed.

(** Hence a session that is never cancelled runs to completion. *)
Lemma stream_completes w pools config s :
  let N := TestConfig.TotalRequests config in
  1 <= N -> N <= 2 ^ 53 -> stream_inv N s ->
  exists schedule s',
    cancel_free schedule /\ exec w pools config schedule s = Some s' /\
    stream_inv N s' /\ stream_closed s' = true.
Proof.
  intros N H1 H2. remember (session_measure N s) as m eqn:Hm.
  revert s Hm. induction m as [m IH] using lt_wf_ind. intros s Hm Hinv.
  destruct (stream_inv_progress w pools config s H1 H2 Hinv) as [Hcl|(a & s1 & Ha & Hstep)].
  - exists [], s. split; [constructor|]. auto.
  - destruct (stream_inv_step w pools config a s s1 H1 H2 Ha Hinv Hstep) as [Hinv1 Hlt].
    fold N in Hinv1, Hlt.
    destruct (IH (session_measure N s1) ltac:(lia) s1 eq_refl Hinv1)
      as (schedule & s' & Hfree & Hexec & Hinv' & Hcl).
    exists (a :: schedule), s'. split; [constructor; auto|].
    cbn [exec]. rewrite Hstep. auto.
Qed.

(** C1. For [totalRequests = N >= 1] (and [N <= 2 ^ 53], far above the
    limit of 10000 that validation enforces), a run to completion yields a
    final result with [TotalRequests = N] and exactly [N] outcomes whose
    sequence numbers are [1, 2, ..., N] in this order: [RunTest] returns
    such a result; in a streaming session that is never cancelled every
    "complete" event carries such a result; and such a session can always
    run until both goroutines have returned, its last event being the
    "complete" event. *)
Theorem completed_run_has_all_outcomes
    (w : World.t) (pools : AttackPayloads.t) (config : TestConfig.t) (g : rng) :
  let N := TestConfig.TotalRequests config in
  1 <= N -> N <= 2 ^ 53 ->
  (exists r,
      RunTest w pools config g = Returns r /\
      TestResult.TotalRequests r = N /\
      len (TestResult.Requests r) = N /\
      ids (TestResult.Requests r) = seqZ 1 N) /\
  (forall schedule s ev,
      cancel_free schedule ->
      exec w pools config schedule (session_start w config g) = Some s ->
      In ev (Session.events s) -> ProgressUpdate.Type_ ev = "complete" ->
      exists r,
        ProgressUpdate.FinalResult ev = Some r /\
        TestResult.TotalRequests r = N /\
        len (TestResult.Requests r) = N /\
        ids (TestResult.Requests r) = seqZ 1 N) /\
  (exists schedule s ev,
      cancel_free schedule /\
      exec w pools config schedule (session_start w config g) = Some s /\
      stream_closed s = true /\
      last (Session.events s) = Some ev /\ ProgressUpdate.Type_ ev = "complete").
Proof.
  intros N H1 H2.
  assert (Hlen : forall l, ids l = seqZ 1 N -> len l = N).
  { intros l Hl. rewrite <- len_ids, Hl. apply len_seqZ. lia. }
  pose proof (stream_inv_start w config g H1) as Hstart. fold N in Hstart.
  split; [|split].
  - destruct (RunTest_spec w pools config g H1 H2) as (r & Hr & Ht & Hids & _).
    exists r. split_and!; auto.
  - intros schedule s ev Hfree Hexec Hin Htype.
    pose proof (stream_inv_exec w pools config schedule _ s H1 H2 Hfree Hstart Hexec)
      as (_ & k & _ & _ & _ & _ & _ & Hev).
    rewrite Forall_forall in Hev. apply list_elem_of_In in Hin.
    destruct (Hev ev Hin Htype) as (r & Hf & Ht & Hids).
    exists r. split_and!; auto.
  - destruct (stream_completes w pools config _ H1 H2 Hstart)
      as (schedule & s & Hfree & Hexec & Hinv & Hcl).
    destruct Hinv as (_ & k & _ & _ & _ & _ & Hcol & _).
    pose proof Hcl as Hclosed. unfold stream_closed in Hcl.
    destruct (Session.sender s); try discriminate.
    destruct (Session.collector s); try discriminate.
    destruct Hcol as (_ & ev & Hlast & Htype).
    exists schedule, s, ev. split_and!; auto.
Qed.

Lemma completed_run_has_all_outcomes_witness :
  (exists r,
      RunTest (sample_world (fun _ => 200)) (pools_of "P")
        (sample_config 3 3 "baseline") [] = Returns r /\
      TestResult.TotalRequests r = 3 /\
      len (TestResult.Requests r) = 3 /\
      ids (TestResult.Requests r) = seqZ 1 3) /\
  (forall schedule s ev,
      cancel_free schedule ->
      exec (sample_world (fun _ => 200)) (pools_of "P") (sample_config 3 3 "baseline")
        schedule
        (session_start (sample_world (fun _ => 200)) (sample_config 3 3 "baseline") [])
      = Some s ->
      In ev (Session.events s) -> ProgressUpdate.Type_ ev = "complete" ->
      exists r,
        ProgressUpdate.FinalResult ev = Some r /\
        TestResult.TotalRequests r = 3 /\
        len (TestResult.Requests r) = 3 /\
        ids (TestResult.Requests r) = seqZ 1 3) /\
  (exists schedule s ev,
      cancel_free schedule /\
      exec (sample_world (fun _ => 200)) (pools_of "P") (sample_config 3 3 "baseline")
        schedule
        (session_start (sample_world (fun _ => 200)) (sample_config 3 3 "baseline") [])
      = Some s /\
      stream_closed s = true /\
      last (Session.events s) = Some ev /\ ProgressUpdate.Type_ ev = "complete").
Proof.
  apply (completed_run_has_all_outcomes (sample_world (fun _ => 200)) (pools_of "P")
           (sample_config 3 3 "baseline") []).
  - cbn. lia.
  - vm_compute. discriminate.
Defined.

(** In every session, cancelled or not, the stream holds progress events
    followed by at most one terminal event, which is sent exactly when the
    collector returns. *)
Lemma events_inv_step w pools config a s s' :
  events_inv s -> step w pools config a s = Some s' -> events_inv s'.
Proof.
  intros Hinv Hstep. unfold events_inv in *.
  destruct a as [|takeDone|secondElapsed]; cbn [step] in Hstep.
  - injection Hstep as <-. exact Hinv.
  - assert (E : Session.collector s' = Session.collector s /\
                Session.events s' = Session.events s).
    { clear Hinv. unfold sender_step in Hstep.
      repeat case_match; simplify_eq; split; reflexivity. }
    destruct E as [-> ->]. exact Hinv.
  - unfold collector_step in Hstep.
    assert (Hsnoc : forall ev, is_progress ev -> Forall is_progress (Session.events s) ->
                               Forall is_progress (Session.events s ++ [ev])).
    { intros ev Hev H. apply Forall_app. split; [exact H|]. constructor; [exact Hev|constructor]. }
    destruct (Session.collector s) eqn:Ecol; try discriminate.
    + repeat case_match; simplify_eq; cbn; rewrite ?app_nil_r; exact Hinv.
    + repeat case_match; simplify_eq; cbn; rewrite ?app_nil_r; try exact Hinv.
      * eexists _, _. split; [reflexivity|]. split; [exact Hinv|]. left. reflexivity.
      * apply Hsnoc; [reflexivity|exact Hinv].
      * apply Hsnoc; [reflexivity|exact Hinv].
    + repeat case_match; simplify_eq; cbn; rewrite ?app_nil_r; try exact Hinv.
      eexists _, _. split; [reflexivity|]. split; [exact Hinv|]. right. reflexivity.
Qed.

Lemma events_inv_exec w pools config schedule g s :
  exec w pools config schedule (session_start w config g) = Some s -> events_inv s.
Proof.
  assert (H0 : events_inv (session_start w config g)).
  { unfold events_inv. cbn. constructor; [reflexivity|constructor]. }
  revert H0. generalize (session_start w config g) as s0.
  induction schedule as [|a schedule IH]; intros s0 H0 Hexec; cbn [exec] in Hexec.
  - congruence.
  - destruct (step w pools config a s0) as [s1|] eqn:E; [|discriminate].
    apply (IH s1); [|exact Hexec]. eapply events_inv_step; eauto.
Qed.

(** C3, on the failing input. Every outcome's blocked flag is the test
    "status is 403, 406 or 429", and [RunTest] reports the first blocked
    outcome: with a single request answered 429 it returns
    [RateLimitHit = true] and [RateLimitAt = 1]. The streaming path does
    not: [buildFinalResult] never sets the two fields, so the final result
    of the same session, streamed, counts one blocked outcome and still
    has [RateLimitHit = false] and [RateLimitAt = 0]. *)
Theorem streaming_final_result_omits_rate_limit :
  let w := sample_world (fun _ => 429) in
  let config := sample_config 1 1 "baseline" in
  let schedule := [ASender false; ASender false; ACollector false; ACollector false;
                   ASender false; ACollector false] in
  (exists r,
      RunTest w (pools_of "P") config [] = Returns r /\
      TestResult.RateLimitHit r = true /\ TestResult.RateLimitAt r = 1) /\
  (exists s ev r x,
      exec w (pools_of "P") config schedule (session_start w config []) = Some s /\
      stream_closed s = true /\
      last (Session.events s) = Some ev /\
      ProgressUpdate.Type_ ev = "complete" /\
      ProgressUpdate.FinalResult ev = Some r /\
      TestResult.Requests r = [x] /\
      RequestResult.ID x = 1 /\ RequestResult.Status x = 429 /\
      RequestResult.WasBlocked x = true /\
      TestResult.BlockedCount r = 1 /\
      TestResult.RateLimitHit r = false /\ TestResult.RateLimitAt r = 0) /\
  (forall testID requests startTime now r,
      buildFinalResult testID requests startTime now = Returns r ->
      TestResult.RateLimitHit r = false /\ TestResult.RateLimitAt r = 0).
Proof.
  cbv zeta. split; [|split].
  - eexists. split; [vm_compute; reflexivity|]. split; reflexivity.
  - do 4 eexists. split; [vm_compute; reflexivity|].
    split; [reflexivity|]. split; [reflexivity|]. split; [reflexivity|].
    split; [reflexivity|]. split; [reflexivity|]. repeat split.
  - intros testID requests startTime now r H.
    apply buildFinalResult_fields in H as (_ & _ & ? & ?). auto.
Qed.

(** C4, on the failing inputs. Two requests; the first outcome has been
    collected ([completedCount = 1]) when the session is cancelled while
    the sender waits for the interval. The sender returns and closes the
    channel, the collector's loop ends without having received anything
    after the cancellation, and the collector goes on to build a final
    result: the stream ends with a "complete" event that carries a
    [FinalResult] over one outcome and claims 2 of 2 completed; no
    "cancelled" event is sent. And with one request, cancelled while it is
    in flight, the "cancelled" event reports [completed = total = 1]. *)
Theorem cancelled_session_may_emit_complete :
  let w := sample_world (fun _ => 200) in
  (exists s1 s ev r,
      let config := sample_config 2 2 "baseline" in
      exec w (pools_of "P") config
        [ASender false; ASender false; ACollector false; ACollector false]
        (session_start w config []) = Some s1 /\
      Session.completedCount s1 = 1 /\ Session.cancelled s1 = false /\
      exec w (pools_of "P") config
        [ACancel; ASender true; ACollector false; ACollector false] s1 = Some s /\
      Session.cancelled s = true /\ stream_closed s = true /\
      event_types s = ["progress"; "complete"] /\
      last (Session.events s) = Some ev /\
      ProgressUpdate.FinalResult ev = Some r /\
      TestResult.TotalRequests r = 1 /\
      ProgressUpdate.Completed ev = 2 /\ ProgressUpdate.Total ev = 2) /\
  (exists s1 s ev,
      let config := sample_config 1 1 "baseline" in
      exec w (pools_of "P") config [ASender false] (session_start w config []) = Some s1 /\
      Session.completedCount s1 = 0 /\
      exec w (pools_of "P") config
        [ACancel; ASender false; ACollector false; ACollector false] s1 = Some s /\
      event_types s = ["progress"; "cancelled"] /\
      last (Session.events s) = Some ev /\
      ProgressUpdate.Completed ev = 1 /\ ProgressUpdate.Total ev = 1).
Proof.
  cbv zeta. split.
  - do 4 eexists. split; [vm_compute; reflexivity|].
    split; [reflexivity|]. split; [reflexivity|].
    split; [vm_compute; reflexivity|]. repeat split.
  - do 3 eexists. split; [vm_compute; reflexivity|].
    split; [reflexivity|]. split; [vm_compute; reflexivity|]. repeat split.
Qed.

(** * Further properties of the code *)

(** ** Percentiles *)

Lemma sortInts_Permutation_eq l1 l2 : l1 ≡ₚ l2 -> sortInts l1 = sortInts l2.
Proof.
  intros H. apply (StronglySorted_unique Z.le).
  - apply sortInts_sorted.
  - apply sortInts_sorted.
  - rewrite !sortInts_perm. exact H.
Qed.

Lemma calculatePercentile_member l k :
  1 <= len l -> len l <= 2 ^ 53 -> 0 <= k <= 100 ->
  exists v, calculatePercentile l (Float64.of_int k) = Returns v /\ In v l.
Proof.
  intros H1 H2 Hk.
  destruct (calculatePercentile_literal l k H1 H2 Hk) as (_ & v & Hv & Hlk).
  exists v. split; [exact Hv|].
  apply list_elem_of_In. eapply list_elem_of_lookup_2; eauto.
Qed.

Lemma calculateResponseTimePercentiles_members (l : list Z) :
  l <> [] -> len l <= 2 ^ 53 ->
  exists p50 p95 p99,
    calculateResponseTimePercentiles l = Returns (p50, p95, p99) /\
    In p50 l /\ In p95 l /\ In p99 l.
Proof.
  intros Hne Hlen.
  assert (Hl : 1 <= len l).
  { pose proof (len_nonneg l). pose proof (len_zero_iff l).
    destruct (Z.eq_dec (len l) 0); [tauto|lia]. }
  unfold calculateResponseTimePercentiles.
  destruct (Z.eqb_spec (len l) 0) as [E|_]; [lia|].
  pose proof (len_sortInts l) as Hs.
  assert (Hin : forall v, In v (sortInts l) -> In v l).
  { intros v Hv. apply list_elem_of_In. rewrite <- (sortInts_perm l).
    apply list_elem_of_In. exact Hv. }
  destruct (calculatePercentile_member (sortInts l) 50) as (p50 & E50 & I50); try lia.
  destruct (calculatePercentile_member (sortInts l) 95) as (p95 & E95 & I95); try lia.
  destruct (calculatePercentile_member (sortInts l) 99) as (p99 & E99 & I99); try lia.
  exists p50, p95, p99. rewrite E50, E95, E99. cbn. auto.
Qed.

(** X1. The three percentiles do not depend on the order in which the
    response times were recorded; and for a non-empty list (of at most
    [2 ^ 53] entries) each of them is one of the recorded response times. *)
Theorem percentiles_permutation_invariant (l1 l2 : list Z) :
  l1 ≡ₚ l2 -> len l1 <= 2 ^ 53 ->
  calculateResponseTimePercentiles l1 = calculateResponseTimePercentiles l2 /\
  (l1 <> [] ->
   exists p50 p95 p99,
     calculateResponseTimePercentiles l1 = Returns (p50, p95, p99) /\
     In p50 l1 /\ In p95 l1 /\ In p99 l1).
Proof.
  intros Hp Hlen. split.
  - unfold calculateResponseTimePercentiles.
    assert (E : len l1 = len l2) by (unfold len; now rewrite Hp).
    rewrite (sortInts_Permutation_eq l1 l2 Hp), E. reflexivity.
  - intros Hne. apply calculateResponseTimePercentiles_members; assumption.
Qed.

Lemma percentiles_permutation_invariant_witness :
  calculateResponseTimePercentiles [120; 80; 95] = calculateResponseTimePercentiles [80; 95; 120] /\
  ([120; 80; 95] <> [] ->
   exists p50 p95 p99,
     calculateResponseTimePercentiles [120; 80; 95] = Returns (p50, p95, p99) /\
     In p50 [120; 80; 95] /\ In p95 [120; 80; 95] /\ In p99 [120; 80; 95]).
Proof.
  apply (percentiles_permutation_invariant [120; 80; 95] [80; 95; 120]).
  - apply (Permutation_cons_append [80; 95] 120).
  - vm_compute. discriminate.
Defined.

Lemma idx_val_zero n : idx_val 0 n = 0.
Proof.
  unfold idx_val. rewrite Z.mul_0_l, rnd_val_zero. vm_compute. reflexivity.
Qed.

(** X2. On a non-empty sorted slice (of at most [2 ^ 53] elements) the
    percentile 0 is the first element, the minimum of the slice. *)
Theorem calculatePercentile_0_is_min (sorted : list Z) :
  sorted <> [] -> Sorted Z.le sorted -> len sorted <= 2 ^ 53 ->
  exists v, calculatePercentile sorted (Float64.of_int 0) = Returns v /\
            head sorted = Some v /\ forall x, In x sorted -> v <= x.
Proof.
  intros Hne Hs Hlen.
  assert (Hl : 1 <= len sorted).
  { pose proof (len_nonneg sorted). pose proof (len_zero_iff sorted).
    destruct (Z.eq_dec (len sorted) 0); [tauto|lia]. }
  destruct (roundedIndex0_ratio (len sorted) (Float64.of_int 0) (S754_zero false))
    as [Hi _]; [vm_compute; reflexivity|exact I|exact Hl|exact Hlen|].
  cbn [fval] in Hi. rewrite idx_val_zero in Hi.
  destruct (calculatePercentile_at sorted _ 0 Hl Hi ltac:(lia)) as (v & Hv & Hlk).
  rewrite Z.min_l in Hlk by lia. change (Z.to_nat 0) with 0%nat in Hlk.
  exists v. split; [exact Hv|]. split.
  - destruct sorted; [discriminate|]. exact Hlk.
  - intros x Hx. apply list_elem_of_In, list_elem_of_lookup_1 in Hx as [j Hj].
    apply (StronglySorted_lookup_le sorted 0 j);
      [apply Sorted_StronglySorted; [intros ???; lia|exact Hs]|lia|exact Hlk|exact Hj].
Qed.

Lemma calculatePercentile_0_is_min_witness :
  exists v, calculatePercentile [80; 95; 110] (Float64.of_int 0) = Returns v /\
            head [80; 95; 110] = Some v /\ forall x, In x [80; 95; 110] -> v <= x.
Proof.
  apply (calculatePercentile_0_is_min [80; 95; 110]).
  - discriminate.
  - repeat constructor; lia.
  - vm_compute. discriminate.
Defined.

(** ** Counters and orderings of the statistics *)

Lemma count_if_bounds f l : 0 <= count_if f l <= len l.
Proof.
  unfold count_if, len. pose proof (List.filter_length_le f l). lia.
Qed.

Lemma count_if_cons f x l :
  count_if f (x :: l) = (if f x then 1 else 0) + count_if f l.
Proof.
  unfold count_if, len. cbn [List.filter]. destruct (f x); cbn [length]; lia.
Qed.

Lemma stats_loop_counts l a :
  0 <= StatsLoop.successCount a -> StatsLoop.successCount a + len l <= 2 ^ 53 ->
  0 <= StatsLoop.errorCount a -> StatsLoop.errorCount a + len l <= 2 ^ 53 ->
  0 <= StatsLoop.blockedCount a -> StatsLoop.blockedCount a + len l <= 2 ^ 53 ->
  let a' := fold_left StatsLoop.step l a in
  StatsLoop.successCount a' = StatsLoop.successCount a + count_if is_success l /\
  StatsLoop.errorCount a' = StatsLoop.errorCount a + count_if is_error l /\
  StatsLoop.blockedCount a' = StatsLoop.blockedCount a + count_if RequestResult.WasBlocked l.
Proof.
  revert a. induction l as [|x l IH]; intros a S0 S1 E0 E1 B0 B1.
  - cbv zeta. cbn [fold_left]. unfold count_if, len. cbn [List.filter length Z.of_nat]. lia.
  - cbn [fold_left]. rewrite !count_if_cons.
    assert (Hl : len (x :: l) = len l + 1) by (unfold len; cbn [length]; lia).
    pose proof (len_nonneg l) as Hn. rewrite Hl in *.
    destruct (IH (StatsLoop.step a x)) as (I1 & I2 & I3).
    1-6: cbn [StatsLoop.step StatsLoop.successCount StatsLoop.errorCount
              StatsLoop.blockedCount];
         repeat case_match; repeat (rewrite add_one_small by lia); lia.
    cbv zeta. rewrite I1, I2, I3.
    cbn [StatsLoop.step StatsLoop.successCount StatsLoop.errorCount StatsLoop.blockedCount].
    unfold is_success, is_error.
    repeat case_match; repeat (rewrite add_one_small by lia); lia.
Qed.

Lemma calculateStatistics_counts result r :
  calculateStatistics result = Returns r ->
  let a := fold_left StatsLoop.step (TestResult.Requests result) StatsLoop.init in
  TestResult.SuccessCount r = StatsLoop.successCount a /\
  TestResult.ErrorCount r = StatsLoop.errorCount a /\
  TestResult.BlockedCount r = StatsLoop.blockedCount a /\
  TestResult.MaxResponse r = StatsLoop.maxResponse a /\
  calculateResponseTimePercentiles (StatsLoop.responseTimes a)
  = Returns (TestResult.P50Response r, TestResult.P95Response r, TestResult.P99Response r).
Proof.
  unfold calculateStatistics.
  destruct (if 0 <? TestResult.TotalRequests result then _ else _) as [avg| |];
    cbn [mbind go_result_bind go_bind]; try discriminate.
  destruct (calculateResponseTimePercentiles _) as [[[p50 p95] p99]| |];
    cbn [mbind go_result_bind go_bind]; try discriminate.
  intros H. injection H as <-. cbn. auto.
Qed.

Lemma classified_blocked_is_error x :
  classified x -> RequestResult.WasBlocked x = true -> is_error x = true /\ is_success x = false.
Proof.
  unfold classified, is_error, is_success. intros -> H.
  apply is_blocked_status_iff in H as [-> | [-> | ->]]; split; reflexivity.
Qed.

Lemma count_if_le f g l :
  (forall x, In x l -> f x = true -> g x = true) -> count_if f l <= count_if g l.
Proof.
  induction l as [|x l IH]; intros H; [unfold count_if; cbn; lia|].
  rewrite !count_if_cons.
  assert (IH' : count_if f l <= count_if g l) by (apply IH; intros; apply H; cbn; auto).
  pose proof (H x ltac:(cbn; auto)) as Hx.
  destruct (f x); [rewrite Hx by reflexivity|destruct (g x)]; lia.
Qed.

Lemma count_if_disjoint f g l :
  (forall x, In x l -> f x = true -> g x = false) -> count_if f l + count_if g l <= len l.
Proof.
  induction l as [|x l IH]; intros H; [unfold count_if, len; cbn; lia|].
  rewrite !count_if_cons.
  assert (IH' : count_if f l + count_if g l <= len l) by (apply IH; intros; apply H; cbn; auto).
  pose proof (H x ltac:(cbn; auto)) as Hx.
  assert (Hl : len (x :: l) = len l + 1) by (unfold len; cbn [length]; lia).
  rewrite Hl. destruct (f x); [rewrite Hx by reflexivity|destruct (g x)]; lia.
Qed.

(** X3. The counters of the final statistics count what their tests say:
    [SuccessCount] the outcomes with a 2xx status, [ErrorCount] those with a
    status from 400 or a recorded error, [BlockedCount] those flagged as
    blocked; none exceeds [TotalRequests]. When the outcomes are classified
    as [sendRequest] classifies them, a blocked outcome is also counted as
    an error and never as a success. *)
Theorem final_statistics_counts
    (testID : string) (requests : list RequestResult.t) (startTime now : Z) :
  len requests <= 2 ^ 53 ->
  exists r,
    buildFinalResult testID requests startTime now = Returns r /\
    TestResult.SuccessCount r = count_if is_success requests /\
    TestResult.ErrorCount r = count_if is_error requests /\
    TestResult.BlockedCount r = count_if RequestResult.WasBlocked requests /\
    0 <= TestResult.SuccessCount r <= TestResult.TotalRequests r /\
    0 <= TestResult.ErrorCount r <= TestResult.TotalRequests r /\
    0 <= TestResult.BlockedCount r <= TestResult.TotalRequests r /\
    (Forall classified requests ->
     TestResult.BlockedCount r <= TestResult.ErrorCount r /\
     TestResult.SuccessCount r + TestResult.BlockedCount r <= TestResult.TotalRequests r).
Proof.
  intros Hlen.
  destruct (buildFinalResult_returns testID requests startTime now Hlen) as [r Hr].
  exists r. split; [exact Hr|].
  destruct (buildFinalResult_fields _ _ _ _ _ Hr) as (_ & Ht & _).
  unfold buildFinalResult in Hr. apply calculateStatistics_counts in Hr as (S & E & B & _).
  cbn [TestResult.Requests] in S, E, B.
  pose proof (len_nonneg requests) as Hn.
  destruct (stats_loop_counts requests StatsLoop.init) as (S' & E' & B'); cbn; try lia.
  cbn [StatsLoop.init StatsLoop.successCount StatsLoop.errorCount StatsLoop.blockedCount] in *.
  rewrite S, E, B, S', E', B', Ht, !Z.add_0_l.
  pose proof (count_if_bounds is_success requests).
  pose proof (count_if_bounds is_error requests).
  pose proof (count_if_bounds RequestResult.WasBlocked requests).
  split_and!; try reflexivity; try lia.
  intros Hc. rewrite Forall_forall in Hc. split.
  - apply count_if_le. intros x Hx Hb.
    apply classified_blocked_is_error; [apply Hc, list_elem_of_In; exact Hx|exact Hb].
  - rewrite Z.add_comm. apply count_if_disjoint. intros x Hx Hb.
    apply classified_blocked_is_error; [apply Hc, list_elem_of_In; exact Hx|exact Hb].
Qed.

Lemma final_statistics_counts_witness :
  exists r,
    buildFinalResult "test_0" [sample_outcome 1 200 120; sample_outcome 2 429 80] 0 9
    = Returns r /\
    TestResult.SuccessCount r
    = count_if is_success [sample_outcome 1 200 120; sample_outcome 2 429 80] /\
    TestResult.ErrorCount r
    = count_if is_error [sample_outcome 1 200 120; sample_outcome 2 429 80] /\
    TestResult.BlockedCount r
    = count_if RequestResult.WasBlocked [sample_outcome 1 200 120; sample_outcome 2 429 80] /\
    0 <= TestResult.SuccessCount r <= TestResult.TotalRequests r /\
    0 <= TestResult.ErrorCount r <= TestResult.TotalRequests r /\
    0 <= TestResult.BlockedCount r <= TestResult.TotalRequests r /\
    (Forall classified [sample_outcome 1 200 120; sample_outcome 2 429 80] ->
     TestResult.BlockedCount r <= TestResult.ErrorCount r /\
     TestResult.SuccessCount r + TestResult.BlockedCount r <= TestResult.TotalRequests r).
Proof.
  apply (final_statistics_counts "test_0"
           [sample_outcome 1 200 120; sample_outcome 2 429 80] 0 9).
  vm_compute. discriminate.
Defined.

(** X4. In the final statistics of a non-empty outcome list the
    percentiles are ordered below the maximum,
    [P50 <= P95 <= P99 <= MaxResponse]. When every response time lies
    strictly between 0 and 999999 ms the minimum and the average are in
    order too: [MinResponse <= P50Response] and
    [MinResponse <= AvgResponse <= MaxResponse]. *)
Theorem final_statistics_ordering
    (testID : string) (requests : list RequestResult.t) (startTime now : Z) :
  requests <> [] -> len requests <= 2 ^ 40 ->
  exists r,
    buildFinalResult testID requests startTime now = Returns r /\
    TestResult.P50Response r <= TestResult.P95Response r /\
    TestResult.P95Response r <= TestResult.P99Response r /\
    TestResult.P99Response r <= TestResult.MaxResponse r /\
    ((forall t, In t (response_times requests) -> 0 < t < 999999) ->
     TestResult.MinResponse r <= TestResult.P50Response r /\
     TestResult.MinResponse r <= TestResult.AvgResponse r /\
     TestResult.AvgResponse r <= TestResult.MaxResponse r).
Proof.
  intros Hne Hlen.
  assert (Hlen' : len requests <= 2 ^ 53).
  { eapply Z.le_trans; [exact Hlen|]. apply Z.pow_le_mono_r; lia. }
  assert (Hn : 1 <= len requests).
  { pose proof (len_nonneg requests). pose proof (len_zero_iff requests).
    destruct (Z.eq_dec (len requests) 0); [tauto|lia]. }
  unfold buildFinalResult.
  destruct (calculateStatistics_returns
              (TestResult.mk testID (len requests) 0 0 0 0 0 0 0 0 0 requests false 0
                 startTime now) eq_refl Hlen')
    as (r & Hr & _ & _ & _ & _ & _ & _ & Havg & Hmin & Hmax & Hord).
  cbn [TestResult.Requests] in *. exists r. split; [exact Hr|].
  pose proof (calculateStatistics_counts _ _ Hr) as (_ & _ & _ & _ & Hp).
  cbn [TestResult.Requests] in Hp.
  set (a := fold_left StatsLoop.step requests StatsLoop.init) in *.
  assert (Hrt : StatsLoop.responseTimes a = response_times requests).
  { unfold a. rewrite stats_loop_responseTimes. reflexivity. }
  rewrite Hrt in Hp.
  assert (Hne' : response_times requests <> []).
  { unfold response_times. destruct requests; [congruence|discriminate]. }
  assert (Hlr : len (response_times requests) = len requests).
  { unfold response_times, len. now rewrite length_map. }
  destruct (calculateResponseTimePercentiles_members (response_times requests) Hne'
              ltac:(lia)) as (p50 & p95 & p99 & Hp' & I50 & I95 & I99).
  rewrite Hp' in Hp. injection Hp as -> -> ->.
  pose proof (stats_loop_min requests StatsLoop.init) as (M1 & M2 & M3).
  pose proof (stats_loop_max requests StatsLoop.init) as (X1 & X2 & X3).
  fold a in M1, M2, M3, X1, X2, X3.
  cbn [StatsLoop.init StatsLoop.minResponse StatsLoop.maxResponse] in *.
  assert (Hin : forall t, In t (response_times requests) ->
                          exists x, In x requests /\ RequestResult.ResponseTime x = t).
  { intros t. unfold response_times. rewrite in_map_iff. intros (x & ? & ?); eauto. }
  assert (Hmaxall : forall t, In t (response_times requests) -> t <= StatsLoop.maxResponse a).
  { intros t Ht. apply Hin in Ht as (x & Hx & <-). apply X2; exact Hx. }
  split; [lia|]. split; [lia|]. split; [rewrite Hmax; apply Hmaxall; exact I99|].
  intros Hall.
  assert (Hminall : forall t, In t (response_times requests) -> StatsLoop.minResponse a <= t).
  { intros t Ht. pose proof (Hall t Ht). apply Hin in Ht as (x & Hx & <-). apply M2; [exact Hx|lia]. }
  assert (Hminpos : 0 < StatsLoop.minResponse a < 999999).
  { pose proof (Hall _ I50). pose proof (Hminall _ I50).
    destruct M3 as [M3|(x & Hx & Hrt' & Hpos)]; lia. }
  rewrite Hmin, Hmax.
  destruct (Z.eqb_spec (StatsLoop.minResponse a) 999999) as [E|_]; [lia|].
  split; [apply Hminall; exact I50|].
  rewrite Havg by exact Hne.
  assert (Htot : StatsLoop.totalResponseTime a = GoInt.wrap (sum_Z (response_times requests))).
  { unfold a. rewrite (stats_loop_total requests StatsLoop.init 0); [reflexivity|].
    vm_compute. reflexivity. }
  pose proof (sum_Z_bounds (response_times requests) (StatsLoop.minResponse a)
                (StatsLoop.maxResponse a)
                (fun t Ht => conj (Hminall t Ht) (Hmaxall t Ht))) as Hsum.
  pose proof (sum_Z_bounds (response_times requests) 1 999998
                (fun t Ht => ltac:(pose proof (Hall t Ht); lia))) as Hsum'.
  rewrite Hlr in Hsum, Hsum'.
  assert (Hrange : GoInt.in_range (sum_Z (response_times requests))).
  { unfold GoInt.in_range, GoInt.min_int, GoInt.max_int, GoInt.bits.
    change (2 ^ (64 - 1)) with 9223372036854775808.
    change (2 ^ 40) with 1099511627776 in Hlen. lia. }
  rewrite Htot, (wrap_in_range _ Hrange), (quot_in_range _ _ Hrange Hn).
  rewrite Z.quot_div_nonneg by lia. split.
  - apply Z.div_le_lower_bound; lia.
  - apply Z.div_le_upper_bound; lia.
Qed.

Lemma final_statistics_ordering_witness :
  exists r,
    buildFinalResult "test_0" [sample_outcome 1 200 120; sample_outcome 2 429 80] 0 9
    = Returns r /\
    TestResult.P50Response r <= TestResult.P95Response r /\
    TestResult.P95Response r <= TestResult.P99Response r /\
    TestResult.P99Response r <= TestResult.MaxResponse r /\
    ((forall t, In t (response_times [sample_outcome 1 200 120; sample_outcome 2 429 80]) ->
                0 < t < 999999) ->
     TestResult.MinResponse r <= TestResult.P50Response r /\
     TestResult.MinResponse r <= TestResult.AvgResponse r /\
     TestResult.AvgResponse r <= TestResult.MaxResponse r).
Proof.
  apply (final_statistics_ordering "test_0"
           [sample_outcome 1 200 120; sample_outcome 2 429 80] 0 9).
  - discriminate.
  - vm_compute. discriminate.
Defined.

Lemma incremental_loop_agrees (requests : list RequestResult.t)
    (a : StatsLoop.t) (b : IncrementalLoop.t) :
  TestStats.SuccessCount (IncrementalLoop.stats b) = StatsLoop.successCount a ->
  TestStats.ErrorCount (IncrementalLoop.stats b) = StatsLoop.errorCount a ->
  TestStats.BlockedCount (IncrementalLoop.stats b) = StatsLoop.blockedCount a ->
  TestStats.AvgResponse (IncrementalLoop.stats b) = 0 ->
  IncrementalLoop.totalResponseTime b = StatsLoop.totalResponseTime a ->
  let a' := fold_left StatsLoop.step requests a in
  let b' := fold_left IncrementalLoop.step requests b in
  TestStats.SuccessCount (IncrementalLoop.stats b') = StatsLoop.successCount a' /\
  TestStats.ErrorCount (IncrementalLoop.stats b') = StatsLoop.errorCount a' /\
  TestStats.BlockedCount (IncrementalLoop.stats b') = StatsLoop.blockedCount a' /\
  TestStats.AvgResponse (IncrementalLoop.stats b') = 0 /\
  IncrementalLoop.totalResponseTime b' = StatsLoop.totalResponseTime a'.
Proof.
  revert a b. induction requests as [|req requests IH]; intros a b Hs He Hb Ha Ht.
  - cbn. auto.
  - cbn [fold_left]. apply IH.
    all: unfold IncrementalLoop.step, StatsLoop.step.
    all: cbn [IncrementalLoop.stats IncrementalLoop.totalResponseTime
              StatsLoop.successCount StatsLoop.errorCount StatsLoop.blockedCount
              StatsLoop.totalResponseTime].
    all: destruct ((200 <=? RequestResult.Status req) && (RequestResult.Status req <? 300)),
           ((400 <=? RequestResult.Status req)
            || negb (String.eqb (RequestResult.Error req) EmptyString)),
           (RequestResult.WasBlocked req).
    all: cbn [TestStats.SuccessCount TestStats.ErrorCount TestStats.BlockedCount
              TestStats.AvgResponse]; congruence.
Qed.

(** X5. The running statistics of a progress event and the final
    statistics agree: computed over the same outcomes,
    [calculateIncrementalStats] and [buildFinalResult] report the same
    success, error and blocked counts and the same average; both return
    zeros for no outcome, without dividing. *)
Theorem incremental_stats_agree_with_final
    (testID : string) (requests : list RequestResult.t) (startTime now : Z) :
  len requests <= 2 ^ 53 ->
  exists stats r,
    calculateIncrementalStats requests = Returns stats /\
    buildFinalResult testID requests startTime now = Returns r /\
    TestStats.SuccessCount stats = TestResult.SuccessCount r /\
    TestStats.ErrorCount stats = TestResult.ErrorCount r /\
    TestStats.BlockedCount stats = TestResult.BlockedCount r /\
    TestStats.AvgResponse stats = TestResult.AvgResponse r /\
    (requests = [] -> stats = TestStats.mk 0 0 0 0).
Proof.
  intros Hlen.
  destruct (buildFinalResult_returns testID requests startTime now Hlen) as [r Hr].
  destruct (calculateIncrementalStats_returns requests) as [stats Hs].
  exists stats, r. split; [exact Hs|]. split; [exact Hr|].
  destruct (incremental_loop_agrees requests StatsLoop.init IncrementalLoop.init
              eq_refl eq_refl eq_refl eq_refl eq_refl) as (As & Ae & Ab & Aa & At).
  unfold buildFinalResult, calculateStatistics in Hr.
  unfold calculateIncrementalStats in Hs.
  cbn [TestResult.Requests TestResult.TotalRequests TestResult.AvgResponse] in Hr.
  set (a := fold_left StatsLoop.step requests StatsLoop.init) in *.
  set (b := fold_left IncrementalLoop.step requests IncrementalLoop.init) in *.
  destruct (0 <? len requests) eqn:Hpos.
  - rewrite At in Hs.
    destruct (go_div (StatsLoop.totalResponseTime a) (len requests)) as [avg| |];
      cbn [mbind go_result_bind go_bind] in Hr, Hs; try discriminate.
    destruct (calculateResponseTimePercentiles _) as [[[p50 p95] p99]| |];
      cbn [mbind go_result_bind go_bind] in Hr; try discriminate.
    injection Hr as <-. injection Hs as <-.
    cbn [TestStats.SuccessCount TestStats.ErrorCount TestStats.BlockedCount
         TestStats.AvgResponse TestResult.SuccessCount TestResult.ErrorCount
         TestResult.BlockedCount TestResult.AvgResponse].
    split_and!; auto. intros ->. discriminate.
  - cbn [mbind go_result_bind go_bind] in Hr.
    destruct (calculateResponseTimePercentiles _) as [[[p50 p95] p99]| |];
      cbn [mbind go_result_bind go_bind] in Hr; try discriminate.
    injection Hr as <-. injection Hs as <-.
    cbn [TestResult.SuccessCount TestResult.ErrorCount TestResult.BlockedCount
         TestResult.AvgResponse].
    split_and!; auto. intros ->. reflexivity.
Qed.

Lemma incremental_stats_agree_with_final_witness :
  exists stats r,
    calculateIncrementalStats [sample_outcome 1 200 120; sample_outcome 2 429 80]
    = Returns stats /\
    buildFinalResult "test_0" [sample_outcome 1 200 120; sample_outcome 2 429 80] 0 9
    = Returns r /\
    TestStats.SuccessCount stats = TestResult.SuccessCount r /\
    TestStats.ErrorCount stats = TestResult.ErrorCount r /\
    TestStats.BlockedCount stats = TestResult.BlockedCount r /\
    TestStats.AvgResponse stats = TestResult.AvgResponse r /\
    ([sample_outcome 1 200 120; sample_outcome 2 429 80] = [] ->
     stats = TestStats.mk 0 0 0 0).
Proof.
  apply (incremental_stats_agree_with_final "test_0"
           [sample_outcome 1 200 120; sample_outcome 2 429 80] 0 9).
  vm_compute. discriminate.
Defined.

(** ** Pacing of validated configurations *)

Lemma calculateInterval_value (config : TestConfig.t) :
  let N := TestConfig.TotalRequests config in
  let D := TestConfig.Duration config in
  1 <= N -> 1 <= D -> D * 1000 <= GoInt.max_int ->
  calculateInterval config
  = Returns (if String.eqb (TestConfig.TestMode config) "burst"
             then (D / 2) * 1000 / N
             else D * 1000 / N).
Proof.
  intros N D HN HD Hmax.
  assert (Hm : GoInt.max_int = 9223372036854775807) by reflexivity.
  unfold calculateInterval. fold N D. destruct (String.eqb _ _).
  - rewrite (go_div_nonneg D 2) by lia. cbn [mbind go_result_bind go_bind].
    assert (0 <= D / 2 <= D).
    { split; [apply Z.div_pos; lia|apply Z.div_le_upper_bound; lia]. }
    unfold GoInt.mul. rewrite wrap_in_range by (unfold GoInt.in_range, GoInt.min_int; lia).
    apply go_div_nonneg; lia.
  - unfold GoInt.mul. rewrite wrap_in_range by (unfold GoInt.in_range, GoInt.min_int; lia).
    apply go_div_nonneg; lia.
Qed.

(** X6. For every configuration that validation accepts the interval is
    computed without a panic, and the pauses fit the test: [N] intervals do
    not exceed the duration, nor half of it in burst mode. Only
    [TotalRequests = 0], which validation refuses, makes the division
    panic. *)
Theorem validated_interval_fits_duration (config accepted : TestConfig.t) :
  validateConfig config = inr accepted ->
  (exists intervalMs,
      calculateInterval accepted = Returns intervalMs /\
      0 <= intervalMs /\
      intervalMs * TestConfig.TotalRequests accepted <= TestConfig.Duration accepted * 1000 /\
      (TestConfig.TestMode accepted = "burst" ->
       2 * (intervalMs * TestConfig.TotalRequests accepted)
       <= TestConfig.Duration accepted * 1000)) /\
  (forall c, TestConfig.TotalRequests c = 0 -> calculateInterval c = Panics).
Proof.
  intros Hv. split.
  - destruct (validateConfig_spec config) as [[_ [m Hm]]|[Hvalid Hd]]; [congruence|].
    assert (accepted = with_defaults config) by congruence. subst accepted.
    assert (HN : 1 <= TestConfig.TotalRequests config <= 10000).
    { unfold invalid_config in Hvalid. lia. }
    assert (HD : 1 <= TestConfig.Duration config <= 3600).
    { unfold invalid_config in Hvalid. lia. }
    cbn [with_defaults TestConfig.TotalRequests TestConfig.Duration TestConfig.TestMode].
    rewrite (calculateInterval_value (with_defaults config));
      cbn [with_defaults TestConfig.TotalRequests TestConfig.Duration TestConfig.TestMode];
      try lia; [|change GoInt.max_int with 9223372036854775807; lia].
    set (N := TestConfig.TotalRequests config) in *.
    set (D := TestConfig.Duration config) in *.
    set (mode := if String.eqb (TestConfig.TestMode config) EmptyString then "baseline"
                 else TestConfig.TestMode config).
    eexists. split; [reflexivity|].
    assert (H2 : 0 <= D / 2 /\ 2 * (D / 2) <= D).
    { split; [apply Z.div_pos; lia|apply Z.mul_div_le; lia]. }
    assert (Hb : 0 <= (D / 2) * 1000 / N /\ (D / 2) * 1000 / N * N <= (D / 2) * 1000).
    { split; [apply Z.div_pos; lia|rewrite Z.mul_comm; apply Z.mul_div_le; lia]. }
    assert (Hn : 0 <= D * 1000 / N /\ D * 1000 / N * N <= D * 1000).
    { split; [apply Z.div_pos; lia|rewrite Z.mul_comm; apply Z.mul_div_le; lia]. }
    destruct (String.eqb_spec mode "burst") as [E|E].
    + split_and!; try lia.
    + split_and!; try lia. intros E'. contradiction.
  - intros c Hc. unfold calculateInterval. rewrite Hc. destruct (String.eqb _ _).
    + destruct (go_div_returns (TestConfig.Duration c) 2 ltac:(lia)) as [q ->].
      reflexivity.
    + reflexivity.
Qed.

Lemma validated_interval_fits_duration_witness :
  (exists intervalMs,
      calculateInterval (sample_config 10 10 "burst") = Returns intervalMs /\
      0 <= intervalMs /\
      intervalMs * TestConfig.TotalRequests (sample_config 10 10 "burst")
      <= TestConfig.Duration (sample_config 10 10 "burst") * 1000 /\
      (TestConfig.TestMode (sample_config 10 10 "burst") = "burst" ->
       2 * (intervalMs * TestConfig.TotalRequests (sample_config 10 10 "burst"))
       <= TestConfig.Duration (sample_config 10 10 "burst") * 1000)) /\
  (forall c, TestConfig.TotalRequests c = 0 -> calculateInterval c = Panics).
Proof.
  apply (validated_interval_fits_duration (sample_config 10 10 "burst")).
  reflexivity.
Defined.

(** ** The synchronous run: edge cases and rate-limit report *)

Lemma RunTest_unfold w pools config g :
  TestConfig.TotalRequests config <> 0 ->
  let n := TestConfig.TotalRequests config in
  let st := runLoop w pools config (Z.to_nat n) 1 (RunLoop.mk [] false 0 g) in
  RunTest w pools config g
  = calculateStatistics
      (TestResult.mk (test_id (World.clock w 0))
                     (len (RunLoop.Requests st)) 0 0 0 0 0 0 0 0 0
                     (RunLoop.Requests st)
                     (RunLoop.RateLimitHit st) (RunLoop.RateLimitAt st)
                     (World.clock w 0) (World.clock w (n + 1))).
Proof.
  intros Hn n st. unfold RunTest.
  destruct (calculateInterval_returns config Hn) as [v ->]. reflexivity.
Qed.

(** X7. [RunTest] panics exactly when [TotalRequests] is 0, on the
    division that computes the interval. A negative [TotalRequests] sends
    nothing and returns the empty result, all statistics 0. For a positive
    one (up to [2 ^ 53]) it returns, with one outcome per request. *)
Theorem RunTest_panics_iff_zero_requests
    (w : World.t) (pools : AttackPayloads.t) (config : TestConfig.t) (g : rng) :
  let N := TestConfig.TotalRequests config in
  N <= 2 ^ 53 ->
  (RunTest w pools config g = Panics <-> N = 0) /\
  (N < 0 ->
   exists r, RunTest w pools config g = Returns r /\
             TestResult.Requests r = [] /\
             TestResult.TotalRequests r = 0 /\
             TestResult.SuccessCount r = 0 /\
             TestResult.ErrorCount r = 0 /\
             TestResult.BlockedCount r = 0 /\
             TestResult.AvgResponse r = 0 /\
             TestResult.RateLimitHit r = false) /\
  (1 <= N -> exists r, RunTest w pools config g = Returns r /\ len (TestResult.Requests r) = N).
Proof.
  intros N Hmax.
  assert (Hneg : N < 0 ->
                 RunTest w pools config g
                 = Returns (TestResult.mk (test_id (World.clock w 0)) 0 0 0 0 0 0 0 0 0 0 []
                              false 0 (World.clock w 0) (World.clock w (N + 1)))).
  { intros Hn. rewrite RunTest_unfold by (fold N; lia). fold N.
    replace (Z.to_nat N) with 0%nat by lia. reflexivity. }
  assert (Hpos : 1 <= N ->
                 exists r, RunTest w pools config g = Returns r /\
                           len (TestResult.Requests r) = N).
  { intros Hn. destruct (RunTest_spec w pools config g Hn Hmax) as (r & Hr & _ & Hids & _).
    exists r. split; [exact Hr|]. rewrite <- len_ids, Hids. apply len_seqZ. fold N. lia. }
  split; [|split; [|exact Hpos]].
  - split.
    + intros Hp. destruct (Z.lt_trichotomy N 0) as [Hn|[Hn|Hn]]; [|exact Hn|].
      * rewrite (Hneg Hn) in Hp. discriminate.
      * destruct (Hpos ltac:(lia)) as (r & Hr & _). rewrite Hr in Hp. discriminate.
    + intros Hz. unfold RunTest, calculateInterval. fold N. rewrite Hz.
      destruct (String.eqb _ _).
      * destruct (go_div_returns (TestConfig.Duration config) 2 ltac:(lia)) as [q ->].
        reflexivity.
      * reflexivity.
  - intros Hn. eexists. split; [exact (Hneg Hn)|]. cbn. repeat split; reflexivity.
Qed.

Lemma RunTest_panics_iff_zero_requests_witness :
  RunTest (sample_world (fun _ => 200)) (pools_of "P") (sample_config 0 5 "baseline") []
  = Panics.
Proof.
  apply (RunTest_panics_iff_zero_requests (sample_world (fun _ => 200)) (pools_of "P")
           (sample_config 0 5 "baseline") []).
  - vm_compute. discriminate.
  - reflexivity.
Defined.

Lemma calculateStatistics_requests result r :
  calculateStatistics result = Returns r ->
  TestResult.Requests r = TestResult.Requests result.
Proof.
  unfold calculateStatistics.
  destruct (if 0 <? TestResult.TotalRequests result then _ else _) as [avg| |];
    cbn [mbind go_result_bind go_bind]; try discriminate.
  destruct (calculateResponseTimePercentiles _) as [[[p50 p95] p99]| |];
    cbn [mbind go_result_bind go_bind]; try discriminate.
  intros H. injection H as <-. reflexivity.
Qed.

Lemma find_first {A} (f : A -> bool) (l : list A) x :
  find f l = Some x ->
  exists j, l !! j = Some x /\ f x = true /\
            forall i y, (i < j)%nat -> l !! i = Some y -> f y = false.
Proof.
  induction l as [|a l IH]; cbn [find]; [discriminate|].
  destruct (f a) eqn:Fa.
  - intros H. injection H as <-. exists 0%nat. split; [reflexivity|]. split; [exact Fa|].
    intros i y Hi. lia.
  - intros H. destruct (IH H) as (j & Hj & Hf & Hbefore).
    exists (S j). split; [exact Hj|]. split; [exact Hf|].
    intros [|i] y Hi Hy; cbn in Hy.
    + injection Hy as <-. exact Fa.
    + apply (Hbefore i y); [lia|exact Hy].
Qed.

Lemma find_none_count f (l : list RequestResult.t) :
  find f l = None <-> count_if f l = 0.
Proof.
  induction l as [|a l IH]; cbn [find]; [unfold count_if; cbn; tauto|].
  rewrite count_if_cons. pose proof (count_if_bounds f l).
  destruct (f a); [split; [discriminate|lia]|]. rewrite IH. lia.
Qed.

Lemma ids_lookup l n j x :
  ids l = seqZ 1 n -> l !! j = Some x -> RequestResult.ID x = Z.of_nat j + 1.
Proof.
  intros Hids Hj.
  assert (H : ids l !! j = Some (RequestResult.ID x)).
  { unfold ids. rewrite list_lookup_fmap, Hj. reflexivity. }
  rewrite Hids in H. apply lookup_seqZ in H as [-> _]. lia.
Qed.

(** X8. The rate-limit report of [RunTest] (for [1 <= N <= 2 ^ 53]):
    [RateLimitHit] is set exactly when the blocked count is positive; then
    [RateLimitAt] is the sequence number of an outcome whose status is 403,
    406 or 429 and no outcome with a smaller sequence number is blocked;
    otherwise [RateLimitAt] is 0. Every blocked outcome is also counted as
    an error. *)
Theorem RunTest_rate_limit_report
    (w : World.t) (pools : AttackPayloads.t) (config : TestConfig.t) (g : rng) :
  let N := TestConfig.TotalRequests config in
  1 <= N -> N <= 2 ^ 53 ->
  exists r,
    RunTest w pools config g = Returns r /\
    (TestResult.RateLimitHit r = true <-> 0 < TestResult.BlockedCount r) /\
    (TestResult.RateLimitHit r = false -> TestResult.RateLimitAt r = 0) /\
    (TestResult.RateLimitHit r = true ->
     1 <= TestResult.RateLimitAt r <= N /\
     (exists x, In x (TestResult.Requests r) /\
                RequestResult.ID x = TestResult.RateLimitAt r /\
                (RequestResult.Status x = 403 \/ RequestResult.Status x = 406
                 \/ RequestResult.Status x = 429)) /\
     (forall y, In y (TestResult.Requests r) ->
                RequestResult.ID y < TestResult.RateLimitAt r ->
                RequestResult.WasBlocked y = false)) /\
    TestResult.BlockedCount r <= TestResult.ErrorCount r.
Proof.
  intros N H1 H2.
  destruct (RunTest_spec w pools config g H1 H2) as (r & Hr & Ht & Hids & Hcl & Hrl).
  fold N in Ht, Hids. exists r. split; [exact Hr|].
  assert (Hlen : len (TestResult.Requests r) = N).
  { rewrite <- len_ids, Hids. apply len_seqZ. lia. }
  pose proof Hr as Hr'. rewrite RunTest_unfold in Hr' by (fold N; lia).
  pose proof (calculateStatistics_requests _ _ Hr') as Hreq.
  apply calculateStatistics_counts in Hr' as (_ & E & B & _).
  cbn [TestResult.Requests] in E, B, Hreq. rewrite <- Hreq in E, B.
  pose proof (len_nonneg (TestResult.Requests r)) as Hn.
  destruct (stats_loop_counts (TestResult.Requests r) StatsLoop.init) as (_ & E' & B');
    cbn; try lia.
  cbn [StatsLoop.init StatsLoop.errorCount StatsLoop.blockedCount] in E', B'.
  rewrite E' in E. rewrite B' in B. rewrite Z.add_0_l in E, B.
  pose proof (count_if_bounds RequestResult.WasBlocked (TestResult.Requests r)) as Hb.
  pose proof (find_none_count RequestResult.WasBlocked (TestResult.Requests r)) as Hfc.
  unfold rate_limit_inv, first_blocked in Hrl.
  destruct (find RequestResult.WasBlocked (TestResult.Requests r)) as [x|] eqn:Hfind.
  - destruct Hrl as [Hhit Hat].
    assert (Hpos : 0 < TestResult.BlockedCount r).
    { rewrite B. destruct (Z.eq_dec (count_if RequestResult.WasBlocked (TestResult.Requests r)) 0)
        as [Z0|Z0]; [|lia]. apply Hfc in Z0. discriminate. }
    apply find_first in Hfind as (j & Hj & Hbx & Hbefore).
    pose proof (ids_lookup _ _ _ _ Hids Hj) as Hidx.
    pose proof (lookup_lt_Some _ _ _ Hj) as Hjlt. unfold len in Hlen.
    rewrite Forall_forall in Hcl.
    split; [tauto|]. split; [congruence|]. split.
    + intros _. rewrite Hat, Hidx. split; [lia|]. split.
      * exists x. split; [apply list_elem_of_In; eapply list_elem_of_lookup_2; eauto|].
        split; [exact Hidx|]. apply is_blocked_status_iff.
        rewrite <- (Hcl x); [exact Hbx|eapply list_elem_of_lookup_2; eauto].
      * intros y Hy Hlt. apply list_elem_of_In, list_elem_of_lookup_1 in Hy as [i Hi].
        pose proof (ids_lookup _ _ _ _ Hids Hi) as Hidy.
        apply (Hbefore i y); [lia|exact Hi].
    + rewrite E, B. apply count_if_le. intros y Hy Hby.
      apply classified_blocked_is_error; [apply Hcl, list_elem_of_In; exact Hy|exact Hby].
  - destruct Hrl as [Hhit Hat].
    assert (Hz : TestResult.BlockedCount r = 0) by (rewrite B; apply Hfc; reflexivity).
    split; [rewrite Hhit, Hz; split; [discriminate|lia]|].
    split; [auto|]. split; [rewrite Hhit; discriminate|].
    rewrite Hz, E. apply count_if_bounds.
Qed.

Lemma RunTest_rate_limit_report_witness :
  exists r,
    RunTest (sample_world (fun i => if i =? 2 then 429 else 200)) (pools_of "P")
      (sample_config 3 3 "baseline") [] = Returns r /\
    (TestResult.RateLimitHit r = true <-> 0 < TestResult.BlockedCount r) /\
    (TestResult.RateLimitHit r = false -> TestResult.RateLimitAt r = 0) /\
    (TestResult.RateLimitHit r = true ->
     1 <= TestResult.RateLimitAt r <= TestConfig.TotalRequests (sample_config 3 3 "baseline") /\
     (exists x, In x (TestResult.Requests r) /\
                RequestResult.ID x = TestResult.RateLimitAt r /\
                (RequestResult.Status x = 403 \/ RequestResult.Status x = 406
                 \/ RequestResult.Status x = 429)) /\
     (forall y, In y (TestResult.Requests r) ->
                RequestResult.ID y < TestResult.RateLimitAt r ->
                RequestResult.WasBlocked y = false)) /\
    TestResult.BlockedCount r <= TestResult.ErrorCount r.
Proof.
  apply (RunTest_rate_limit_report (sample_world (fun i => if i =? 2 then 429 else 200))
           (pools_of "P") (sample_config 3 3 "baseline") []).
  - cbn. lia.
  - vm_compute. discriminate.
Defined.

(** ** Attack payloads and user agents *)

Lemma rand_Intn_range n g : 0 < n -> 0 <= fst (rand_Intn n g) < n.
Proof.
  intros Hn. destruct g as [|x g]; cbn [rand_Intn fst]; [lia|].
  apply Z.mod_pos_bound. exact Hn.
Qed.

Lemma pick_In s g : s <> [] -> In (fst (pick s g)) s.
Proof.
  intros Hne. unfold pick.
  assert (Hl : 0 < len s).
  { pose proof (len_nonneg s). pose proof (len_zero_iff s).
    destruct (Z.eq_dec (len s) 0); [tauto|lia]. }
  pose proof (rand_Intn_range (len s) g Hl) as Hr.
  destruct (rand_Intn (len s) g) as [i g']. cbn [fst] in *.
  destruct (s !! Z.to_nat i) as [x|] eqn:E.
  - cbn. apply list_elem_of_In. eapply list_elem_of_lookup_2; eauto.
  - apply lookup_ge_None in E. unfold len in Hr. lia.
Qed.

Lemma len_eqb_nil {A} (s : list A) : (len s =? 0) = match s with [] => true | _ => false end.
Proof. destruct s; [reflexivity|]. unfold len. cbn [length]. apply Z.eqb_neq. lia. Qed.

Lemma GetRandomPayload_pool pools attackType pool g :
  In (attackType, pool) (payload_pools pools) ->
  (pool = [] -> GetRandomPayload pools attackType g = (EmptyString, g)) /\
  (pool <> [] -> In (fst (GetRandomPayload pools attackType g)) pool).
Proof.
  intros Hin. unfold GetRandomPayload. unfold payload_pools in Hin. cbn [In] in Hin.
  destruct Hin as [H|[H|[H|[H|[]]]]]; injection H as <- <-; cbn [String.eqb Ascii.eqb Bool.eqb].
  all: rewrite len_eqb_nil; split; [intros ->; reflexivity|intros Hne].
  all: match goal with
       | |- context [match ?p with [] => _ | _ => _ end] =>
           destruct p eqn:E; [congruence|rewrite <- E; apply pick_In; congruence]
       end.
Qed.

(** X9. [GetRandomPayload] answers the empty string, drawing nothing, for
    an attack type that is not one of the four and for a type whose pool
    is empty; otherwise it answers a payload of the pool of that type. *)
Theorem GetRandomPayload_from_pool
    (pools : AttackPayloads.t) (attackType : string) (g : rng) :
  (~ In attackType attack_types -> GetRandomPayload pools attackType g = (EmptyString, g)) /\
  (forall pool, In (attackType, pool) (payload_pools pools) ->
     (pool = [] -> GetRandomPayload pools attackType g = (EmptyString, g)) /\
     (pool <> [] -> In (fst (GetRandomPayload pools attackType g)) pool)).
Proof.
  split.
  - intros Hn. unfold GetRandomPayload. unfold attack_types in Hn.
    destruct (String.eqb_spec attackType "sql"); [exfalso; apply Hn; subst; cbn; auto|].
    destruct (String.eqb_spec attackType "xss"); [exfalso; apply Hn; subst; cbn; auto|].
    destruct (String.eqb_spec attackType "traversal"); [exfalso; apply Hn; subst; cbn; auto|].
    destruct (String.eqb_spec attackType "command"); [exfalso; apply Hn; subst; cbn; auto|].
    reflexivity.
  - intros pool Hin. apply GetRandomPayload_pool. exact Hin.
Qed.

Lemma GetRandomUserAgent_In pools g : In (fst (GetRandomUserAgent pools g)) (scanner_agents pools).
Proof.
  unfold GetRandomUserAgent, scanner_agents. rewrite len_eqb_nil.
  destruct (AttackPayloads.ScannerUserAgents pools) eqn:E; apply pick_In; discriminate.
Qed.

Lemma GetLegitimateUserAgent_In pools g :
  In (fst (GetLegitimateUserAgent pools g)) (legitimate_agents pools).
Proof.
  unfold GetLegitimateUserAgent, legitimate_agents. rewrite len_eqb_nil.
  destruct (AttackPayloads.LegitimateUserAgents pools) eqn:E.
  - cbn. auto.
  - apply pick_In; discriminate.
Qed.

(** X10. The priority of [SelectUserAgent]: a custom user agent is used
    as it is and nothing is drawn; otherwise the type "scanner" draws from
    the scanner agents and "legitimate" from the legitimate ones; with no
    type, attack traffic gets a scanner agent and any other traffic a
    legitimate one. *)
Theorem SelectUserAgent_priority
    (pools : AttackPayloads.t) (config : TestConfig.t) (g : rng) :
  let ua := fst (SelectUserAgent pools config g) in
  (TestConfig.CustomUserAgent config <> EmptyString ->
   SelectUserAgent pools config g = (TestConfig.CustomUserAgent config, g)) /\
  (TestConfig.CustomUserAgent config = EmptyString ->
   (TestConfig.UserAgentType config = "scanner" -> In ua (scanner_agents pools)) /\
   (TestConfig.UserAgentType config = "legitimate" -> In ua (legitimate_agents pools)) /\
   (TestConfig.UserAgentType config <> "scanner" ->
    TestConfig.UserAgentType config <> "legitimate" ->
    (TestConfig.TrafficType config = "attack" -> In ua (scanner_agents pools)) /\
    (TestConfig.TrafficType config <> "attack" -> In ua (legitimate_agents pools)))).
Proof.
  cbv zeta. unfold SelectUserAgent.
  destruct (String.eqb_spec (TestConfig.CustomUserAgent config) EmptyString) as [Hc|Hc];
    cbn [negb]; [|split; [intros _; reflexivity|intros H; contradiction]].
  split; [intros H; contradiction|]. intros _.
  destruct (String.eqb_spec (TestConfig.UserAgentType config) "scanner") as [Hs|Hs].
  { split; [intros _; apply GetRandomUserAgent_In|].
    split; [intros H; rewrite H in Hs; discriminate|]. intros H. contradiction. }
  destruct (String.eqb_spec (TestConfig.UserAgentType config) "legitimate") as [Hl|Hl].
  { split; [intros H; contradiction|].
    split; [intros _; apply GetLegitimateUserAgent_In|]. intros _ H. contradiction. }
  split; [intros H; contradiction|]. split; [intros H; contradiction|]. intros _ _.
  destruct (String.eqb_spec (TestConfig.TrafficType config) "attack") as [Ha|Ha].
  - split; [intros _; apply GetRandomUserAgent_In|intros H; contradiction].
  - split; [intros H; contradiction|intros _; apply GetLegitimateUserAgent_In].
Qed.

(** ** Strings *)

Lemma append_cons c (s t : string) : String c s +:+ t = String c (s +:+ t).
Proof. reflexivity. Qed.

Lemma append_nil (t : string) : EmptyString +:+ t = t.
Proof. reflexivity. Qed.

Lemma length_append (s t : string) :
  String.length (s +:+ t) = (String.length s + String.length t)%nat.
Proof.
  induction s as [|c s IH]; [reflexivity|].
  rewrite append_cons. cbn [String.length]. now rewrite IH.
Qed.

Lemma substring_0_append (s t : string) : String.substring 0 (String.length s) (s +:+ t) = s.
Proof.
  induction s as [|c s IH]; [rewrite append_nil; destruct t; reflexivity|].
  rewrite append_cons. cbn [String.length String.substring]. now rewrite IH.
Qed.

Lemma substring_all (t : string) : String.substring 0 (String.length t) t = t.
Proof. induction t as [|d t IH]; cbn [String.length String.substring]; [reflexivity|]. now rewrite IH. Qed.

Lemma substring_append_r (s t : string) :
  String.substring (String.length s) (String.length t) (s +:+ t) = t.
Proof.
  induction s as [|c s IH]; [rewrite append_nil; apply substring_all|].
  rewrite append_cons. cbn [String.length String.substring]. exact IH.
Qed.

Lemma substring_0_length_le (n : nat) (s : string) :
  (String.length (String.substring 0 n s) <= n)%nat /\
  ((n <= String.length s)%nat -> String.length (String.substring 0 n s) = n).
Proof.
  revert s. induction n as [|n IH]; intros s.
  - destruct s; cbn; split; intros; lia.
  - destruct s as [|c s]; cbn [String.substring String.length]; [split; intros; lia|].
    destruct (IH s). split; intros; [lia|]. rewrite H0; lia.
Qed.

Lemma strings_TrimSuffix_append (s suffix : string) :
  strings_TrimSuffix (s +:+ suffix) suffix = s.
Proof.
  unfold strings_TrimSuffix, strings_HasSuffix. rewrite length_append.
  replace (String.length s + String.length suffix - String.length suffix)%nat
    with (String.length s) by lia.
  rewrite substring_append_r, String.eqb_refl, substring_0_append.
  replace (String.length suffix <=? String.length s + String.length suffix)%nat with true
    by (symmetry; apply Nat.leb_le; lia).
  reflexivity.
Qed.

Lemma strings_TrimSuffix_other (s suffix : string) :
  strings_HasSuffix s suffix = false -> strings_TrimSuffix s suffix = s.
Proof. unfold strings_TrimSuffix. now intros ->. Qed.

(** ** Attack requests *)

Lemma BuildAttackRequest_cases pools config g :
  let attackType := fst (GetRandomAttackType g) in
  let P := selected_payload pools g in
  In attackType attack_types /\
  (P = EmptyString ->
   fst (BuildAttackRequest pools config g)
   = AttackRequest.mk (TestConfig.TargetURL config) (TestConfig.RequestBody config)
       (TestConfig.CustomHeaders config) "No payloads available") /\
  (P <> EmptyString ->
   exists ua,
     In ua (scanner_agents pools) /\
     AttackRequest.headers (fst (BuildAttackRequest pools config g))
     = <["User-Agent" := ua]> (TestConfig.CustomHeaders config) /\
     (TestConfig.HTTPMethod config = "GET" \/ TestConfig.HTTPMethod config = EmptyString ->
      AttackRequest.body (fst (BuildAttackRequest pools config g))
      = TestConfig.RequestBody config /\
      AttackRequest.attackInfo (fst (BuildAttackRequest pools config g))
      = attackType +:+ " (query parameter)") /\
     (TestConfig.HTTPMethod config <> "GET" -> TestConfig.HTTPMethod config <> EmptyString ->
      AttackRequest.url (fst (BuildAttackRequest pools config g)) = TestConfig.TargetURL config /\
      AttackRequest.attackInfo (fst (BuildAttackRequest pools config g))
      = attackType +:+ " (request body)" /\
      AttackRequest.body (fst (BuildAttackRequest pools config g))
      = if String.eqb (TestConfig.RequestBody config) EmptyString
        then "{" +:+ dq +:+ "id" +:+ dq +:+ ": " +:+ dq +:+ P +:+ dq
             +:+ ", " +:+ dq +:+ "search" +:+ dq +:+ ": " +:+ dq +:+ P +:+ dq +:+ "}"
        else strings_TrimSuffix (TestConfig.RequestBody config) "}"
             +:+ ", " +:+ dq +:+ "attack" +:+ dq +:+ ": " +:+ dq +:+ P +:+ dq +:+ "}")).
Proof.
  cbv zeta. unfold BuildAttackRequest, selected_payload.
  pose proof (pick_In attack_types g ltac:(discriminate)) as Htype.
  unfold GetRandomAttackType. fold attack_types.
  destruct (pick attack_types g) as [attackType g1]. cbn [fst] in *.
  destruct (GetRandomPayload pools attackType g1) as [payload g2]. cbn [fst].
  split; [exact Htype|].
  destruct (String.eqb_spec payload EmptyString) as [HP|HP].
  - split; [intros _; reflexivity|intros H; contradiction].
  - split; [intros H; contradiction|intros _].
    pose proof (GetRandomUserAgent_In pools g2) as Hua.
    destruct (String.eqb_spec (TestConfig.HTTPMethod config) "GET") as [Hg|Hg];
      [|destruct (String.eqb_spec (TestConfig.HTTPMethod config) EmptyString) as [He|He]];
      cbn [orb]; destruct (GetRandomUserAgent pools g2) as [ua g3]; cbn [fst] in *;
      exists ua; (split; [exact Hua|]); (split; [reflexivity|]); split;
      try (intros _; split; reflexivity); try (intros; contradiction);
      try (intros [H|H]; contradiction).
    intros _ _. split; [reflexivity|]. split; reflexivity.
Qed.

(** X11. An attack request with a method other than GET carries the
    payload [P] in its body and leaves the URL alone: an empty body becomes
    the JSON object with the keys [id] and [search]; a body that ends with a
    closing brace gets the member [attack] added before it; any other body
    gets the same text appended. *)
Theorem BuildAttackRequest_body_injection
    (pools : AttackPayloads.t) (config : TestConfig.t) (g : rng) (P : string) :
  TestConfig.HTTPMethod config <> "GET" -> TestConfig.HTTPMethod config <> EmptyString ->
  selected_payload pools g = P -> P <> EmptyString ->
  let result := fst (BuildAttackRequest pools config g) in
  let body := TestConfig.RequestBody config in
  let member := ", " +:+ dq +:+ "attack" +:+ dq +:+ ": " +:+ dq +:+ P +:+ dq +:+ "}" in
  AttackRequest.url result = TestConfig.TargetURL config /\
  (body = EmptyString ->
   AttackRequest.body result
   = "{" +:+ dq +:+ "id" +:+ dq +:+ ": " +:+ dq +:+ P +:+ dq
     +:+ ", " +:+ dq +:+ "search" +:+ dq +:+ ": " +:+ dq +:+ P +:+ dq +:+ "}") /\
  (forall object, body = object +:+ "}" -> AttackRequest.body result = object +:+ member) /\
  (body <> EmptyString -> strings_HasSuffix body "}" = false ->
   AttackRequest.body result = body +:+ member).
Proof.
  intros Hg He HP Hne. cbv zeta.
  destruct (BuildAttackRequest_cases pools config g) as (_ & _ & Hc).
  rewrite HP in Hc. destruct (Hc Hne) as (ua & _ & _ & _ & Hbody).
  destruct (Hbody Hg He) as (Hurl & _ & Hb). split; [exact Hurl|].
  rewrite Hb. split; [|split].
  - intros ->. reflexivity.
  - intros object Ho. rewrite Ho.
    destruct (String.eqb_spec (object +:+ "}") EmptyString) as [E|_].
    + destruct object; discriminate.
    + rewrite strings_TrimSuffix_append. reflexivity.
  - intros Hb' Hs. destruct (String.eqb_spec (TestConfig.RequestBody config) EmptyString);
      [contradiction|]. rewrite strings_TrimSuffix_other by exact Hs. reflexivity.
Qed.

Lemma BuildAttackRequest_body_injection_witness :
  AttackRequest.url
    (fst (BuildAttackRequest (pools_of "P")
            (TestConfig.mk "http://x/y" 1 1 "attack" false EmptyString EmptyString
               "baseline" "POST" ∅ "{}") []))
  = "http://x/y" /\
  AttackRequest.body
    (fst (BuildAttackRequest (pools_of "P")
            (TestConfig.mk "http://x/y" 1 1 "attack" false EmptyString EmptyString
               "baseline" "POST" ∅ "{}") []))
  = "{" +:+ ", " +:+ dq +:+ "attack" +:+ dq +:+ ": " +:+ dq +:+ "P" +:+ dq +:+ "}".
Proof.
  pose proof (BuildAttackRequest_body_injection (pools_of "P")
                (TestConfig.mk "http://x/y" 1 1 "attack" false EmptyString EmptyString
                   "baseline" "POST" ∅ "{}") [] "P"
                ltac:(discriminate) ltac:(discriminate) eq_refl ltac:(discriminate))
    as (Hu & _ & Ho & _).
  split; [exact Hu|]. exact (Ho "{" eq_refl).
Defined.

(** X12. [BuildAttackRequest] sets the header [User-Agent] to a scanner
    agent and keeps every other custom header; its attack description
    names one of the four attack types. When the drawn pool has no payload
    it returns the URL, the body and the custom headers unchanged, without
    a scanner agent, described as "No payloads available". *)
Theorem BuildAttackRequest_headers
    (pools : AttackPayloads.t) (config : TestConfig.t) (g : rng) :
  let result := fst (BuildAttackRequest pools config g) in
  (selected_payload pools g = EmptyString ->
   result = AttackRequest.mk (TestConfig.TargetURL config) (TestConfig.RequestBody config)
              (TestConfig.CustomHeaders config) "No payloads available") /\
  (selected_payload pools g <> EmptyString ->
   (exists ua, AttackRequest.headers result !! "User-Agent" = Some ua /\
               In ua (scanner_agents pools)) /\
   (forall key, key <> "User-Agent" ->
                AttackRequest.headers result !! key = TestConfig.CustomHeaders config !! key) /\
   (exists attackType, In attackType attack_types /\
      (AttackRequest.attackInfo result = attackType +:+ " (query parameter)" \/
       AttackRequest.attackInfo result = attackType +:+ " (request body)"))).
Proof.
  cbv zeta. destruct (BuildAttackRequest_cases pools config g) as (Htype & Hnone & Hsome).
  split; [exact Hnone|]. intros Hne.
  destruct (Hsome Hne) as (ua & Hua & Hh & Hget & Hother). rewrite Hh. split; [|split].
  - exists ua. split; [apply lookup_insert_eq|exact Hua].
  - intros key Hk. apply lookup_insert_ne. congruence.
  - exists (fst (GetRandomAttackType g)). split; [exact Htype|].
    destruct (String.eqb_spec (TestConfig.HTTPMethod config) "GET") as [Hg|Hg];
      [left; apply Hget; auto|].
    destruct (String.eqb_spec (TestConfig.HTTPMethod config) EmptyString) as [He|He];
      [left; apply Hget; auto|].
    right. apply (Hother Hg He).
Qed.


(** ** The request that [sendRequest] sends *)

Lemma SelectUserAgent_custom pools config g :
  TestConfig.CustomUserAgent config <> EmptyString ->
  SelectUserAgent pools config g = (TestConfig.CustomUserAgent config, g).
Proof.
  intros H. unfold SelectUserAgent.
  destruct (String.eqb_spec (TestConfig.CustomUserAgent config) EmptyString);
    [contradiction|reflexivity].
Qed.

(** The request line, body and headers of the outcome, by traffic type. *)
Lemma sendRequest_prepared w pools id config g :
  let r := fst (sendRequest w pools id config g) in
  let attack := String.eqb (TestConfig.TrafficType config) "attack" in
  let a := fst (BuildAttackRequest pools config g) in
  let headers := if attack then AttackRequest.headers a else TestConfig.CustomHeaders config in
  let body := if attack then AttackRequest.body a else TestConfig.RequestBody config in
  RequestResult.Method r
  = (if String.eqb (TestConfig.HTTPMethod config) EmptyString then "GET"
     else TestConfig.HTTPMethod config) /\
  RequestResult.RequestBody r = body /\
  RequestResult.AttackInfo r = (if attack then AttackRequest.attackInfo a else EmptyString) /\
  RequestResult.URL r
  = (if attack then AttackRequest.url a
     else if String.eqb (TestConfig.TrafficType config) "normal" && TestConfig.ErrorMode config
          then fst (Generate404URL (World.clock w id) (TestConfig.TargetURL config) g)
          else TestConfig.TargetURL config) /\
  ((forall err, World.transport w id <> NewRequestError err) ->
   exists g',
     RequestResult.RequestHeaders r
     = <["User-Agent" := fst (SelectUserAgent pools config g')]>
         (if negb (String.eqb body EmptyString)
          then <["Content-Type" := "application/json"]> headers else headers)).
Proof.
  cbv zeta. unfold sendRequest.
  destruct (String.eqb_spec (TestConfig.TrafficType config) "attack") as [Ha|Ha].
  - rewrite Ha. cbn [String.eqb Ascii.eqb Bool.eqb andb].
    destruct (BuildAttackRequest pools config g) as [a g1]. cbn [fst].
    assert (Hb : (if negb (String.eqb (AttackRequest.body a) EmptyString)
                     && String.eqb (AttackRequest.body a) EmptyString
                  then AttackRequest.body a else AttackRequest.body a) = AttackRequest.body a).
    { destruct (_ && _); reflexivity. }
    destruct (World.transport w id) as [err|elapsed err|elapsed code header bodyRead].
    + cbn. rewrite Hb. split_and!; try reflexivity. intros H. exfalso. exact (H err eq_refl).
    + destruct (SelectUserAgent pools config g1) as [ua g2] eqn:E. cbn. rewrite Hb.
      split_and!; try reflexivity. intros _. exists g1. rewrite E. reflexivity.
    + destruct (SelectUserAgent pools config g1) as [ua g2] eqn:E.
      destruct bodyRead; cbn; rewrite Hb; split_and!; try reflexivity;
        intros _; exists g1; rewrite E; reflexivity.
  - destruct (if String.eqb (TestConfig.TrafficType config) "normal"
                 && TestConfig.ErrorMode config
              then Generate404URL (World.clock w id) (TestConfig.TargetURL config) g
              else (TestConfig.TargetURL config, g)) as [url g1] eqn:E404.
    assert (Hurl : url = if String.eqb (TestConfig.TrafficType config) "normal"
                            && TestConfig.ErrorMode config
                         then fst (Generate404URL (World.clock w id)
                                     (TestConfig.TargetURL config) g)
                         else TestConfig.TargetURL config).
    { pose proof (f_equal fst E404) as H. cbn [fst] in H. rewrite <- H.
      destruct (_ && _); reflexivity. }
    assert (Hb : (if negb (String.eqb (TestConfig.RequestBody config) EmptyString) && true
                  then TestConfig.RequestBody config else EmptyString)
                 = TestConfig.RequestBody config).
    { destruct (String.eqb_spec (TestConfig.RequestBody config) EmptyString) as [->|];
        reflexivity. }
    destruct (World.transport w id) as [err|elapsed err|elapsed code header bodyRead].
    + cbn. rewrite Hb. split_and!; auto. intros H. exfalso. exact (H err eq_refl).
    + destruct (SelectUserAgent pools config g1) as [ua g2] eqn:E. cbn. rewrite Hb.
      split_and!; auto. intros _. exists g1. rewrite E. reflexivity.
    + destruct (SelectUserAgent pools config g1) as [ua g2] eqn:E.
      destruct bodyRead; cbn; rewrite Hb; split_and!; auto;
        intros _; exists g1; rewrite E; reflexivity.
Qed.

(** X14. The headers that [sendRequest] records. When the request cannot
    be created no header is recorded. Otherwise [User-Agent] is always
    present, and it is the custom user agent whenever one is configured,
    also for attack traffic; a request of non-attack traffic with a body has
    [Content-Type: application/json], whatever the custom headers say; and
    every other custom header is passed on unchanged. *)
Theorem sendRequest_headers
    (w : World.t) (pools : AttackPayloads.t) (id : Z) (config : TestConfig.t) (g : rng) :
  let r := fst (sendRequest w pools id config g) in
  (forall err, World.transport w id = NewRequestError err ->
               RequestResult.RequestHeaders r = ∅) /\
  ((forall err, World.transport w id <> NewRequestError err) ->
   (exists ua, RequestResult.RequestHeaders r !! "User-Agent" = Some ua) /\
   (TestConfig.CustomUserAgent config <> EmptyString ->
    RequestResult.RequestHeaders r !! "User-Agent"
    = Some (TestConfig.CustomUserAgent config)) /\
   (TestConfig.TrafficType config <> "attack" ->
    TestConfig.RequestBody config <> EmptyString ->
    RequestResult.RequestHeaders r !! "Content-Type" = Some "application/json") /\
   (forall key, key <> "User-Agent" -> key <> "Content-Type" ->
                RequestResult.RequestHeaders r !! key
                = TestConfig.CustomHeaders config !! key)).
Proof.
  cbv zeta. split.
  - intros err Herr. unfold sendRequest. rewrite Herr.
    destruct (if _ && _ then _ else _) as [url g1].
    destruct (if String.eqb (TestConfig.TrafficType config) "attack" then _ else _)
      as [[[[[url' body] headers] attackInfo] requestBody] g2].
    reflexivity.
  - intros Hcreated.
    destruct (sendRequest_prepared w pools id config g) as (_ & _ & _ & _ & Hh).
    destruct (Hh Hcreated) as [g' ->]. clear Hh. split_and!.
    + eexists. apply lookup_insert_eq.
    + intros Hc. rewrite (SelectUserAgent_custom _ _ _ Hc). apply lookup_insert_eq.
    + intros Ha Hb. apply String.eqb_neq in Ha, Hb. rewrite Ha, Hb. cbn [negb].
      rewrite lookup_insert_ne by discriminate. apply lookup_insert_eq.
    + intros key Hua Hct. rewrite lookup_insert_ne by congruence.
      assert (Hk : (if String.eqb (TestConfig.TrafficType config) "attack"
                    then AttackRequest.headers (fst (BuildAttackRequest pools config g))
                    else TestConfig.CustomHeaders config) !! key
                   = TestConfig.CustomHeaders config !! key).
      { destruct (String.eqb _ "attack"); [|reflexivity].
        destruct (BuildAttackRequest_cases pools config g) as (_ & Hnone & Hsome).
        destruct (String.eqb_spec (selected_payload pools g) EmptyString) as [E|E].
        - rewrite (Hnone E). reflexivity.
        - destruct (Hsome E) as (ua & _ & -> & _). apply lookup_insert_ne. congruence. }
      destruct (negb _); [rewrite lookup_insert_ne by congruence|]; exact Hk.
Qed.

(** X15. The request line that [sendRequest] records. The method is the
    configured one, GET when none is configured. Error mode applies to
    the traffic type "normal" only: the URL is then the base URL without a
    trailing slash followed by the nonexistent path; with any other traffic
    type except "attack" the target URL is used as it is, error mode or
    not. Attack traffic takes URL, body and description from
    [BuildAttackRequest] and ignores error mode. *)
Theorem sendRequest_request_line
    (w : World.t) (pools : AttackPayloads.t) (id : Z) (config : TestConfig.t) (g : rng) :
  let r := fst (sendRequest w pools id config g) in
  let a := fst (BuildAttackRequest pools config g) in
  (TestConfig.HTTPMethod config = EmptyString -> RequestResult.Method r = "GET") /\
  (TestConfig.HTTPMethod config <> EmptyString ->
   RequestResult.Method r = TestConfig.HTTPMethod config) /\
  (TestConfig.TrafficType config = "normal" -> TestConfig.ErrorMode config = true ->
   RequestResult.URL r
   = strings_TrimSuffix (TestConfig.TargetURL config) "/"
     +:+ nonexistent_path (World.clock w id) g) /\
  (TestConfig.TrafficType config <> "attack" ->
   TestConfig.TrafficType config <> "normal" \/ TestConfig.ErrorMode config = false ->
   RequestResult.URL r = TestConfig.TargetURL config) /\
  (TestConfig.TrafficType config <> "attack" ->
   RequestResult.RequestBody r = TestConfig.RequestBody config /\
   RequestResult.AttackInfo r = EmptyString) /\
  (TestConfig.TrafficType config = "attack" ->
   RequestResult.URL r = AttackRequest.url a /\
   RequestResult.RequestBody r = AttackRequest.body a /\
   RequestResult.AttackInfo r = AttackRequest.attackInfo a).
Proof.
  cbv zeta.
  destruct (sendRequest_prepared w pools id config g) as (Hm & Hb & Hi & Hu & _).
  rewrite Hm, Hb, Hi, Hu. split_and!.
  - intros ->. reflexivity.
  - intros H. apply String.eqb_neq in H. rewrite H. reflexivity.
  - intros Hn He. rewrite Hn, He. cbn [String.eqb Ascii.eqb Bool.eqb andb].
    unfold Generate404URL, nonexistent_path.
    destruct (rand_Intn 999999 g) as [x g']. reflexivity.
  - intros Ha H. apply String.eqb_neq in Ha. rewrite Ha.
    destruct H as [H|H].
    + apply String.eqb_neq in H. rewrite H. reflexivity.
    + rewrite H, andb_false_r. reflexivity.
  - intros Ha. apply String.eqb_neq in Ha. rewrite Ha. split; reflexivity.
  - intros Ha. rewrite Ha. cbn [String.eqb Ascii.eqb Bool.eqb]. split_and!; reflexivity.
Qed.

(** ** The response that [sendRequest] records *)

Lemma truncate_body_length (bodyString : string) :
  (String.length (truncate_body bodyString) <= 515)%nat /\
  ((String.length bodyString <= 500)%nat -> truncate_body bodyString = bodyString) /\
  ((500 < String.length bodyString)%nat ->
   truncate_body bodyString = String.substring 0 500 bodyString +:+ "... (truncated)" /\
   String.length (truncate_body bodyString) = 515%nat).
Proof.
  unfold truncate_body.
  destruct (Nat.ltb_spec 500 (String.length bodyString)) as [H|H].
  - destruct (substring_0_length_le 500 bodyString) as [_ Hl].
    rewrite length_append, Hl by lia.
    change (String.length "... (truncated)") with 15%nat.
    split; [lia|]. split; [intros; lia|]. intros _. split; [reflexivity|lia].
  - split; [lia|]. split; [reflexivity|]. intros; lia.
Qed.

(** X16. What [sendRequest] records of a response with status [code]:
    the status, its text and the elapsed time; the blocked flag by the
    status alone. A body that was read is kept up to 500 bytes, followed by
    the mark "... (truncated)" when it was longer, so that the recorded
    body never exceeds 515 bytes. When reading the body fails the outcome
    keeps its status and carries the error: with a 2xx status it then
    counts both as a success and as an error. *)
Theorem sendRequest_response
    (w : World.t) (pools : AttackPayloads.t) (id : Z) (config : TestConfig.t) (g : rng)
    (elapsed code : Z) (header : gmap string (list string)) (bodyRead : string + string) :
  World.transport w id = DoResponse elapsed code header bodyRead ->
  let r := fst (sendRequest w pools id config g) in
  RequestResult.Status r = code /\
  RequestResult.StatusText r = World.http_StatusText w code /\
  RequestResult.ResponseTime r = elapsed /\
  RequestResult.WasBlocked r = is_blocked_status code /\
  (forall key, RequestResult.ResponseHeaders r !! key
               = (fun values => strings_Join values ", ") <$> header !! key) /\
  (String.length (RequestResult.ResponseBody r) <= 515)%nat /\
  (forall bodyString, bodyRead = inl bodyString ->
     RequestResult.Error r = EmptyString /\
     ((String.length bodyString <= 500)%nat -> RequestResult.ResponseBody r = bodyString) /\
     ((500 < String.length bodyString)%nat ->
      RequestResult.ResponseBody r
      = String.substring 0 500 bodyString +:+ "... (truncated)")) /\
  (forall err, bodyRead = inr err ->
     RequestResult.Error r = "Failed to read response body: " +:+ err /\
     RequestResult.ResponseBody r = EmptyString /\
     is_error r = true /\
     (200 <= code < 300 -> is_success r = true)).
Proof.
  intros Ht. cbv zeta. unfold sendRequest. rewrite Ht.
  destruct (if _ && _ then _ else _) as [url g1].
  destruct (if String.eqb (TestConfig.TrafficType config) "attack" then _ else _)
    as [[[[[url' body] headers] attackInfo] requestBody] g2].
  destruct (SelectUserAgent pools config g2) as [ua g3].
  destruct bodyRead as [bodyString|err];
    cbn [fst RequestResult.Status RequestResult.StatusText RequestResult.ResponseTime
         RequestResult.WasBlocked RequestResult.ResponseHeaders RequestResult.ResponseBody
         RequestResult.Error].
  - pose proof (truncate_body_length bodyString) as (L1 & L2 & L3).
    split_and!; try reflexivity; try exact L1.
    + intros key. apply lookup_fmap.
    + intros b Hb. injection Hb as <-. split_and!; [reflexivity|exact L2|apply L3].
    + intros err Hb. discriminate.
  - split_and!; try reflexivity.
    + intros key. apply lookup_fmap.
    + cbn. lia.
    + intros b Hb. discriminate.
    + intros e Hb. injection Hb as <-. split_and!; try reflexivity.
      * unfold is_error. cbn [RequestResult.Error RequestResult.Status].
        rewrite orb_true_r. reflexivity.
      * intros Hc. unfold is_success. cbn [RequestResult.Status]. lia.
Qed.

Lemma sendRequest_response_witness :
  let r := fst (sendRequest (sample_world (fun _ => 200)) (pools_of "P") 1
                  (sample_config 1 1 "baseline") []) in
  RequestResult.Status r = 200 /\
  RequestResult.ResponseTime r = 120 /\
  RequestResult.ResponseBody r = "ok".
Proof.
  pose proof (sendRequest_response (sample_world (fun _ => 200)) (pools_of "P") 1
                (sample_config 1 1 "baseline") [] 120 200 ∅ (inl "ok") eq_refl)
    as (H1 & _ & H3 & _ & _ & _ & H7 & _).
  cbv zeta. split; [exact H1|]. split; [exact H3|].
  destruct (H7 "ok" eq_refl) as (_ & Hs & _). apply Hs. cbn. lia.
Defined.

(** ** Streaming sessions under arbitrary schedules *)

Lemma runLoop_app w pools config a b i st :
  runLoop w pools config (a + b) i st
  = runLoop w pools config b (i + Z.of_nat a) (runLoop w pools config a i st).
Proof.
  revert i st. induction a as [|a IH]; intros i st.
  - cbn [Nat.add runLoop]. f_equal. lia.
  - cbn [Nat.add runLoop]. destruct (sendRequest w pools i config (RunLoop.gen st)) as [r g'].
    rewrite IH. f_equal. lia.
Qed.

Lemma sync_state_succ w pools config g k :
  0 <= k ->
  let '(r, g') := sendRequest w pools (k + 1) config
                    (RunLoop.gen (sync_state w pools config g k)) in
  RunLoop.Requests (sync_state w pools config g (k + 1))
  = (sync_outcomes w pools config g k ++ [r])%list /\
  RunLoop.gen (sync_state w pools config g (k + 1)) = g'.
Proof.
  intros Hk. unfold sync_outcomes, sync_state.
  replace (Z.to_nat (k + 1)) with (Z.to_nat k + 1)%nat by lia.
  rewrite runLoop_app. rewrite Z2Nat.id by lia. replace (1 + k) with (k + 1) by lia.
  set (st := runLoop w pools config (Z.to_nat k) 1 _).
  cbn [runLoop]. destruct (sendRequest w pools (k + 1) config (RunLoop.gen st)) as [r g'].
  destruct (_ && _); cbn; auto.
Qed.

Lemma len_sync_outcomes w pools config g k :
  0 <= k -> len (sync_outcomes w pools config g k) = k.
Proof.
  intros Hk. unfold sync_outcomes, sync_state.
  pose proof (runLoop_spec w pools config (Z.to_nat k) 1 (RunLoop.mk [] false 0 g) 0
                (conj eq_refl eq_refl)) as (I1 & _).
  cbn [RunLoop.Requests ids map app] in I1. rewrite <- len_ids, I1.
  rewrite Z2Nat.id by lia. apply len_seqZ. lia.
Qed.

Lemma ids_sync_outcomes w pools config g k :
  0 <= k -> ids (sync_outcomes w pools config g k) = seqZ 1 k.
Proof.
  intros Hk. unfold sync_outcomes, sync_state.
  pose proof (runLoop_spec w pools config (Z.to_nat k) 1 (RunLoop.mk [] false 0 g) 0
                (conj eq_refl eq_refl)) as (I1 & _).
  cbn [RunLoop.Requests ids map app] in I1. rewrite I1. rewrite Z2Nat.id by lia. reflexivity.
Qed.

Lemma runLoop_requests_prefix w pools config fuel i st :
  RunLoop.Requests st `prefix_of` RunLoop.Requests (runLoop w pools config fuel i st).
Proof.
  revert i st. induction fuel as [|fuel IH]; intros i st; cbn [runLoop]; [reflexivity|].
  destruct (sendRequest w pools i config (RunLoop.gen st)) as [r g'].
  etransitivity; [|apply IH].
  destruct (_ && _); cbn [RunLoop.Requests]; apply prefix_app_r; reflexivity.
Qed.

Lemma sync_outcomes_prefix w pools config g k n :
  0 <= k <= n ->
  sync_outcomes w pools config g k `prefix_of` sync_outcomes w pools config g n.
Proof.
  intros Hk. unfold sync_outcomes, sync_state.
  replace (Z.to_nat n) with (Z.to_nat k + Z.to_nat (n - k))%nat by lia.
  rewrite runLoop_app. apply runLoop_requests_prefix.
Qed.

Lemma prefix_app_l_of {A} (l1 l2 l3 : list A) : (l1 ++ l2)%list `prefix_of` l3 -> l1 `prefix_of` l3.
Proof. intros [t ->]. exists (l2 ++ t)%list. now rewrite app_assoc. Qed.

Lemma prefix_same_length {A} (l1 l2 : list A) :
  l1 `prefix_of` l2 -> length l1 = length l2 -> l1 = l2.
Proof.
  intros [t ->] H. rewrite length_app in H. destruct t; [now rewrite app_nil_r|].
  cbn in H. lia.
Qed.

Lemma session_inv_start w pools config g :
  1 <= TestConfig.TotalRequests config ->
  session_inv w pools config g (session_start w config g).
Proof.
  intros HN. exists 0. cbn. unfold len, resultsChan_capacity. cbn.
  split_and!; try lia; auto.
  constructor; [|constructor]. unfold event_inv. cbn.
  split_and!; try reflexivity; try lia; try discriminate.
  intros _. split; reflexivity.
Qed.

Lemma session_inv_cancel w pools config g s :
  session_inv w pools config g s -> session_inv w pools config g (cancel s).
Proof.
  intros (k & Hk & Hout & Hcap & Hcount & Hs & Hcol & Hev). exists k.
  destruct s as [c pc gen chan closed cpc all batch count evs]. session_fields.
  split_and!; auto; try lia.
  - destruct pc; auto. destruct Hs as [Hcl _]. auto.
  - destruct cpc; auto.
Qed.

Lemma session_inv_sender w pools config g takeDone s s' :
  let N := TestConfig.TotalRequests config in
  1 <= N -> N <= 2 ^ 53 ->
  session_inv w pools config g s -> sender_step w pools config takeDone s = Some s' ->
  session_inv w pools config g s' /\ (session_measure N s' < session_measure N s)%nat.
Proof.
  intros N H1 H2 (k & Hk & Hout & Hcap & Hcount & Hs & Hcol & Hev) Hstep.
  destruct s as [c pc gen chan closed cpc all batch count evs]. session_fields.
  unfold sender_step in Hstep. session_fields.
  fold N in Hstep, Hk, Hs, Hcol. unfold session_measure, collector_measure. session_fields.
  destruct pc as [i|i r|i|].
  - (* loop head *)
    destruct Hs as (-> & Hgen & Hcl). destruct (Z.ltb_spec N (k + 1)).
    + injection Hstep as <-. session_fields. split; [|cbn; lia].
      exists k. session_fields. fold N. split_and!; auto; try lia.
    + destruct c eqn:Ec.
      * injection Hstep as <-. session_fields. split; [|cbn; lia].
        exists k. session_fields. fold N. split_and!; auto; try lia.
      * destruct (sendRequest w pools (k + 1) config gen) as [r g'] eqn:Esend.
        injection Hstep as <-. session_fields. split; [|cbn; lia].
        exists k. session_fields. fold N. split_and!; auto; try lia. rewrite <- Hgen. exact Esend.
  - (* enqueue *)
    destruct Hs as (-> & Hi & Hsend & Hcl).
    assert (Hsent : (resultsChan_capacity <=? len chan) = false ->
              session_inv w pools config g
                (Session.mk c (if k + 1 <? N then SWait (k + 1) else SCheck (k + 1 + 1))
                   gen (chan ++ [r]) closed cpc all batch count evs)).
    { intros Hfull. apply Z.leb_gt in Hfull.
      pose proof (sync_state_succ w pools config g k ltac:(lia)) as Hsucc.
      rewrite Hsend in Hsucc. destruct Hsucc as [Hreq Hgen'].
      exists (k + 1). session_fields. fold N.
      split; [lia|]. split; [rewrite app_assoc, Hout; symmetry; exact Hreq|].
      split; [rewrite len_app; change (len [r]) with 1; unfold resultsChan_capacity in *; lia|].
      split; [exact Hcount|]. split; [|split; [exact Hcol|exact Hev]].
      destruct (Z.ltb_spec (k + 1) N); split_and!; auto; lia. }
    assert (Hret : c = true ->
              session_inv w pools config g
                (Session.mk c SDone gen chan true cpc all batch count evs)).
    { intros ->. exists k. session_fields. fold N. split_and!; auto; try lia. }
    destruct c, (resultsChan_capacity <=? len chan) eqn:Hfull;
      try discriminate; injection Hstep as <-.
    + split; [apply Hret; reflexivity|cbn; lia].
    + destruct takeDone.
      * split; [apply Hret; reflexivity|cbn; lia].
      * split; [apply Hsent; reflexivity|].
        cbn. destruct (Z.ltb_spec (k + 1) N); cbn; lia.
    + split; [apply Hsent; reflexivity|].
      cbn. destruct (Z.ltb_spec (k + 1) N); cbn; lia.
  - (* interval wait *)
    destruct Hs as (-> & Hi & Hgen & Hcl).
    destruct (c && takeDone) eqn:Ect; injection Hstep as <-; session_fields.
    + apply andb_true_iff in Ect as [-> _]. split; [|cbn; lia].
      exists k. session_fields. fold N. split_and!; auto; try lia.
    + split; [|cbn; lia]. exists k. session_fields. fold N. split_and!; auto; try lia.
  - discriminate.
Qed.

Lemma percentage_bounds count N :
  1 <= N -> N <= 2 ^ 53 -> 0 <= count <= N ->
  go_div (GoInt.mul count 100) N = Returns (count * 100 / N) /\
  0 <= count * 100 / N <= 100.
Proof.
  intros H1 H2 Hc. change (2 ^ 53) with 9007199254740992 in H2. split.
  - unfold GoInt.mul. rewrite wrap_in_range.
    + apply go_div_nonneg; [|lia]. change GoInt.max_int with 9223372036854775807. lia.
    + unfold GoInt.in_range. change GoInt.max_int with 9223372036854775807.
      change GoInt.min_int with (-9223372036854775808). lia.
  - split; [apply Z.div_pos; lia|]. apply Z.div_le_upper_bound; lia.
Qed.

Lemma session_inv_collector w pools config g secondElapsed s s' :
  let N := TestConfig.TotalRequests config in
  1 <= N -> N <= 2 ^ 53 ->
  session_inv w pools config g s -> collector_step w config secondElapsed s = Some s' ->
  session_inv w pools config g s' /\ (session_measure N s' < session_measure N s)%nat.
Proof.
  intros N H1 H2 (k & Hk & Hout & Hcap & Hcount & Hs & Hcol & Hev) Hstep.
  destruct s as [c pc gen chan closed cpc all batch count evs]. session_fields.
  subst count. unfold collector_step in Hstep. session_fields.
  fold N in Hstep, Hk, Hs, Hcol. unfold session_measure, collector_measure. session_fields.
  assert (Hlen : len all + len chan = k).
  { rewrite <- len_app, Hout. apply len_sync_outcomes. lia. }
  pose proof (len_nonneg all) as Hall. pose proof (len_nonneg chan) as Hchan.
  assert (Hevent : forall ev, event_inv w pools config g ev ->
                              Forall (event_inv w pools config g) (evs ++ [ev])).
  { intros ev H. apply Forall_app. split; [exact Hev|]. constructor; [exact H|constructor]. }
  destruct cpc.
  - (* receive *)
    destruct chan as [|r rest].
    + destruct closed; [|discriminate]. injection Hstep as <-. session_fields.
      assert (Hk' : c = true \/ k = N) by (destruct pc; destruct Hs; intuition congruence).
      change (len []) with 0 in Hlen. rewrite app_nil_r in Hout. split; [|cbn; lia].
      exists k. session_fields. fold N. rewrite ?app_nil_r.
      split_and!; auto; try lia. destruct Hk'; [left; assumption|right; lia].
    + injection Hstep as <-. session_fields. rewrite add_one_small by lia.
      assert (Hr : len (r :: rest) = 1 + len rest) by (unfold len; cbn; lia).
      split.
      * exists k. session_fields. fold N. rewrite app_nil_r, len_app. change (len [r]) with 1.
        split; [lia|]. split; [rewrite <- app_assoc; exact Hout|].
        split; [lia|]. split; [reflexivity|]. split; [exact Hs|]. split; [lia|exact Hev].
      * cbn. rewrite len_app. change (len [r]) with 1. lia.
  - (* process *)
    destruct c eqn:Ec.
    + injection Hstep as <-. session_fields. split; [|cbn; lia].
      exists k. session_fields. fold N. split_and!; auto; try lia.
      apply Hevent. unfold event_inv. cbn. fold N.
      split_and!; try reflexivity; try lia; try discriminate; try (intros _; reflexivity).
    + destruct (calculateIncrementalStats_returns all) as [stats Hstats].
      destruct (percentage_bounds (len all) N H1 H2 ltac:(lia)) as [Hpct Hpb].
      rewrite Hstats, Hpct in Hstep. cbn [mbind go_result_bind go_bind] in Hstep.
      cbv zeta in Hstep.
      assert (Hprog : forall newRequests now,
                Forall (event_inv w pools config g)
                  (evs ++ [ProgressUpdate.mk "progress" (test_id (World.clock w 0)) (len all) N
                             (len all * 100 / N) newRequests (Some stats) None EmptyString
                             now])).
      { intros newRequests now. apply Hevent. unfold event_inv. cbn. fold N.
        split_and!; try reflexivity; try lia; try discriminate;
          try (intros _; split; reflexivity). }
      destruct (Z.leb_spec N (len all)) as [Hge|Hlt].
      * rewrite orb_true_r in Hstep. injection Hstep as <-. session_fields.
        split; [|cbn; lia]. exists k. session_fields. fold N.
        split_and!; auto; try lia.
      * destruct secondElapsed; cbn [orb] in Hstep; injection Hstep as <-; session_fields.
        -- split; [|cbn; lia]. exists k. session_fields. fold N. split_and!; auto; try lia.
        -- split; [|cbn; lia]. exists k. session_fields. fold N. rewrite app_nil_r.
           split_and!; auto; try lia.
  - (* final result *)
    destruct (buildFinalResult_returns (test_id (World.clock w 0)) all (World.clock w 0)
                (World.clock w (len all)) ltac:(lia)) as [r Hr].
    rewrite Hr in Hstep. injection Hstep as <-. session_fields.
    pose proof (buildFinalResult_fields _ _ _ _ _ Hr) as (Hreq & Htot & _).
    split; [|cbn; lia]. exists k. session_fields. fold N.
    split_and!; auto; try lia.
    apply Hevent. unfold event_inv. cbn. fold N.
    split_and!; try reflexivity; try lia; try discriminate.
    intros _. exists r, (World.clock w (len all)). rewrite Hreq.
    split; [reflexivity|]. split; [exact Hr|].
    apply (prefix_app_l_of all chan). rewrite Hout. apply sync_outcomes_prefix. lia.
  - discriminate.
  - discriminate.
Qed.

(** Every step of a session keeps the invariant; a goroutine step brings
    the session closer to its end. *)
Lemma session_inv_step w pools config g a s s' :
  let N := TestConfig.TotalRequests config in
  1 <= N -> N <= 2 ^ 53 ->
  session_inv w pools config g s -> step w pools config a s = Some s' ->
  session_inv w pools config g s' /\
  (a <> ACancel -> (session_measure N s' < session_measure N s)%nat) /\
  (a = ACancel -> session_measure N s' = session_measure N s).
Proof.
  intros N H1 H2 Hinv Hstep. destruct a as [|takeDone|secondElapsed]; cbn [step] in Hstep.
  - injection Hstep as <-. split; [apply session_inv_cancel; exact Hinv|].
    split; [intros H; contradiction|]. intros _. reflexivity.
  - destruct (session_inv_sender w pools config g takeDone s s' H1 H2 Hinv Hstep).
    split; [assumption|]. split; [auto|discriminate].
  - destruct (session_inv_collector w pools config g secondElapsed s s' H1 H2 Hinv Hstep).
    split; [assumption|]. split; [auto|discriminate].
Qed.

Lemma session_inv_exec w pools config g schedule s s' :
  let N := TestConfig.TotalRequests config in
  1 <= N -> N <= 2 ^ 53 ->
  session_inv w pools config g s -> exec w pools config schedule s = Some s' ->
  session_inv w pools config g s' /\
  (goroutine_steps schedule + session_measure N s' <= session_measure N s)%nat.
Proof.
  intros N H1 H2. revert s. induction schedule as [|a schedule IH]; intros s Hinv Hexec.
  - cbn in Hexec. injection Hexec as <-. split; [exact Hinv|]. cbn. lia.
  - cbn [exec] in Hexec. destruct (step w pools config a s) as [s1|] eqn:E; [|discriminate].
    destruct (session_inv_step w pools config g a s s1 H1 H2 Hinv E) as (Hinv1 & Hlt & Heq).
    destruct (IH s1 Hinv1 Hexec) as [Hinv' Hm]. split; [exact Hinv'|].
    unfold goroutine_steps in *. cbn [List.filter].
    destruct a; cbn [length].
    + pose proof (Heq eq_refl). unfold N in *. lia.
    + pose proof (Hlt ltac:(discriminate)). unfold N in *. lia.
    + pose proof (Hlt ltac:(discriminate)). unfold N in *. lia.
Qed.

(** No reachable state is stuck: a goroutine can move until both have
    returned. *)
Lemma session_inv_progress w pools config g s :
  let N := TestConfig.TotalRequests config in
  1 <= N -> N <= 2 ^ 53 -> session_inv w pools config g s ->
  stream_closed s = true \/
  exists a s', a <> ACancel /\ step w pools config a s = Some s'.
Proof.
  intros N H1 H2 Hinv.
  pose proof Hinv as (k & Hk & Hout & Hcap & Hcount & Hs & Hcol & Hev).
  fold N in Hk, Hs, Hcol.
  assert (Hlen : len (Session.allRequests s) + len (Session.resultsChan s) = k).
  { rewrite <- len_app, Hout. apply len_sync_outcomes. lia. }
  pose proof (len_nonneg (Session.allRequests s)) as Hall.
  pose proof (len_nonneg (Session.resultsChan s)) as Hchan.
  assert (Hsender : Session.sender s <> SDone ->
            (forall i r, Session.sender s = SEnqueue i r ->
                         Session.cancelled s = true \/
                         len (Session.resultsChan s) < resultsChan_capacity) ->
            exists a s', a <> ACancel /\ step w pools config a s = Some s').
  { intros Hnd Henq. exists (ASender false). cbn [step].
    destruct (sender_step w pools config false s) eqn:E; [eexists; split; [discriminate|eauto]|].
    exfalso. unfold sender_step in E.
    destruct (Session.sender s) as [i|i r|i|] eqn:Esend; [| | |congruence].
    - repeat case_match; discriminate.
    - destruct (Henq i r eq_refl) as [Hc|Hc].
      + rewrite Hc in E. repeat case_match; discriminate.
      + apply Z.leb_gt in Hc. rewrite Hc in E. repeat case_match; discriminate.
    - repeat case_match; discriminate. }
  assert (Hcollector : (Session.collector s = CRecv ->
                        Session.resultsChan s <> [] \/ Session.resultsChan_closed s = true) ->
            Session.collector s <> CDone ->
            exists a s', a <> ACancel /\ step w pools config a s = Some s').
  { intros Hrecv Hnd. exists (ACollector false). cbn [step].
    destruct (collector_step w config false s) eqn:E; [eexists; split; [discriminate|eauto]|].
    exfalso. unfold collector_step in E.
    destruct (Session.collector s) eqn:Ecol; try congruence; try contradiction.
    - destruct (Hrecv eq_refl) as [Hc|Hc].
      + destruct (Session.resultsChan s); [congruence|discriminate].
      + rewrite Hc in E. destruct (Session.resultsChan s); discriminate.
    - repeat case_match; discriminate.
    - repeat case_match; discriminate. }
  destruct (Session.collector s) eqn:Ecol.
  - (* the collector waits for a result *)
    destruct (Session.resultsChan s) as [|r rest] eqn:Echan.
    + destruct (Session.sender s) eqn:Esend.
      * right. apply Hsender; [discriminate|]. intros; discriminate.
      * right. apply Hsender; [discriminate|]. intros _ _ _. right.
        unfold resultsChan_capacity. change (len []) with 0. lia.
      * right. apply Hsender; [discriminate|]. intros; discriminate.
      * right. apply Hcollector; [|discriminate]. intros _. right. apply Hs.
    + right. apply Hcollector; [|discriminate]. intros _. left. discriminate.
  - right. apply Hcollector; discriminate.
  - right. apply Hcollector; discriminate.
  - (* the collector has returned: so will the sender *)
    destruct (Session.sender s) eqn:Esend.
    + right. apply Hsender; [discriminate|]. intros; discriminate.
    + right. apply Hsender; [discriminate|]. intros i' r' _.
      destruct Hs as (? & ? & _). destruct Hcol as [Hc|Hc]; [left; exact Hc|lia].
    + right. apply Hsender; [discriminate|]. intros; discriminate.
    + left. unfold stream_closed. rewrite Esend, Ecol. reflexivity.
  - contradiction.
Qed.

Lemma session_completes w pools config g s :
  let N := TestConfig.TotalRequests config in
  1 <= N -> N <= 2 ^ 53 -> session_inv w pools config g s ->
  exists schedule s',
    cancel_free schedule /\ exec w pools config schedule s = Some s' /\
    stream_closed s' = true /\ (length schedule <= session_measure N s)%nat.
Proof.
  intros N H1 H2. remember (session_measure N s) as m eqn:Hm.
  revert s Hm. induction m as [m IH] using lt_wf_ind. intros s Hm Hinv.
  destruct (session_inv_progress w pools config g s H1 H2 Hinv) as [Hcl|(a & s1 & Ha & Hstep)].
  - exists [], s. split; [constructor|]. split; [reflexivity|]. split; [exact Hcl|cbn; lia].
  - destruct (session_inv_step w pools config g a s s1 H1 H2 Hinv Hstep) as (Hinv1 & Hlt & _).
    specialize (Hlt Ha). fold N in Hlt.
    destruct (IH (session_measure N s1) ltac:(lia) s1 eq_refl Hinv1)
      as (schedule & s' & Hfree & Hexec & Hcl & Hlen).
    exists (a :: schedule), s'. split; [constructor; auto|].
    cbn [exec length]. rewrite Hstep. split; [exact Hexec|]. split; [exact Hcl|lia].
Qed.

Lemma RunTest_requests w pools config g r :
  TestConfig.TotalRequests config <> 0 ->
  RunTest w pools config g = Returns r ->
  TestResult.Requests r = sync_outcomes w pools config g (TestConfig.TotalRequests config) /\
  TestResult.TestID r = test_id (World.clock w 0).
Proof.
  intros Hn Hr. rewrite RunTest_unfold in Hr by exact Hn.
  pose proof (calculateStatistics_requests _ _ Hr) as Hreq.
  unfold calculateStatistics in Hr.
  destruct (if 0 <? _ then _ else _) as [avg| |];
    cbn [mbind go_result_bind go_bind] in Hr; try discriminate.
  destruct (calculateResponseTimePercentiles _) as [[[p50 p95] p99]| |];
    cbn [mbind go_result_bind go_bind] in Hr; try discriminate.
  injection Hr as <-. split; [exact Hreq|reflexivity].
Qed.

(** X17. Safety of a streaming session under every schedule, cancelled
    or not (for [1 <= N <= 2 ^ 53]): the collector never panics; the
    channel never holds more than its capacity of 100 results; the
    outcomes collected and those waiting on the channel are, in order, the
    first outcomes of the synchronous run of the same configuration, so
    their sequence numbers are [1, 2, ...] without gap or repetition; the
    completed count is the number of collected outcomes; and every event
    reports the total [N], a completed count within [0 .. N] and, for a
    progress event, the percentage [completed * 100 / N] within
    [0 .. 100]. *)
Theorem session_safety
    (w : World.t) (pools : AttackPayloads.t) (config : TestConfig.t) (g : rng)
    (schedule : list action) (s : Session.t) :
  let N := TestConfig.TotalRequests config in
  1 <= N -> N <= 2 ^ 53 ->
  exec w pools config schedule (session_start w config g) = Some s ->
  Session.collector s <> CPanicked /\
  len (Session.resultsChan s) <= resultsChan_capacity /\
  Session.completedCount s = len (Session.allRequests s) /\
  len (Session.allRequests s) + len (Session.resultsChan s) <= N /\
  ids (Session.allRequests s ++ Session.resultsChan s)
  = seqZ 1 (len (Session.allRequests s) + len (Session.resultsChan s)) /\
  (forall r, RunTest w pools config g = Returns r ->
             (Session.allRequests s ++ Session.resultsChan s)%list
               `prefix_of` TestResult.Requests r) /\
  Forall (fun ev =>
            ProgressUpdate.Total ev = N /\
            0 <= ProgressUpdate.Completed ev <= N /\
            (ProgressUpdate.Type_ ev = "progress" ->
             ProgressUpdate.Percentage ev = ProgressUpdate.Completed ev * 100 / N /\
             0 <= ProgressUpdate.Percentage ev <= 100))
         (Session.events s).
Proof.
  intros N H1 H2 Hexec.
  destruct (session_inv_exec w pools config g schedule _ s H1 H2
              (session_inv_start w pools config g H1) Hexec)
    as [(k & Hk & Hout & Hcap & Hcount & Hs & Hcol & Hev) _].
  fold N in Hk, Hcol.
  assert (Hlen : len (Session.allRequests s) + len (Session.resultsChan s) = k).
  { rewrite <- len_app, Hout. apply len_sync_outcomes. lia. }
  split_and!.
  - intros E. rewrite E in Hcol. exact Hcol.
  - exact Hcap.
  - exact Hcount.
  - lia.
  - rewrite Hlen, Hout. apply ids_sync_outcomes. lia.
  - intros r Hr. apply RunTest_requests in Hr as [-> _]; [|fold N; lia].
    rewrite Hout. apply sync_outcomes_prefix. fold N. lia.
  - eapply Forall_impl; [exact Hev|]. intros ev (_ & Ht & Hc & Hp & _). fold N in Ht, Hc, Hp.
    split; [exact Ht|]. split; [exact Hc|]. intros Hty. destruct (Hp Hty) as [-> _].
    split; [reflexivity|]. split; [apply Z.div_pos; lia|].
    apply Z.div_le_upper_bound; lia.
Qed.

Lemma session_safety_witness :
  exists s,
    exec failing_world (pools_of "P") (sample_config 2 2 "baseline")
      [ASender false; ASender false; ACancel; ACollector false]
      (session_start failing_world (sample_config 2 2 "baseline") [])
    = Some s /\
    Session.collector s <> CPanicked /\
    len (Session.resultsChan s) <= resultsChan_capacity /\
    Session.completedCount s = len (Session.allRequests s).
Proof.
  let e := eval vm_compute in
      (exec failing_world (pools_of "P") (sample_config 2 2 "baseline")
         [ASender false; ASender false; ACancel; ACollector false]
         (session_start failing_world (sample_config 2 2 "baseline") [])) in
  match e with
  | Some ?s0 =>
      assert (Hexec : exec failing_world (pools_of "P")
                        (sample_config 2 2 "baseline")
                        [ASender false; ASender false; ACancel; ACollector false]
                        (session_start failing_world
                           (sample_config 2 2 "baseline") []) = Some s0)
        by (vm_compute; reflexivity);
      exists s0
  end.
  split; [exact Hexec|].
  pose proof (session_safety failing_world (pools_of "P")
                (sample_config 2 2 "baseline") [] _ _ ltac:(vm_compute; discriminate)
                ltac:(vm_compute; discriminate) Hexec) as (Hp & Hc & Hn & _).
  split; [exact Hp|]. split; [exact Hc|exact Hn].
Defined.

Lemma calculateStatistics_congr a b ra rb :
  TestResult.Requests a = TestResult.Requests b ->
  TestResult.TotalRequests a = TestResult.TotalRequests b ->
  0 < TestResult.TotalRequests a ->
  calculateStatistics a = Returns ra -> calculateStatistics b = Returns rb ->
  TestResult.TotalRequests ra = TestResult.TotalRequests rb /\
  TestResult.SuccessCount ra = TestResult.SuccessCount rb /\
  TestResult.ErrorCount ra = TestResult.ErrorCount rb /\
  TestResult.BlockedCount ra = TestResult.BlockedCount rb /\
  TestResult.AvgResponse ra = TestResult.AvgResponse rb /\
  TestResult.MinResponse ra = TestResult.MinResponse rb /\
  TestResult.MaxResponse ra = TestResult.MaxResponse rb /\
  TestResult.P50Response ra = TestResult.P50Response rb /\
  TestResult.P95Response ra = TestResult.P95Response rb /\
  TestResult.P99Response ra = TestResult.P99Response rb.
Proof.
  intros Hreq Htot Hpos. unfold calculateStatistics. rewrite <- Hreq, <- Htot.
  apply Z.ltb_lt in Hpos. rewrite Hpos.
  destruct (go_div _ _) as [avg| |]; cbn [mbind go_result_bind go_bind]; try discriminate.
  destruct (calculateResponseTimePercentiles _) as [[[p50 p95] p99]| |];
    cbn [mbind go_result_bind go_bind]; try discriminate.
  intros Ha Hb. injection Ha as <-. injection Hb as <-. cbn. split_and!; reflexivity.
Qed.

(** X18. The two paths agree. The final result of a streaming session
    that is never cancelled carries the same outcomes, in the same order,
    and the same statistics as the result that [RunTest] returns for the
    same configuration, transport and random supply; only the rate-limit
    report and the end time are the synchronous path's own. *)
Theorem streaming_agrees_with_RunTest
    (w : World.t) (pools : AttackPayloads.t) (config : TestConfig.t) (g : rng)
    (schedule : list action) (s : Session.t) (ev : ProgressUpdate.t) (r : TestResult.t) :
  let N := TestConfig.TotalRequests config in
  1 <= N -> N <= 2 ^ 53 ->
  cancel_free schedule ->
  exec w pools config schedule (session_start w config g) = Some s ->
  In ev (Session.events s) -> ProgressUpdate.Type_ ev = "complete" ->
  RunTest w pools config g = Returns r ->
  exists final,
    ProgressUpdate.FinalResult ev = Some final /\
    TestResult.TestID final = TestResult.TestID r /\
    TestResult.Requests final = TestResult.Requests r /\
    TestResult.TotalRequests final = TestResult.TotalRequests r /\
    TestResult.SuccessCount final = TestResult.SuccessCount r /\
    TestResult.ErrorCount final = TestResult.ErrorCount r /\
    TestResult.BlockedCount final = TestResult.BlockedCount r /\
    TestResult.AvgResponse final = TestResult.AvgResponse r /\
    TestResult.MinResponse final = TestResult.MinResponse r /\
    TestResult.MaxResponse final = TestResult.MaxResponse r /\
    TestResult.P50Response final = TestResult.P50Response r /\
    TestResult.P95Response final = TestResult.P95Response r /\
    TestResult.P99Response final = TestResult.P99Response r.
Proof.
  intros N H1 H2 Hfree Hexec Hin Hty Hr.
  (* the session without cancellation delivers N outcomes *)
  pose proof (stream_inv_exec w pools config schedule _ s H1 H2 Hfree
                (stream_inv_start w config g H1) Hexec)
    as (_ & k & _ & _ & _ & _ & _ & Hcomplete).
  rewrite Forall_forall in Hcomplete. apply list_elem_of_In in Hin.
  destruct (Hcomplete ev Hin Hty) as (final & Hf & Ht & Hids). fold N in Ht, Hids.
  (* and they are the outcomes of the synchronous loop *)
  destruct (session_inv_exec w pools config g schedule _ s H1 H2
              (session_inv_start w pools config g H1) Hexec)
    as [(_ & _ & _ & _ & _ & _ & _ & Hev) _].
  rewrite Forall_forall in Hev. destruct (Hev ev Hin) as (_ & _ & _ & _ & _ & Hc).
  destruct (Hc Hty) as (final' & now & Hf' & Hbuild & Hprefix). fold N in Hprefix.
  assert (final' = final) by congruence. subst final'.
  destruct (RunTest_requests w pools config g r ltac:(fold N; lia) Hr) as [Hreq Hid].
  fold N in Hreq.
  assert (Hlen : len (TestResult.Requests final) = N).
  { rewrite <- len_ids, Hids. apply len_seqZ. lia. }
  assert (Hsame : TestResult.Requests final = TestResult.Requests r).
  { rewrite Hreq. apply prefix_same_length; [exact Hprefix|].
    apply Nat2Z.inj. pose proof (len_sync_outcomes w pools config g N ltac:(lia)) as Hs.
    unfold len in Hlen, Hs. rewrite Hlen, Hs. reflexivity. }
  exists final. split; [exact Hf|].
  pose proof Hr as Hr'. rewrite RunTest_unfold in Hr' by (fold N; lia). fold N in Hr'.
  unfold buildFinalResult in Hbuild.
  assert (Hsync : RunLoop.Requests
                    (runLoop w pools config (Z.to_nat N) 1 (RunLoop.mk [] false 0 g))
                  = TestResult.Requests final).
  { rewrite Hsame, Hreq. reflexivity. }
  rewrite Hsync in Hr'.
  pose proof (fun Hq Ht Hp => calculateStatistics_congr _ _ _ _ Hq Ht Hp Hbuild Hr') as Hcongr.
  cbn [TestResult.TotalRequests TestResult.Requests] in Hcongr.
  destruct (Hcongr eq_refl eq_refl ltac:(lia))
    as (E1 & E2 & E3 & E4 & E5 & E6 & E7 & E8 & E9 & E10).
  split; [rewrite Hid|]. 
  { unfold calculateStatistics in Hbuild.
    destruct (if 0 <? _ then _ else _) as [avg| |];
      cbn [mbind go_result_bind go_bind] in Hbuild; try discriminate.
    destruct (calculateResponseTimePercentiles _) as [[[p50 p95] p99]| |];
      cbn [mbind go_result_bind go_bind] in Hbuild; try discriminate.
    injection Hbuild as <-. reflexivity. }
  split_and!; assumption.
Qed.

Lemma streaming_agrees_with_RunTest_witness :
  exists s ev r final,
    exec failing_world (pools_of "P") (sample_config 1 1 "baseline")
      [ASender false; ASender false; ACollector false; ACollector false;
       ASender false; ACollector false]
      (session_start failing_world (sample_config 1 1 "baseline") [])
    = Some s /\
    last (Session.events s) = Some ev /\
    RunTest failing_world (pools_of "P") (sample_config 1 1 "baseline") []
    = Returns r /\
    ProgressUpdate.FinalResult ev = Some final /\
    TestResult.Requests final = TestResult.Requests r /\
    TestResult.AvgResponse final = TestResult.AvgResponse r /\
    TestResult.P99Response final = TestResult.P99Response r.
Proof.
  let e := eval vm_compute in
      (exec failing_world (pools_of "P") (sample_config 1 1 "baseline")
         [ASender false; ASender false; ACollector false; ACollector false;
          ASender false; ACollector false]
         (session_start failing_world (sample_config 1 1 "baseline") [])) in
  match e with
  | Some ?s0 =>
      assert (Hexec : exec failing_world (pools_of "P")
                        (sample_config 1 1 "baseline")
                        [ASender false; ASender false; ACollector false; ACollector false;
                         ASender false; ACollector false]
                        (session_start failing_world
                           (sample_config 1 1 "baseline") []) = Some s0)
        by (vm_compute; reflexivity);
      exists s0;
      let l := eval vm_compute in (last (Session.events s0)) in
      match l with
      | Some ?ev0 =>
          assert (Hlast : last (Session.events s0) = Some ev0) by (vm_compute; reflexivity);
          assert (Hin : In ev0 (Session.events s0))
            by (cbn; right; right; left; reflexivity);
          exists ev0
      end
  end.
  let e := eval vm_compute in
      (RunTest failing_world (pools_of "P")
         (sample_config 1 1 "baseline") []) in
  match e with
  | Returns ?r0 =>
      assert (Hr : RunTest failing_world (pools_of "P")
                     (sample_config 1 1 "baseline") [] = Returns r0)
        by (vm_compute; reflexivity);
      exists r0
  end.
  destruct (streaming_agrees_with_RunTest failing_world (pools_of "P")
              (sample_config 1 1 "baseline") []
              [ASender false; ASender false; ACollector false; ACollector false;
               ASender false; ACollector false] _ _ _
              ltac:(vm_compute; discriminate) ltac:(vm_compute; discriminate)
              ltac:(repeat constructor; discriminate) Hexec Hin eq_refl Hr)
    as (final & Hf & _ & Hreq & _ & _ & _ & _ & Havg & _ & _ & _ & _ & Hp99).
  exists final. split_and!; auto.
Defined.

(** X19. Every streaming session ends (for [1 <= N <= 2 ^ 53]). Whatever
    the schedule and the cancellations, the two goroutines take at most
    [5 N + 3] steps together; and from every state that a session can
    reach, cancelled or not, it can go on until the sender and the
    collector have both returned: it never blocks for good on the
    channel. *)
Theorem session_terminates
    (w : World.t) (pools : AttackPayloads.t) (config : TestConfig.t) (g : rng)
    (schedule : list action) (s : Session.t) :
  let N := TestConfig.TotalRequests config in
  1 <= N -> N <= 2 ^ 53 ->
  exec w pools config schedule (session_start w config g) = Some s ->
  Z.of_nat (goroutine_steps schedule) <= 5 * N + 3 /\
  exists rest s',
    cancel_free rest /\ exec w pools config rest s = Some s' /\
    stream_closed s' = true /\
    Z.of_nat (goroutine_steps schedule + length rest) <= 5 * N + 3.
Proof.
  intros N H1 H2 Hexec.
  destruct (session_inv_exec w pools config g schedule _ s H1 H2
              (session_inv_start w pools config g H1) Hexec) as [Hinv Hm].
  fold N in Hm.
  assert (Hstart : session_measure N (session_start w config g) = Z.to_nat (5 * N + 3)).
  { unfold session_measure, collector_measure, sender_measure. cbn. unfold len. cbn. lia. }
  rewrite Hstart in Hm. split; [lia|].
  destruct (session_completes w pools config g s H1 H2 Hinv)
    as (rest & s' & Hfree & Hexec' & Hcl & Hlen).
  fold N in Hlen. exists rest, s'. split_and!; auto. lia.
Qed.

Lemma session_terminates_witness :
  Z.of_nat (goroutine_steps [ASender false; ACancel; ASender false]) <= 5 * 2 + 3 /\
  exists s rest s',
    exec failing_world (pools_of "P") (sample_config 2 2 "baseline")
      [ASender false; ACancel; ASender false]
      (session_start failing_world (sample_config 2 2 "baseline") [])
    = Some s /\
    cancel_free rest /\
    exec failing_world (pools_of "P") (sample_config 2 2 "baseline") rest s
    = Some s' /\
    stream_closed s' = true.
Proof.
  let e := eval vm_compute in
      (exec failing_world (pools_of "P") (sample_config 2 2 "baseline")
         [ASender false; ACancel; ASender false]
         (session_start failing_world (sample_config 2 2 "baseline") [])) in
  match e with
  | Some ?s0 =>
      assert (Hexec : exec failing_world (pools_of "P")
                        (sample_config 2 2 "baseline")
                        [ASender false; ACancel; ASender false]
                        (session_start failing_world
                           (sample_config 2 2 "baseline") []) = Some s0)
        by (vm_compute; reflexivity);
      destruct (session_terminates failing_world (pools_of "P")
                  (sample_config 2 2 "baseline") [] _ _ ltac:(vm_compute; discriminate)
                  ltac:(vm_compute; discriminate) Hexec)
        as (Hb & rest & s' & Hfree & Hexec' & Hcl & _);
      split; [exact Hb|exists s0, rest, s'; auto]
  end.
Defined.

Lemma step_events_prefix w pools config a s s' :
  step w pools config a s = Some s' ->
  Session.events s `prefix_of` Session.events s' /\
  (Session.cancelled s = true -> Session.cancelled s' = true) /\
  (forall ev, In ev (Session.events s') -> ProgressUpdate.Type_ ev = "cancelled" ->
              In ev (Session.events s) \/ Session.cancelled s' = true).
Proof.
  intros Hstep. destruct s as [c pc gen chan closed cpc all batch count evs].
  destruct a as [|takeDone|secondElapsed]; cbn [step] in Hstep.
  - injection Hstep as <-. session_fields. split; [reflexivity|]. auto.
  - unfold sender_step in Hstep. session_fields.
    assert (E : Session.events s' = evs /\ Session.cancelled s' = c).
    { repeat case_match; simplify_eq; split; reflexivity. }
    destruct E as [-> ->]. split; [reflexivity|]. auto.
  - unfold collector_step in Hstep. session_fields.
    repeat case_match; simplify_eq; session_fields; rewrite ?app_nil_r.
    all: split; [try reflexivity; apply prefix_app_r; reflexivity|].
    all: split; [auto|]. all: intros ev Hin Hty; auto.
    all: apply in_app_or in Hin as [Hin|[<-|[]]]; auto; discriminate.
Qed.

Lemma exec_events_prefix w pools config schedule s s' :
  exec w pools config schedule s = Some s' ->
  Session.events s `prefix_of` Session.events s' /\
  (Session.cancelled s = true -> Session.cancelled s' = true) /\
  (forall ev, In ev (Session.events s') -> ProgressUpdate.Type_ ev = "cancelled" ->
              In ev (Session.events s) \/ Session.cancelled s' = true).
Proof.
  revert s. induction schedule as [|a schedule IH]; intros s Hexec; cbn [exec] in Hexec.
  - injection Hexec as <-. split; [reflexivity|]. auto.
  - destruct (step w pools config a s) as [s1|] eqn:E; [|discriminate].
    destruct (step_events_prefix _ _ _ _ _ _ E) as (P1 & C1 & Q1).
    destruct (IH s1 Hexec) as (P2 & C2 & Q2).
    split; [etransitivity; eassumption|]. split; [auto|].
    intros ev Hin Hty. destruct (Q2 ev Hin Hty) as [H|H]; [|auto].
    destruct (Q1 ev H Hty) as [H'|H']; auto.
Qed.

(** X20. The shape of the event stream of every session with at least
    one request, under every schedule. It starts with the initial progress event (0 completed, no
    outcome); while the collector runs it holds progress events only; when
    the collector has returned it is a sequence of progress events followed
    by exactly one terminal event, "cancelled" or "complete", which is the
    last event. A "cancelled" event occurs only in a session that was
    cancelled. *)
Theorem event_stream_shape
    (w : World.t) (pools : AttackPayloads.t) (config : TestConfig.t) (g : rng)
    (schedule : list action) (s : Session.t) :
  1 <= TestConfig.TotalRequests config ->
  exec w pools config schedule (session_start w config g) = Some s ->
  (exists first rest,
      Session.events s = first :: rest /\
      ProgressUpdate.Type_ first = "progress" /\ ProgressUpdate.Completed first = 0 /\
      ProgressUpdate.NewRequests first = [] /\
      ProgressUpdate.Total first = TestConfig.TotalRequests config) /\
  (Session.collector s <> CDone -> Forall is_progress (Session.events s)) /\
  (Session.collector s = CDone ->
   exists evs ev, Session.events s = (evs ++ [ev])%list /\
                  Forall is_progress evs /\ is_terminal ev) /\
  (forall ev, In ev (Session.events s) -> ProgressUpdate.Type_ ev = "cancelled" ->
              Session.cancelled s = true).
Proof.
  intros _ Hexec. pose proof (events_inv_exec _ _ _ _ _ _ Hexec) as Hinv.
  destruct (exec_events_prefix _ _ _ _ _ _ Hexec) as ([rest Hp] & _ & Hc).
  split_and!.
  - cbn in Hp. eexists _, rest. split; [exact Hp|]. cbn. auto.
  - intros Hn. unfold events_inv in Hinv. destruct (Session.collector s); congruence.
  - intros Hd. unfold events_inv in Hinv. rewrite Hd in Hinv. exact Hinv.
  - intros ev Hin Hty. destruct (Hc ev Hin Hty) as [H|H]; [|exact H].
    cbn in H. destruct H as [<-|[]]. discriminate.
Qed.

Lemma event_stream_shape_witness :
  exists s,
    exec failing_world (pools_of "P") (sample_config 1 1 "baseline")
      [ASender false; ASender false; ACollector false; ACancel; ACollector false]
      (session_start failing_world (sample_config 1 1 "baseline") []) = Some s /\
    Session.collector s = CDone /\
    exists evs ev, Session.events s = (evs ++ [ev])%list /\
                   Forall is_progress evs /\ is_terminal ev.
Proof.
  let e := eval vm_compute in
      (exec failing_world (pools_of "P") (sample_config 1 1 "baseline")
         [ASender false; ASender false; ACollector false; ACancel; ACollector false]
         (session_start failing_world (sample_config 1 1 "baseline") [])) in
  match e with
  | Some ?s0 =>
      assert (Hexec : exec failing_world (pools_of "P") (sample_config 1 1 "baseline")
                        [ASender false; ASender false; ACollector false; ACancel;
                         ACollector false]
                        (session_start failing_world (sample_config 1 1 "baseline") [])
                      = Some s0)
        by (vm_compute; reflexivity);
      exists s0
  end.
  split; [exact Hexec|]. split; [reflexivity|].
  destruct (event_stream_shape failing_world (pools_of "P") (sample_config 1 1 "baseline") []
              _ _ ltac:(vm_compute; discriminate) Hexec) as (_ & _ & Hd & _).
  exact (Hd eq_refl).
Defined.

(** ** Cancellation *)

Lemma cancelled_step w pools config a s s' :
  Session.cancelled s = true -> step w pools config a s = Some s' ->
  Session.cancelled s' = true /\
  cancelled_intake s' <= cancelled_intake s /\
  (a <> ACancel -> (cancelled_measure s' < cancelled_measure s)%nat) /\
  (a = ACancel -> cancelled_measure s' = cancelled_measure s).
Proof.
  intros Hc Hstep. destruct s as [c pc gen chan closed cpc all batch count evs].
  cbn [Session.cancelled] in Hc. subst c.
  unfold cancelled_measure, cancelled_intake.
  destruct a as [|takeDone|secondElapsed]; cbn [step] in Hstep.
  - injection Hstep as <-. session_fields. split_and!; auto; try lia. intros H; contradiction.
  - unfold sender_step in Hstep. session_fields.
    destruct pc as [i|i r|i|]; repeat case_match; simplify_eq; session_fields;
      split_and!; auto; try lia; try discriminate.
  - unfold collector_step in Hstep. session_fields.
    destruct cpc; repeat case_match; simplify_eq; session_fields;
      unfold len in *; rewrite ?length_app; cbn [length];
      split_and!; auto; try lia; try discriminate.
Qed.

(** X21. Cancellation is prompt. Once a session is cancelled the sender
    starts no new request, and whatever the schedule the two goroutines
    take at most 5 more steps together, during which the collector takes
    at most one more outcome. *)
Theorem cancellation_is_prompt
    (w : World.t) (pools : AttackPayloads.t) (config : TestConfig.t)
    (schedule : list action) (s s' : Session.t) :
  Session.cancelled s = true ->
  exec w pools config schedule s = Some s' ->
  Session.cancelled s' = true /\
  (goroutine_steps schedule <= 5)%nat /\
  len (Session.allRequests s') <= len (Session.allRequests s) + 1 /\
  (forall i, Session.sender s = SCheck i -> forall takeDone s1,
       step w pools config (ASender takeDone) s = Some s1 -> Session.sender s1 = SDone).
Proof.
  intros Hc Hexec.
  assert (H : Session.cancelled s' = true /\
              cancelled_intake s' <= cancelled_intake s /\
              (goroutine_steps schedule + cancelled_measure s' <= cancelled_measure s)%nat).
  { revert s Hc Hexec. induction schedule as [|a schedule IH]; intros s Hc Hexec;
      cbn [exec] in Hexec.
    - injection Hexec as <-. split_and!; auto; try lia; cbn; lia.
    - destruct (step w pools config a s) as [s1|] eqn:E; [|discriminate].
      destruct (cancelled_step _ _ _ _ _ _ Hc E) as (Hc1 & Hi & Hlt & Heq).
      destruct (IH s1 Hc1 Hexec) as (Hc' & Hi' & Hm). split_and!; auto; try lia.
      unfold goroutine_steps in *. cbn [List.filter]. destruct a; cbn [length].
      + rewrite <- (Heq eq_refl). exact Hm.
      + pose proof (Hlt ltac:(discriminate)). lia.
      + pose proof (Hlt ltac:(discriminate)). lia. }
  destruct H as (Hc' & Hi & Hm). split; [exact Hc'|]. split; [|split].
  - assert (cancelled_measure s <= 5)%nat; [|lia].
    unfold cancelled_measure. destruct (Session.sender s), (Session.collector s); lia.
  - unfold cancelled_intake in Hi.
    destruct (Session.collector s'), (Session.collector s); lia.
  - intros i Hi' takeDone s1 Hstep. cbn [step] in Hstep. unfold sender_step in Hstep.
    rewrite Hi', Hc in Hstep. destruct (_ <? i); injection Hstep as <-; reflexivity.
Qed.

Lemma cancellation_is_prompt_witness :
  exists s',
    exec failing_world (pools_of "P") (sample_config 2 2 "baseline")
      [ASender false; ACollector false]
      (cancel (session_start failing_world (sample_config 2 2 "baseline") [])) = Some s' /\
    Session.cancelled s' = true /\
    (goroutine_steps [ASender false; ACollector false] <= 5)%nat.
Proof.
  let e := eval vm_compute in
      (exec failing_world (pools_of "P") (sample_config 2 2 "baseline")
         [ASender false; ACollector false]
         (cancel (session_start failing_world (sample_config 2 2 "baseline") []))) in
  match e with
  | Some ?s0 =>
      assert (Hexec : exec failing_world (pools_of "P") (sample_config 2 2 "baseline")
                        [ASender false; ACollector false]
                        (cancel (session_start failing_world
                                   (sample_config 2 2 "baseline") [])) = Some s0)
        by (vm_compute; reflexivity);
      exists s0
  end.
  split; [exact Hexec|].
  destruct (cancellation_is_prompt failing_world (pools_of "P") (sample_config 2 2 "baseline")
              [ASender false; ACollector false]
              (cancel (session_start failing_world (sample_config 2 2 "baseline") [])) _
              eq_refl Hexec) as (H1 & H2 & _).
  split; [exact H1|exact H2].
Defined.

(** ** Test identifiers and the session registry *)

Lemma fmt_d_parse z : NilZero.int_of_string (fmt_d z) = Some (Z.to_int z).
Proof.
  unfold fmt_d. apply NilZero.isi.
  - destruct z; cbn; try discriminate. intros H. injection H as H.
    exact (DecimalPos.Unsigned.to_uint_nonnil _ H).
  - destruct z; cbn; try discriminate. intros H. injection H as H.
    exact (DecimalPos.Unsigned.to_uint_nonnil _ H).
Qed.

Lemma fmt_d_inj a b : fmt_d a = fmt_d b -> a = b.
Proof.
  intros H. apply DecimalZ.to_int_inj.
  pose proof (fmt_d_parse a) as Ha. rewrite H, fmt_d_parse in Ha. congruence.
Qed.

Lemma append_inj_r (s a b : string) : s +:+ a = s +:+ b -> a = b.
Proof.
  induction s as [|c s IH]; [auto|]. rewrite !append_cons. intros H. injection H as H. auto.
Qed.

(** X22. Test identifiers and the registry of running sessions. The
    identifier is [test_] followed by the start time in seconds: two starts
    get the same identifier exactly when they fall in the same second. A
    registered session is found under its identifier until it is
    unregistered. When two sessions share an identifier the later one
    replaces the earlier one in the registry, so that a stop request reaches
    only the later one; and as soon as either of them ends and
    unregisters, the identifier is unknown and the other one can no longer
    be stopped. *)
Theorem session_registry_by_second
    (activeSessions : gmap string TestSession.t) (a b : TestSession.t) (t1 t2 : Z) :
  (test_id t1 = test_id t2 <-> t1 = t2) /\
  getSession (TestSession.TestID a) (registerSession a activeSessions) = Some a /\
  getSession (TestSession.TestID a)
    (unregisterSession (TestSession.TestID a) (registerSession a activeSessions)) = None /\
  (TestSession.TestID a <> TestSession.TestID b ->
   getSession (TestSession.TestID a)
     (unregisterSession (TestSession.TestID b)
        (registerSession b (registerSession a activeSessions))) = Some a) /\
  (TestSession.TestID a = test_id t1 -> TestSession.TestID b = test_id t1 ->
   let both := registerSession b (registerSession a activeSessions) in
   getSession (test_id t1) both = Some b /\
   handleStopTest "POST" (inr (test_id t1)) both
   = StopCancelled (TestSession.CancelFunc b) (test_id t1) /\
   handleStopTest "POST" (inr (test_id t1)) (unregisterSession (TestSession.TestID a) both)
   = StopError 404 "Test not found or already completed").
Proof.
  unfold getSession, registerSession, unregisterSession. split_and!.
  - split; [|intros ->; reflexivity]. unfold test_id. intros H.
    apply fmt_d_inj. eapply append_inj_r. exact H.
  - apply lookup_insert_eq.
  - apply lookup_delete_eq.
  - intros Hne. rewrite lookup_delete_ne by congruence.
    rewrite lookup_insert_ne by congruence. apply lookup_insert_eq.
  - intros Ha Hb. cbv zeta. unfold handleStopTest, getSession.
    cbn [String.eqb Ascii.eqb Bool.eqb negb].
    rewrite Ha, Hb. rewrite lookup_insert_eq, lookup_delete_eq. auto.
Qed.

(** X23. [handleStopTest] cancels a session exactly when the request is
    a POST whose body names a registered session, and then it cancels that
    session and no other. Any other method is answered 405: the branch for
    the OPTIONS preflight is never reached. An undecodable body is answered
    400 and an unknown identifier 404. *)
Theorem handleStopTest_cancels
    (method : string) (decoded : string + string)
    (activeSessions : gmap string TestSession.t) :
  handleStopTest method decoded activeSessions <> StopPreflight /\
  (method <> "POST" ->
   handleStopTest method decoded activeSessions
   = StopError 405 "Method not allowed. Use POST.") /\
  (forall cancelled testID,
      handleStopTest method decoded activeSessions = StopCancelled cancelled testID <->
      method = "POST" /\ decoded = inr testID /\
      exists session, activeSessions !! testID = Some session /\
                      TestSession.CancelFunc session = cancelled) /\
  (forall testID, method = "POST" -> decoded = inr testID ->
      activeSessions !! testID = None ->
      handleStopTest method decoded activeSessions
      = StopError 404 "Test not found or already completed") /\
  (forall err, method = "POST" -> decoded = inl err ->
      handleStopTest method decoded activeSessions = StopError 400 ("Invalid JSON: " +:+ err)).
Proof.
  unfold handleStopTest, getSession.
  destruct (String.eqb_spec method "POST") as [->|Hm]; cbn [negb String.eqb Ascii.eqb Bool.eqb].
  - split_and!.
    + destruct decoded as [err|testID]; [discriminate|].
      destruct (activeSessions !! testID); discriminate.
    + intros H. contradiction.
    + intros cancelled testID. destruct decoded as [err|testID'].
      * split; [discriminate|]. intros (_ & H & _). discriminate.
      * destruct (activeSessions !! testID') as [session|] eqn:E.
        -- split.
           ++ intros H. injection H as <- <-. eauto.
           ++ intros (_ & H & session' & Hs & Hc). injection H as ->.
              rewrite E in Hs. injection Hs as <-. rewrite Hc. reflexivity.
        -- split; [discriminate|]. intros (_ & H & session' & Hs & _).
           injection H as ->. rewrite E in Hs. discriminate.
    + intros testID _ -> ->. reflexivity.
    + intros err _ ->. reflexivity.
  - split_and!.
    + discriminate.
    + intros _. reflexivity.
    + intros cancelled testID. split; [discriminate|]. intros (H & _). contradiction.
    + intros testID H. contradiction.
    + intros err H. contradiction.
Qed.

(** ** The synchronous start handler *)

(** X24. [handleStartTest] refuses exactly the configurations that the
    streaming handler refuses, with the same status and message; any
    method other than POST is answered 405, so the branch for the OPTIONS
    preflight is never reached. On an accepted configuration it runs
    [RunTest] with the defaults filled in and responds with its result,
    which holds [TotalRequests] outcomes: the handler never panics. *)
Theorem handleStartTest_runs_validated
    (w : World.t) (pools : AttackPayloads.t) (g : rng)
    (method : string) (decoded : string + TestConfig.t) (encodeFails : bool) :
  handleStartTest w pools g method decoded encodeFails <> StartPreflight /\
  handleStartTest w pools g method decoded encodeFails <> StartPanic /\
  (method <> "POST" ->
   handleStartTest w pools g method decoded encodeFails
   = StartError 405 "Method not allowed. Use POST.") /\
  (forall c, method = "POST" -> decoded = inr c ->
     (invalid_config c ->
      exists message,
        handleStartTest w pools g method decoded encodeFails = StartError 400 message /\
        handleStartTestStream "POST" (inr c) true = HttpError 400 message) /\
     (~ invalid_config c ->
      exists r,
        RunTest w pools (with_defaults c) g = Returns r /\
        len (TestResult.Requests r) = TestConfig.TotalRequests c /\
        handleStartTest w pools g method decoded encodeFails
        = if encodeFails then StartError 500 "Failed to encode response"
          else StartResult r)).
Proof.
  assert (Hrun : forall c, ~ invalid_config c ->
            exists r, RunTest w pools (with_defaults c) g = Returns r /\
                      len (TestResult.Requests r) = TestConfig.TotalRequests c).
  { intros c Hv. unfold invalid_config in Hv.
    destruct (RunTest_spec w pools (with_defaults c) g) as (r & Hr & _ & Hids & _).
    - cbn. lia.
    - cbn. change (2 ^ 53) with 9007199254740992. lia.
    - exists r. split; [exact Hr|]. rewrite <- len_ids, Hids.
      cbn [with_defaults TestConfig.TotalRequests]. apply len_seqZ. lia. }
  unfold handleStartTest.
  destruct (String.eqb_spec method "POST") as [->|Hm]; cbn [negb String.eqb Ascii.eqb Bool.eqb].
  - destruct decoded as [err|c].
    + split_and!; try discriminate; try (intros; contradiction).
    + destruct (validateConfig_spec c) as [[Hi [message Hv]]|[Hv Hd]].
      * rewrite Hv. split_and!; try discriminate; try (intros; contradiction).
        intros c' _ H. injection H as <-. split; [|intros; contradiction].
        intros _. exists message. split; [reflexivity|].
        unfold handleStartTestStream. cbn [negb String.eqb Ascii.eqb Bool.eqb]. rewrite Hv.
        reflexivity.
      * rewrite Hd. destruct (Hrun c Hv) as (r & Hr & Hlen). rewrite Hr.
        split_and!; try (destruct encodeFails; discriminate); try (intros; contradiction).
        intros c' _ H. injection H as <-. split; [intros; contradiction|].
        intros _. exists r. auto.
  - split_and!; try discriminate; try reflexivity. intros c H. contradiction.
Qed.

(** ** Export *)

(** X25. [handleExport] answers 405 to any method other than POST (the
    OPTIONS branch is never reached) and 400 to a format other than "json"
    and "csv", before anything is written. It reports success exactly when
    the exports directory could be made and the file written (for JSON:
    marshalled and written; for CSV: created); the file is then
    [test_<time stamp>.<format>] in the exports directory.
    [ExportResults] itself looks at the format only after it has made the
    directory. *)
Theorem handleExport_success_iff
    (env : ExportEnv.t) (fmt : CsvEnv.t) (method : string)
    (config : TestConfig.t) (results : TestResult.t) (format filename message : string) :
  handleExport env fmt method (inr (config, results, format)) <> ExportPreflight /\
  (method <> "POST" ->
   handleExport env fmt method (inr (config, results, format))
   = ExportError 405 "Method not allowed. Use POST.") /\
  (format <> "json" -> format <> "csv" ->
   handleExport env fmt "POST" (inr (config, results, format))
   = ExportError 400 "format must be 'json' or 'csv'" /\
   ExportResults env fmt config results format
   = match ExportEnv.os_MkdirAll env with
     | Some err => inl ("failed to create exports directory: " +:+ err)
     | None => inl ("unsupported format: " +:+ format +:+ " (use 'json' or 'csv')")
     end) /\
  (handleExport env fmt "POST" (inr (config, results, format))
   = ExportSuccess filename message <->
   ExportEnv.os_MkdirAll env = None /\
   (format = "json" /\ ExportEnv.json_MarshalIndent env = None /\
    ExportEnv.os_WriteFile env = None
    \/ format = "csv" /\ ExportEnv.os_Create env = None) /\
   filename = ExportEnv.filepath_Join env "../exports"
                ("test_" +:+ ExportEnv.timestamp env +:+ "." +:+ format) /\
   message = "Results exported to " +:+ filename).
Proof.
  unfold handleExport. split_and!.
  - destruct (String.eqb_spec method "POST") as [->|Hm];
      cbn [negb String.eqb Ascii.eqb Bool.eqb]; [|discriminate].
    destruct (_ && _); [discriminate|]. destruct (ExportResults _ _ _ _ _); discriminate.
  - intros Hm. apply String.eqb_neq in Hm. rewrite Hm. reflexivity.
  - intros Hj Hc. apply String.eqb_neq in Hj, Hc.
    cbn [negb String.eqb Ascii.eqb Bool.eqb]. unfold ExportResults. rewrite Hj, Hc.
    split; [reflexivity|]. destruct (ExportEnv.os_MkdirAll env); reflexivity.
  - cbn [negb String.eqb Ascii.eqb Bool.eqb]. unfold ExportResults, exportJSON, exportCSV.
    destruct (String.eqb_spec format "json") as [->|Hj];
      [|destruct (String.eqb_spec format "csv") as [->|Hc]]; cbn [negb andb].
    + destruct (ExportEnv.os_MkdirAll env) as [e|];
        [split; [discriminate|intros (H & _); discriminate]|].
      destruct (ExportEnv.json_MarshalIndent env) as [e|];
        [split; [discriminate|intros (_ & [(_ & H & _)|(H & _)] & _); discriminate]|].
      destruct (ExportEnv.os_WriteFile env) as [e|];
        [split; [discriminate|intros (_ & [(_ & _ & H)|(H & _)] & _); discriminate]|].
      split.
      * intros H. injection H as <- <-. split_and!; auto.
      * intros (_ & _ & -> & ->). reflexivity.
    + destruct (ExportEnv.os_MkdirAll env) as [e|];
        [split; [discriminate|intros (H & _); discriminate]|].
      destruct (ExportEnv.os_Create env) as [e|]; cbn [fst];
        [split; [discriminate|intros (_ & [(H & _)|(_ & H)] & _); discriminate]|].
      split.
      * intros H. injection H as <- <-. split_and!; auto.
      * intros (_ & _ & -> & ->). reflexivity.
    + split; [discriminate|]. intros (_ & [(H & _)|(H & _)] & _); contradiction.
Qed.

Lemma csv_widths fmt config req :
  length (csv_headerRow config)
  = (if String.eqb (TestConfig.TrafficType config) "attack" then 11 else 10)%nat /\
  length (csv_row fmt config req) = length (csv_headerRow config).
Proof.
  unfold csv_headerRow, csv_row. rewrite !length_app.
  destruct (String.eqb _ "attack"); cbn; auto.
Qed.

(** X26. The CSV export. When the file cannot be created [exportCSV]
    returns the error and writes nothing. Otherwise it returns no error
    and writes, after the summary, the header of the request table and one
    record per outcome, in order: every record of the table has the width
    of the header, 10 columns and 11 for attack traffic; its first column
    is the sequence number in decimal, which parses back to it; its third
    and sixth columns are the status and the blocked flag. The record
    "Rate Limit At Request" is written exactly when the rate limit was
    hit. *)
Theorem exportCSV_request_table
    (env : ExportEnv.t) (fmt : CsvEnv.t) (dir filename : string)
    (config : TestConfig.t) (result : TestResult.t) :
  let err := fst (exportCSV env fmt dir filename config result) in
  let rows := snd (exportCSV env fmt dir filename config result) in
  let h := (28 + (if negb (String.eqb (TestConfig.CustomUserAgent config) EmptyString)
                  then 1 else 0)
            + (if TestResult.RateLimitHit result then 1 else 0))%nat in
  (forall e, ExportEnv.os_Create env = Some e ->
             err = Some ("failed to create CSV file: " +:+ e) /\ rows = []) /\
  (ExportEnv.os_Create env = None ->
   err = None /\
   length rows = (h + 1 + length (TestResult.Requests result))%nat /\
   rows !! h = Some (csv_headerRow config) /\
   (forall i req, TestResult.Requests result !! i = Some req ->
      exists cells,
        rows !! (h + 1 + i)%nat = Some (strconv_Itoa (RequestResult.ID req) :: cells) /\
        S (length cells) = length (csv_headerRow config) /\
        Z.of_int <$> NilZero.int_of_string (strconv_Itoa (RequestResult.ID req))
        = Some (RequestResult.ID req) /\
        cells !! 1%nat = Some (strconv_Itoa (RequestResult.Status req)) /\
        cells !! 4%nat = Some (strconv_FormatBool (RequestResult.WasBlocked req))) /\
   (TestResult.RateLimitHit result = true <->
    exists cell, In ["Rate Limit At Request"; cell] rows)).
Proof.
  cbv zeta. unfold exportCSV. split.
  - intros e ->. split; reflexivity.
  - intros ->. cbn [fst snd]. split; [reflexivity|].
    assert (Htable : forall i req, TestResult.Requests result !! i = Some req ->
              exists cells,
                map (csv_row fmt config) (TestResult.Requests result) !! i
                = Some (strconv_Itoa (RequestResult.ID req) :: cells) /\
                S (length cells) = length (csv_headerRow config) /\
                Z.of_int <$> NilZero.int_of_string (strconv_Itoa (RequestResult.ID req))
                = Some (RequestResult.ID req) /\
                cells !! 1%nat = Some (strconv_Itoa (RequestResult.Status req)) /\
                cells !! 4%nat = Some (strconv_FormatBool (RequestResult.WasBlocked req))).
    { intros i req Hreq. rewrite list_lookup_fmap, Hreq.
      destruct (csv_widths fmt config req) as [_ Hw]. rewrite <- Hw.
      unfold csv_row. eexists. split; [cbn [app fmap option_fmap option_map]; reflexivity|].
      split; [cbn [app length]; reflexivity|].
      split; [unfold strconv_Itoa; rewrite fmt_d_parse; cbn; f_equal; apply DecimalZ.of_to|].
      split; reflexivity. }
    assert (Hnot : forall cell,
              ~ In ["Rate Limit At Request"; cell]
                  (csv_headerRow config
                   :: map (csv_row fmt config) (TestResult.Requests result))).
    { intros cell [Hin|Hin].
      - apply (f_equal (@length string)) in Hin.
        destruct (csv_widths fmt config (sample_outcome 0 0 0)) as [Hw _].
        rewrite Hw in Hin. destruct (String.eqb _ "attack"); discriminate.
      - apply in_map_iff in Hin as (req & Hin & _).
        apply (f_equal (@length string)) in Hin.
        destruct (csv_widths fmt config req) as [Hw Hw']. rewrite Hw', Hw in Hin.
        destruct (String.eqb _ "attack"); discriminate. }
    unfold exportCSV_rows.
    set (table := map (csv_row fmt config) (TestResult.Requests result)) in *.
    destruct (negb _), (TestResult.RateLimitHit result); cbn [app Nat.add].
    all: split; [cbn [length]; unfold table; rewrite length_map; lia|].
    all: split; [reflexivity|].
    all: split; [intros i req Hreq; exact (Htable i req Hreq)|].
    all: split;
      [try discriminate; intros _; eexists; cbn [In];
       repeat (first [left; reflexivity|right])
      |try reflexivity; intros [cell Hin]; exfalso; cbn [In] in Hin;
       repeat (destruct Hin as [Hin|Hin]; [try discriminate|]);
       try (apply (Hnot cell); cbn [In]; tauto)].
Qed.

Lemma exportCSV_request_table_witness :
  snd (exportCSV (ExportEnv.mk None "20240101_120000" None None None
                    (fun dir name => dir +:+ "/" +:+ name))
         (CsvEnv.mk "1.00" "50.0%" "2.00" (fun _ => "2024-01-01 12:00:00"))
         "../exports" "test.csv" (sample_config 2 2 "baseline")
         (TestResult.mk "test_0" 2 1 1 1 100 80 120 80 120 120
            [sample_outcome 1 200 120; sample_outcome 2 429 80] true 2 0 1)) !! 29%nat
  = Some (csv_headerRow (sample_config 2 2 "baseline")).
Proof.
  pose proof (exportCSV_request_table
                (ExportEnv.mk None "20240101_120000" None None None
                   (fun dir name => dir +:+ "/" +:+ name))
                (CsvEnv.mk "1.00" "50.0%" "2.00" (fun _ => "2024-01-01 12:00:00"))
                "../exports" "test.csv" (sample_config 2 2 "baseline")
                (TestResult.mk "test_0" 2 1 1 1 100 80 120 80 120 120
                   [sample_outcome 1 200 120; sample_outcome 2 429 80] true 2 0 1))
    as [_ H].
  destruct (H eq_refl) as (_ & _ & Hh & _). exact Hh.
Defined.

(** ** Loading the payload files *)

Lemma is_payload_spec line :
  is_payload line = true <-> line <> EmptyString /\ strings_HasPrefix line "#" = false.
Proof.
  unfold is_payload. destruct (String.eqb_spec line EmptyString) as [->|H]; cbn [negb andb].
  - split; [discriminate|]. intros [H _]. contradiction.
  - destruct (strings_HasPrefix line "#"); cbn; split; auto; try discriminate.
    intros [_ H']. discriminate.
Qed.

Lemma loadPayloadFile_loop (strings_TrimSpace : string -> string) lines payloads :
  fold_left
    (fun (payloads : list string) (text : string) =>
       let line := strings_TrimSpace text in
       if String.eqb line EmptyString then payloads
       else if strings_HasPrefix line "#" then payloads
       else (payloads ++ [line])%list)
    lines payloads
  = (payloads ++ List.filter is_payload (map strings_TrimSpace lines))%list.
Proof.
  revert payloads. induction lines as [|text lines IH]; intros payloads.
  - cbn. now rewrite app_nil_r.
  - cbn [fold_left map List.filter]. rewrite IH. unfold is_payload at 2.
    destruct (String.eqb (strings_TrimSpace text) EmptyString); cbn [negb andb];
      [reflexivity|].
    destruct (strings_HasPrefix (strings_TrimSpace text) "#"); cbn [negb];
      [reflexivity|]. now rewrite <- app_assoc.
Qed.

Lemma loadPayloadFile_filter
    (payloadsFS_ReadFile : string -> option string)
    (scanner_lines : string -> list string) (strings_TrimSpace : string -> string)
    (filename : string) :
  loadPayloadFile payloadsFS_ReadFile scanner_lines strings_TrimSpace filename
  = (fun data => List.filter is_payload (map strings_TrimSpace (scanner_lines data)))
      <$> payloadsFS_ReadFile filename.
Proof.
  unfold loadPayloadFile. destruct (payloadsFS_ReadFile filename) as [data|]; [|reflexivity].
  cbn. rewrite loadPayloadFile_loop. reflexivity.
Qed.

Lemma filter_is_payload lines :
  Forall (fun payload => payload <> EmptyString /\ strings_HasPrefix payload "#" = false)
         (List.filter is_payload lines) /\
  len (List.filter is_payload lines) <= len lines.
Proof.
  split.
  - apply Forall_forall. intros p Hp. apply list_elem_of_In, filter_In in Hp as [_ Hp].
    apply is_payload_spec. exact Hp.
  - unfold len. pose proof (List.filter_length_le is_payload lines). lia.
Qed.

(** X27. [loadPayloadFile] fails only when the file cannot be read.
    Otherwise it returns, in the order of the file, the trimmed lines that
    are neither empty nor comments: no payload is the empty string and none
    starts with [#]. *)
Theorem loadPayloadFile_keeps_payloads
    (payloadsFS_ReadFile : string -> option string)
    (scanner_lines : string -> list string) (strings_TrimSpace : string -> string)
    (filename : string) :
  let loaded := loadPayloadFile payloadsFS_ReadFile scanner_lines strings_TrimSpace filename in
  (payloadsFS_ReadFile filename = None <-> loaded = None) /\
  (forall data, payloadsFS_ReadFile filename = Some data ->
     loaded = Some (List.filter is_payload (map strings_TrimSpace (scanner_lines data)))) /\
  (forall payloads, loaded = Some payloads ->
     Forall (fun payload => payload <> EmptyString /\ strings_HasPrefix payload "#" = false)
            payloads /\
     len payloads <= match payloadsFS_ReadFile filename with
                     | Some data => len (scanner_lines data)
                     | None => 0
                     end).
Proof.
  cbv zeta. rewrite loadPayloadFile_filter.
  destruct (payloadsFS_ReadFile filename) as [data|]; cbn [fmap option_fmap option_map].
  - split_and!.
    + split; discriminate.
    + intros d H. injection H as <-. reflexivity.
    + intros payloads H. injection H as <-.
      destruct (filter_is_payload (map strings_TrimSpace (scanner_lines data))) as [Hf Hl].
      split; [exact Hf|]. unfold len in *. rewrite length_map in Hl. exact Hl.
  - split_and!; [split; reflexivity|discriminate|discriminate].
Qed.



